(** * sqlc-gen-crystal: the code generation engine, embedded and verified

    A shallow embedding of [internal/codegen/codegen.go] and of the package
    [internal/crystal] ([types.go], [strings.go], [generator.go],
    [templates.go]) followed by the properties of the generator.

    Conventions of the embedding.
    - A Go [string] is a [string] of bytes.  The functions of Go's [strings],
      [regexp], [strconv] and [fmt] packages that the generator calls are
      written out in [GoStrings] for ASCII text: case mapping touches the
      letters A-Z and a-z only and white space is the six ASCII blanks.  On
      bytes above 127 Go would first decode UTF-8; such input is outside the
      model.  The conversion [string(b)] of one byte, which the source
      writes itself, is modelled for every byte (see [encodeRune]).
    - A Go [map] is a [gmap].  Where the source ranges over a map, the order
      of the visit is not fixed by the language; the embedding takes it as
      an explicit argument (see [rangeOrder]).
    - The messages of [plugin-sdk-go] are records with the fields the
      generator reads.  A pointer the source tests against [nil] is an
      [option]; a pointer it follows without a test is a plain field. *)

From Stdlib Require Import String Ascii List Bool Arith ZArith Lia.
From Stdlib Require Import Sorting.Permutation Sorting.Sorted.
From Stdlib Require Import Numbers.DecimalString.
From stdpp Require Import gmap strings list fin_maps sorting.

Open Scope string_scope.

(* ===================================================================== *)
(** * Go's string functions, on ASCII text *)
(* ===================================================================== *)

Module GoStrings.

Definition code (c : ascii) : nat := nat_of_ascii c.

Definition inRange (lo hi : nat) (c : ascii) : bool :=
  Nat.leb lo (code c) && Nat.leb (code c) hi.

Definition isUpper : ascii -> bool := inRange 65 90.
Definition isLower : ascii -> bool := inRange 97 122.
Definition isDigit : ascii -> bool := inRange 48 57.
Definition isLetter (c : ascii) : bool := isUpper c || isLower c.

(** [unicode.IsSpace] on ASCII: tab, line feed, vertical tab, form feed,
    carriage return, space. *)
Definition isSpace (c : ascii) : bool :=
  inRange 9 13 c || Nat.eqb (code c) 32.

Definition lowerChar (c : ascii) : ascii :=
  if isUpper c then ascii_of_nat (code c + 32) else c.

Definition upperChar (c : ascii) : ascii :=
  if isLower c then ascii_of_nat (code c - 32) else c.

Fixpoint mapBytes (f : ascii -> ascii) (s : string) : string :=
  match s with
  | EmptyString => EmptyString
  | String c s' => String (f c) (mapBytes f s')
  end.

(** [strings.ToLower], [strings.ToUpper] *)
Definition ToLower : string -> string := mapBytes lowerChar.
Definition ToUpper : string -> string := mapBytes upperChar.

Definition char (c : ascii) : string := String c EmptyString.

(** [string(r)] for a code point [r] below 2048: its UTF-8 encoding, one
    byte below 128 and two bytes from there on.  For a byte [b] the
    conversion [string(b)] is [encodeRune] of the number of [b]. *)
Definition encodeRune (r : nat) : string :=
  if Nat.ltb r 128 then char (ascii_of_nat r)
  else String (ascii_of_nat (192 + r / 64)) (char (ascii_of_nat (128 + r mod 64))).

(** [unicode.ToUpper] on the code points below 256: the letters a-z, the
    micro sign (to U+039C), the letters U+00E0 to U+00FE other than the
    division sign U+00F7, and U+00FF (to U+0178). *)
Definition upperRune (r : nat) : nat :=
  if Nat.leb 97 r && Nat.leb r 122 then r - 32
  else if Nat.eqb r 181 then 924
  else if Nat.leb 224 r && Nat.leb r 254 && negb (Nat.eqb r 247) then r - 32
  else if Nat.eqb r 255 then 376
  else r.

(** The double quote, which a literal cannot spell. *)
Definition dquote : string := char (ascii_of_nat 34).
Definition newline : string := char (ascii_of_nat 10).

(** [strings.HasPrefix s prefix] *)
Fixpoint HasPrefix (s prefix : string) : bool :=
  match prefix with
  | EmptyString => true
  | String p prefix' =>
      match s with
      | EmptyString => false
      | String c s' => Ascii.eqb c p && HasPrefix s' prefix'
      end
  end.

(** [s[n:]] and [s[:n]] *)
Fixpoint dropBytes (n : nat) (s : string) : string :=
  match n, s with
  | S k, String _ s' => dropBytes k s'
  | _, _ => s
  end.

Fixpoint takeBytes (n : nat) (s : string) : string :=
  match n, s with
  | S k, String c s' => String c (takeBytes k s')
  | _, _ => EmptyString
  end.

(** [strings.HasSuffix s suffix] *)
Definition HasSuffix (s suffix : string) : bool :=
  Nat.leb (String.length suffix) (String.length s)
  && String.eqb (dropBytes (String.length s - String.length suffix) s) suffix.

(** [strings.TrimSuffix s suffix] *)
Definition TrimSuffix (s suffix : string) : string :=
  if HasSuffix s suffix
  then takeBytes (String.length s - String.length suffix) s
  else s.

(** [strings.Contains s substr] *)
Fixpoint Contains (s substr : string) : bool :=
  HasPrefix s substr
  || match s with
     | EmptyString => false
     | String _ s' => Contains s' substr
     end.

(** [strings.Index s substr]; Go's -1 is [None]. *)
Fixpoint Index (s substr : string) : option nat :=
  if HasPrefix s substr then Some 0
  else match s with
       | EmptyString => None
       | String _ s' => S <$> Index s' substr
       end.

(** [strings.ReplaceAll s old new] for a non-empty [old]: the occurrences
    of [old] are replaced from left to right, without overlap.  [skip]
    counts the bytes of a matched [old] still to pass over.  The same
    function is Crystal's [String#gsub(String, String)]. *)
Fixpoint replaceFrom (old new : string) (skip : nat) (s : string) : string :=
  match s with
  | EmptyString => EmptyString
  | String c s' =>
      match skip with
      | S k => replaceFrom old new k s'
      | O =>
          if HasPrefix s old
          then new +:+ replaceFrom old new (String.length old - 1) s'
          else String c (replaceFrom old new 0 s')
      end
  end.

Definition ReplaceAll (s old new : string) : string :=
  match old with
  | EmptyString => s
  | _ => replaceFrom old new 0 s
  end.

(** [strings.Split s sep] for a non-empty [sep]. *)
Fixpoint splitFrom (sep : string) (skip : nat) (cur s : string) : list string :=
  match s with
  | EmptyString => [cur]
  | String c s' =>
      match skip with
      | S k => splitFrom sep k cur s'
      | O =>
          if HasPrefix s sep
          then cur :: splitFrom sep (String.length sep - 1) EmptyString s'
          else splitFrom sep 0 (cur +:+ char c) s'
      end
  end.

Definition Split (s sep : string) : list string :=
  splitFrom sep 0 EmptyString s.

(** [strings.Join elems sep] *)
Definition Join (elems : list string) (sep : string) : string :=
  String.concat sep elems.

(** [strings.TrimSpace] *)
Fixpoint trimLeftSpace (s : string) : string :=
  match s with
  | EmptyString => EmptyString
  | String c s' => if isSpace c then trimLeftSpace s' else s
  end.

Fixpoint trimRightSpace (s : string) : string :=
  match s with
  | EmptyString => EmptyString
  | String c s' =>
      match trimRightSpace s' with
      | EmptyString => if isSpace c then EmptyString else char c
      | r => String c r
      end
  end.

Definition TrimSpace (s : string) : string :=
  trimRightSpace (trimLeftSpace s).

(** [strings.Trim s cutset] for a one-byte cutset. *)
Fixpoint trimLeftChar (x : ascii) (s : string) : string :=
  match s with
  | EmptyString => EmptyString
  | String c s' => if Ascii.eqb c x then trimLeftChar x s' else s
  end.

Fixpoint trimRightChar (x : ascii) (s : string) : string :=
  match s with
  | EmptyString => EmptyString
  | String c s' =>
      match trimRightChar x s' with
      | EmptyString => if Ascii.eqb c x then EmptyString else char c
      | r => String c r
      end
  end.

Definition TrimChar (s : string) (x : ascii) : string :=
  trimRightChar x (trimLeftChar x s).

(** [strings.Fields]: the maximal runs of bytes that are not white space. *)
Fixpoint fieldsFrom (cur s : string) : list string :=
  match s with
  | EmptyString => if String.eqb cur EmptyString then [] else [cur]
  | String c s' =>
      if isSpace c
      then (if String.eqb cur EmptyString then fieldsFrom EmptyString s'
            else cur :: fieldsFrom EmptyString s')
      else fieldsFrom (cur +:+ char c) s'
  end.

Definition Fields (s : string) : list string := fieldsFrom EmptyString s.

(** [strings.Title]: the first letter of every word is upper-cased; a word
    starts after a byte that is neither a letter, a digit nor an
    underscore. *)
Definition isSeparator (c : ascii) : bool :=
  negb (isLetter c || isDigit c || Nat.eqb (code c) 95).

Fixpoint titleFrom (prevSep : bool) (s : string) : string :=
  match s with
  | EmptyString => EmptyString
  | String c s' =>
      String (if prevSep && isLetter c then upperChar c else c)
             (titleFrom (isSeparator c) s')
  end.

Definition Title (s : string) : string := titleFrom true s.

(** [matchFirstCap.ReplaceAllString(str, "${1}_${2}")] for
    [(.)([A-Z][a-z]+)]: the leftmost byte other than a line feed that is
    followed by an upper-case letter and at least one lower-case letter
    starts a match; the match takes the whole run of lower-case letters and
    the search resumes behind it.  [inRun] says that the bytes read are
    still the lower-case run of the match just replaced. *)
Fixpoint replaceFirstCap (inRun : bool) (s : string) : string :=
  match s with
  | EmptyString => EmptyString
  | String c s' =>
      if inRun && isLower c then String c (replaceFirstCap true s')
      else
        match s' with
        | String u ((String l _) as rest) =>
            if negb (Nat.eqb (code c) 10) && isUpper u && isLower l
            then String c (String "_" (String u (replaceFirstCap true rest)))
            else String c (replaceFirstCap false s')
        | _ => String c (replaceFirstCap false s')
        end
  end.

(** [matchAllCap.ReplaceAllString(str, "${1}_${2}")] for
    [([a-z0-9])([A-Z])]. *)
Fixpoint replaceAllCap (s : string) : string :=
  match s with
  | EmptyString => EmptyString
  | String c s' =>
      match s' with
      | String u rest =>
          if (isLower c || isDigit c) && isUpper u
          then String c (String "_" (String u (replaceAllCap rest)))
          else String c (replaceAllCap s')
      | EmptyString => char c
      end
  end.

(** [fmt.Sprintf("%d", n)] *)
Definition itoa (n : Z) : string :=
  match n with
  | Z0 => "0"
  | Zpos p => NilEmpty.string_of_uint (Pos.to_uint p)
  | Zneg p => "-" +:+ NilEmpty.string_of_uint (Pos.to_uint p)
  end.

Definition hexDigit (n : nat) : ascii :=
  if Nat.ltb n 10 then ascii_of_nat (48 + n) else ascii_of_nat (87 + n).

(** [fmt.Sprintf("%q", s)], that is [strconv.Quote]. *)
Definition quoteChar (c : ascii) : string :=
  let n := code c in
  if Nat.eqb n 34 then "\" +:+ dquote
  else if Nat.eqb n 92 then "\\"
  else if Nat.eqb n 7 then "\a"
  else if Nat.eqb n 8 then "\b"
  else if Nat.eqb n 12 then "\f"
  else if Nat.eqb n 10 then "\n"
  else if Nat.eqb n 13 then "\r"
  else if Nat.eqb n 9 then "\t"
  else if Nat.eqb n 11 then "\v"
  else if Nat.ltb n 32 || Nat.eqb n 127
       then "\x" +:+ char (hexDigit (n / 16)) +:+ char (hexDigit (n mod 16))
  else char c.

Fixpoint quoteBody (s : string) : string :=
  match s with
  | EmptyString => EmptyString
  | String c s' => quoteChar c +:+ quoteBody s'
  end.

Definition Quote (s : string) : string := dquote +:+ quoteBody s +:+ dquote.

(** [sort.SliceStable]: a stable sort.  For a [less] that is a strict weak
    order the sorted stable arrangement is unique, so insertion from the
    right gives the slice Go's insertion-and-merge passes give. *)
Section StableSort.
Context {A : Type} (less : A -> A -> bool).

Fixpoint insertStable (x : A) (l : list A) : list A :=
  match l with
  | [] => [x]
  | y :: l' => if less y x then y :: insertStable x l' else x :: y :: l'
  end.

Fixpoint SliceStable (l : list A) : list A :=
  match l with
  | [] => []
  | x :: l' => insertStable x (SliceStable l')
  end.
End StableSort.

End GoStrings.

Import GoStrings.

(* ===================================================================== *)
(** * The messages of the sqlc plugin protocol *)
(* ===================================================================== *)

(** The messages of [github.com/sqlc-dev/plugin-sdk-go/plugin] that reach
    the generator, each with the fields the generator reads. *)

Module Plugin.

Record Identifier := {
  Identifier_Catalog : string;
  Identifier_Schema : string;
  Identifier_Name : string
}.

(** [Table], [Type] and [EmbedTable] are pointers the generator compares
    with [nil]. *)
Record Column := {
  Column_Name : string;
  Column_NotNull : bool;
  Column_IsArray : bool;
  Column_Table : option Identifier;
  Column_TableAlias : string;
  Column_Type : option Identifier;
  Column_IsSqlcSlice : bool;
  Column_EmbedTable : option Identifier
}.

(** The message [Parameter] (the name is a keyword here).  [Number] is an
    [int32]; the generator only prints and compares it. *)
Record QueryParameter := {
  Parameter_Number : Z;
  Parameter_Column : Column
}.

Record Query := {
  Query_Text : string;
  Query_Name : string;
  Query_Cmd : string;
  Query_Columns : list Column;
  Query_Params : list QueryParameter;
  Query_Comments : list string
}.

Record Table := {
  Table_Rel : Identifier;
  Table_Columns : list Column
}.

Record Schema := {
  Schema_Name : string;
  Schema_Tables : list Table
}.

Record Catalog := {
  Catalog_Schemas : list Schema
}.

Record Settings := {
  Settings_Engine : string
}.

Record GenerateRequest := {
  Request_Settings : Settings;
  Request_Catalog : option Catalog;
  Request_Queries : list Query
}.

Record File := {
  File_Name : string;
  File_Contents : string
}.

End Plugin.

Import Plugin.

(* ===================================================================== *)
(** * Package crystal *)
(* ===================================================================== *)

Module Crystal.

(** ** strings.go *)

Definition toSnakeCase (str : string) : string :=
  let snake := replaceFirstCap false str in
  let snake := replaceAllCap snake in
  ToLower snake.

(** [strings.ToUpper(string(str[0])) + f(str[1:])].  [string(str[0])]
    makes a code point of the first byte, whatever the byte is a part of;
    [ToUpper] maps that code point, and the result is written in UTF-8:
    one byte for a first byte below 128, two bytes otherwise. *)
Definition upperFirst (f : string -> string) (str : string) : string :=
  match str with
  | EmptyString => EmptyString
  | String c rest => encodeRune (upperRune (code c)) +:+ f rest
  end.

Definition toPascalCase (str : string) : string :=
  if negb (Contains str "_") && negb (Contains str "-") && negb (Contains str " ")
  then upperFirst (fun rest => rest) str
  else
    let str := ReplaceAll str "_" " " in
    let str := ReplaceAll str "-" " " in
    let words := Fields str in
    Join (List.map (upperFirst ToLower) words) "".

Definition toConstantCase (str : string) : string :=
  ToUpper (toSnakeCase str).

Definition irregulars : gmap string string :=
  list_to_map
    [ ("children", "child"); ("people", "person"); ("men", "man");
      ("women", "woman"); ("feet", "foot"); ("teeth", "tooth");
      ("geese", "goose"); ("mice", "mouse"); ("dice", "die") ].

Definition singularize (word : string) : string :=
  let len := String.length word in
  if Nat.leb len 1 then word
  else
    let lower := ToLower word in
    match irregulars !! lower with
    | Some singular =>
        if String.eqb (ToUpper word) word then ToUpper singular
        else if String.eqb (Title word) word then Title singular
        else singular
    | None =>
        if HasSuffix lower "ies" && Nat.ltb 3 len
        then takeBytes (len - 3) word +:+ "y"
        else if HasSuffix lower "ves" && Nat.ltb 3 len
        then takeBytes (len - 3) word +:+ "fe"
        else if HasSuffix lower "ses" && Nat.ltb 3 len
        then takeBytes (len - 2) word
        else
          let beforeEs := takeBytes (len - 2) word in
          let lastChar := ToLower (dropBytes (String.length beforeEs - 1) beforeEs) in
          if HasSuffix lower "es" && Nat.ltb 2 len
             && (String.eqb lastChar "x" || String.eqb lastChar "s"
                 || String.eqb lastChar "z"
                 || HasSuffix (ToLower beforeEs) "ch"
                 || HasSuffix (ToLower beforeEs) "sh")
          then beforeEs
          else if HasSuffix lower "s" && Nat.ltb 1 len
          then takeBytes (len - 1) word
          else word
    end.

Definition crystalModuleName (name : string) : string :=
  if String.eqb name "" then "Db"
  else
    let parts :=
      if Contains name "::" then Split name "::"
      else if Contains name "." then Split name "."
      else [name] in
    Join (List.map toPascalCase parts) "::".

(** ** types.go *)

(** One [case] of a [switch] over a string. *)
Definition oneOf (s : string) (names : list string) : bool :=
  existsb (String.eqb s) names.

Definition postgresType (sqlType : string) : string :=
  if oneOf sqlType ["int8"; "bigint"; "bigserial"] then "Int64"
  else if oneOf sqlType ["int4"; "int"; "integer"; "serial"] then "Int32"
  else if oneOf sqlType ["int2"; "smallint"; "smallserial"] then "Int16"
  else if oneOf sqlType ["numeric"; "decimal"] then "Float64"
  else if oneOf sqlType ["real"; "float4"] then "Float32"
  else if oneOf sqlType ["float8"; "double precision"] then "Float64"
  else if oneOf sqlType ["bool"; "boolean"] then "Bool"
  else if oneOf sqlType ["text"; "varchar"; "char"; "bpchar"; "citext"; "name"]
  then "String"
  else if oneOf sqlType ["timestamp"; "timestamptz"; "date"; "time"; "timetz"]
  then "Time"
  else if oneOf sqlType ["interval"] then "Time::Span"
  else if oneOf sqlType ["uuid"] then "String"
  else if oneOf sqlType ["json"; "jsonb"] then "JSON::Any"
  else if oneOf sqlType ["bytea"] then "Bytes"
  else if oneOf sqlType ["inet"; "cidr"; "macaddr"; "macaddr8"] then "String"
  else if oneOf sqlType ["point"; "line"; "lseg"; "box"; "path"; "polygon"; "circle"]
  then "String"
  else if oneOf sqlType ["money"] then "Float64"
  else if oneOf sqlType ["bit"; "bit varying"; "varbit"] then "String"
  else if oneOf sqlType ["int4range"; "int8range"; "numrange"; "tsrange";
                         "tstzrange"; "daterange"]
  then "String"
  else if oneOf sqlType ["xml"] then "String"
  else if oneOf sqlType ["void"] then "Nil"
  else "String".

Definition mysqlType (sqlType : string) : string :=
  if oneOf sqlType ["bigint"] then "Int64"
  else if oneOf sqlType ["int"; "integer"; "mediumint"] then "Int32"
  else if oneOf sqlType ["smallint"] then "Int16"
  else if oneOf sqlType ["tinyint"] then "Int8"
  else if oneOf sqlType ["decimal"; "numeric"] then "Float64"
  else if oneOf sqlType ["float"] then "Float32"
  else if oneOf sqlType ["double"; "double precision"; "real"] then "Float64"
  else if oneOf sqlType ["bit"; "bool"; "boolean"] then "Bool"
  else if oneOf sqlType ["char"; "varchar"; "text"; "tinytext"; "mediumtext"; "longtext"]
  then "String"
  else if oneOf sqlType ["datetime"; "timestamp"] then "Time"
  else if oneOf sqlType ["date"] then "Time"
  else if oneOf sqlType ["time"] then "Time::Span"
  else if oneOf sqlType ["year"] then "Int32"
  else if oneOf sqlType ["json"] then "JSON::Any"
  else if oneOf sqlType ["binary"; "varbinary"; "blob"; "tinyblob"; "mediumblob";
                         "longblob"]
  then "Bytes"
  else if oneOf sqlType ["enum"; "set"] then "String"
  else "String".

Definition normalizeSQLiteType (sqlType : string) : string :=
  let sqlType :=
    match Index sqlType "(" with
    | Some idx => takeBytes idx sqlType
    | None => sqlType
    end in
  ToLower (TrimSpace sqlType).

Definition isIntegerType (sqlType : string) : bool :=
  Contains sqlType "int"
  || oneOf sqlType ["integer"; "tinyint"; "smallint"; "mediumint"; "bigint";
                    "int2"; "int8"].

Definition isRealType (sqlType : string) : bool :=
  oneOf sqlType ["real"; "double"; "double precision"; "float"].

Definition isTextType (sqlType : string) : bool :=
  Contains sqlType "char" || Contains sqlType "clob" || Contains sqlType "text"
  || oneOf sqlType ["varchar"; "varying character"; "nchar"; "native character";
                    "nvarchar"].

Definition isBlobType (sqlType : string) : bool :=
  oneOf sqlType ["blob"; ""].

Definition isNumericType (sqlType : string) : bool :=
  oneOf sqlType ["numeric"; "decimal"] || Contains sqlType "decimal".

Definition isDateTimeType (sqlType : string) : bool :=
  oneOf sqlType ["date"; "datetime"; "timestamp"; "time"].

Definition sqliteType (sqlType : string) : string :=
  let sqlType := normalizeSQLiteType sqlType in
  if isIntegerType sqlType then "Int64"
  else if isRealType sqlType then "Float64"
  else if isTextType sqlType then "String"
  else if isBlobType sqlType then "Bytes"
  else if isNumericType sqlType then "Float64"
  else if oneOf sqlType ["boolean"; "bool"] then "Bool"
  else if isDateTimeType sqlType then "Time"
  else "String".

(** ** generator.go: options, generator, types *)

Record GeneratorOptions := {
  EmitJSONTags : bool;
  EmitDBTags : bool;
  EmitResultStructPointers : bool;
  GenerateConnectionManager : bool;
  GenerateRepositories : bool;
  EmitBooleanQuestionGetters : bool
}.

(** The generator; [signatureToStruct] is the one field the methods
    write, so the methods that write it return the new map. *)
Record Generator := {
  req : GenerateRequest;
  pkg : string;
  options : GeneratorOptions;
  signatureToStruct : gmap string string
}.

Definition NewGenerator (r : GenerateRequest) (p : string)
    (o : GeneratorOptions) : Generator :=
  {| req := r; pkg := p; options := o; signatureToStruct := ∅ |}.

Definition engine (g : Generator) : string :=
  Settings_Engine (Request_Settings (req g)).

Definition baseType (g : Generator) (col : Column) : string :=
  let typeName :=
    match Column_Type col with
    | Some t => ToLower (Identifier_Name t)
    | None => ""
    end in
  if String.eqb (engine g) "postgresql" then postgresType typeName
  else if String.eqb (engine g) "mysql" then mysqlType typeName
  else if String.eqb (engine g) "sqlite" then sqliteType typeName
  else postgresType typeName.

Definition crystalType (g : Generator) (col : Column) : string :=
  let typ := baseType g col in
  let typ := if Column_IsArray col then "Array(" +:+ typ +:+ ")" else typ in
  if negb (Column_NotNull col) && negb (Column_IsArray col)
  then (if EmitResultStructPointers (options g) then typ +:+ "*" else typ +:+ "?")
  else typ.

(** ** generator.go: the types handed to the templates *)

Record crystalField := {
  Field_Name : string;
  Field_DBName : string;
  Field_JSONName : string;
  Field_Type : string
}.

Record crystalStruct := {
  Struct_Name : string;
  Struct_TableName : string;
  Struct_Fields : list crystalField
}.

Record crystalParam := {
  Param_Name : string;
  Param_Type : string;
  Param_Position : Z
}.

Record sqlcSliceParam := {
  Slice_Name : string;
  Slice_Placeholder : string
}.

Record crystalQuery := {
  CQ_Name : string;
  CQ_SQL : string;
  CQ_SourceName : string;
  CQ_Cmd : string;
  CQ_Comments : list string;
  CQ_ConstantName : string;
  CQ_Params : list crystalParam;
  CQ_ReturnType : string;
  CQ_ResultStruct : string;
  CQ_SingleColumnType : string;
  CQ_UsesSQLCSlice : bool;
  CQ_SliceParams : list sqlcSliceParam
}.

(** ** generator.go: generateModels *)

(** The field built for a table column or a plain result column. *)
Definition columnField (g : Generator) (col : Column) : crystalField :=
  {| Field_Name := toSnakeCase (Column_Name col);
     Field_DBName := Column_Name col;
     Field_JSONName := if EmitJSONTags (options g) then Column_Name col else "";
     Field_Type := crystalType g col |}.

(** [fmt.Sprintf("%s:%s;", field.Name, field.Type)] *)
Definition fieldSig (f : crystalField) : string :=
  Field_Name f +:+ ":" +:+ Field_Type f +:+ ";".

(** What the [strings.Builder] holds after the fields were written. *)
Fixpoint signatureOf (fields : list crystalField) : string :=
  match fields with
  | [] => ""
  | f :: fields' => fieldSig f +:+ signatureOf fields'
  end.

(** The three maps [generateModels] fills: its locals [structs] and
    [fieldSignatures], and the generator's [signatureToStruct]. *)
Record modelsState := {
  structs : gmap string crystalStruct;
  fieldSignatures : gmap string string;
  signatures : gmap string string
}.

Definition register (st : modelsState) (signature : string)
    (cs : crystalStruct) : modelsState :=
  {| structs := <[Struct_Name cs := cs]> (structs st);
     fieldSignatures := <[signature := Struct_Name cs]> (fieldSignatures st);
     signatures := <[signature := Struct_Name cs]> (signatures st) |}.

Definition isSystemSchema (schema : Schema) : bool :=
  String.eqb (Schema_Name schema) "information_schema"
  || String.eqb (Schema_Name schema) "pg_catalog".

Definition isSystemTable (table : Table) : bool :=
  HasPrefix (Identifier_Name (Table_Rel table)) "pg_"
  || HasPrefix (Identifier_Name (Table_Rel table)) "sql_"
  || String.eqb (Identifier_Schema (Table_Rel table)) "information_schema"
  || String.eqb (Identifier_Schema (Table_Rel table)) "pg_catalog".

Definition tableStructName (table : Table) : string :=
  toPascalCase (singularize (Identifier_Name (Table_Rel table))).

Definition tableStruct (g : Generator) (table : Table) : crystalStruct :=
  {| Struct_Name := tableStructName table;
     Struct_TableName := Identifier_Name (Table_Rel table);
     Struct_Fields := List.map (columnField g) (Table_Columns table) |}.

Definition addTable (g : Generator) (st : modelsState) (table : Table)
    : modelsState :=
  if isSystemTable table then st
  else
    let cs := tableStruct g table in
    if Nat.ltb 0 (List.length (Struct_Fields cs))
    then register st (signatureOf (Struct_Fields cs)) cs
    else st.

Definition addSchema (g : Generator) (st : modelsState) (schema : Schema)
    : modelsState :=
  if isSystemSchema schema then st
  else fold_left (addTable g) (Schema_Tables schema) st.

(** [generateModels] runs only under [g.req.Catalog != nil]. *)
Definition catalogSchemas (g : Generator) : list Schema :=
  match Request_Catalog (req g) with
  | Some catalog => Catalog_Schemas catalog
  | None => []
  end.

(** First pass: the tables. *)
Definition tablePass (g : Generator) (st : modelsState) : modelsState :=
  fold_left (addSchema g) (catalogSchemas g) st.

Definition skipsCmd (cmd : string) : bool :=
  oneOf cmd [":exec"; ":execresult"; ":execrows"; ":copyfrom"].

(** The columns of a query, grouped the way the second pass groups them. *)
Record grouping := {
  tableColumns : gmap string (list Column);
  standaloneColumns : list Column;
  hasEmbeds : bool
}.

(** [m[key] = append(m[key], col)] *)
Definition appendAt (key : string) (col : Column)
    (m : gmap string (list Column)) : gmap string (list Column) :=
  <[key := (default [] (m !! key) ++ [col])%list]> m.

Definition groupColumn (gr : grouping) (col : Column) : grouping :=
  let standalone :=
    {| tableColumns := tableColumns gr;
       standaloneColumns := (standaloneColumns gr ++ [col])%list;
       hasEmbeds := hasEmbeds gr |} in
  match Column_EmbedTable col with
  | Some embed =>
      {| tableColumns := appendAt (Identifier_Name embed) col (tableColumns gr);
         standaloneColumns := standaloneColumns gr;
         hasEmbeds := true |}
  | None =>
      match Column_Table col with
      | Some table =>
          if negb (String.eqb (Identifier_Name table) "")
          then
            let key :=
              if negb (String.eqb (Column_TableAlias col) "")
              then Column_TableAlias col
              else Identifier_Name table in
            {| tableColumns := appendAt key col (tableColumns gr);
               standaloneColumns := standaloneColumns gr;
               hasEmbeds := hasEmbeds gr |}
          else standalone
      | None => standalone
      end
  end.

Definition groupColumns (cols : list Column) : grouping :=
  fold_left groupColumn cols
    {| tableColumns := ∅; standaloneColumns := []; hasEmbeds := false |}.

(** [for key, value := range m]: Go leaves the order of the visit open.
    [order] arranges the keys of the map; every arrangement that is a
    permutation of the keys is a run Go may take. *)
Definition rangeOrder := list string -> list string.

Definition validOrder (order : rangeOrder) : Prop :=
  forall keys, Permutation (order keys) keys.

Definition rangeMap {V : Type} (order : rangeOrder) (m : gmap string V)
    : list (string * V) :=
  omap (fun key => (fun v => (key, v)) <$> m !! key)
       (order (List.map fst (map_to_list m))).

(** The search for the struct name of an embedded table: the first table
    of that name in a schema ends the inner loop, a non-empty name ends the
    outer one. *)
Fixpoint findInTables (tableName : string) (tables : list Table) : string :=
  match tables with
  | [] => ""
  | table :: tables' =>
      if String.eqb (Identifier_Name (Table_Rel table)) tableName
      then toPascalCase (singularize (Identifier_Name (Table_Rel table)))
      else findInTables tableName tables'
  end.

Fixpoint findInSchemas (tableName : string) (schemas : list Schema) : string :=
  match schemas with
  | [] => ""
  | schema :: schemas' =>
      let structName := findInTables tableName (Schema_Tables schema) in
      if negb (String.eqb structName "") then structName
      else findInSchemas tableName schemas'
  end.

Definition embedStructName (g : Generator) (tableName : string) : string :=
  let structName :=
    match Request_Catalog (req g) with
    | Some catalog => findInSchemas tableName (Catalog_Schemas catalog)
    | None => ""
    end in
  if String.eqb structName "" then toPascalCase (singularize tableName)
  else structName.

Definition embedFieldType (g : Generator) (query : Query)
    (tableName : string) : string :=
  let upper := ToUpper (Query_Text query) in
  let nullable := Contains upper "LEFT JOIN" || Contains upper "RIGHT JOIN" in
  let fieldType := embedStructName g tableName in
  if nullable
  then
    if Contains upper "LEFT JOIN"
    then
      if negb (Contains upper ("FROM " +:+ ToUpper tableName))
      then fieldType +:+ "?"
      else fieldType
    else fieldType
  else fieldType.

Definition embedField (g : Generator) (query : Query) (tableName : string)
    : crystalField :=
  {| Field_Name := toSnakeCase (singularize tableName);
     Field_DBName := toSnakeCase (singularize tableName);
     Field_JSONName := "";
     Field_Type := embedFieldType g query tableName |}.

(** The body of the loop over [tableColumns]. *)
Definition embedEntry (g : Generator) (query : Query)
    (entry : string * list Column) : option crystalField :=
  match snd entry with
  | col :: _ =>
      match Column_EmbedTable col with
      | Some _ => Some (embedField g query (fst entry))
      | None => None
      end
  | [] => None
  end.

Definition queryFields (order : rangeOrder) (g : Generator) (query : Query)
    : list crystalField :=
  let gr := groupColumns (Query_Columns query) in
  if hasEmbeds gr
  then (omap (embedEntry g query) (rangeMap order (tableColumns gr))
        ++ List.map (columnField g) (standaloneColumns gr))%list
  else List.map (columnField g) (Query_Columns query).

(** [toPascalCase(query.Name)], with [Row] behind it for [:one] and
    [:many]. *)
Definition queryStructName (query : Query) : string :=
  let structName := toPascalCase (Query_Name query) in
  if String.eqb (Query_Cmd query) ":one" || String.eqb (Query_Cmd query) ":many"
  then structName +:+ "Row"
  else structName.

Definition addQuery (order : rangeOrder) (g : Generator) (st : modelsState)
    (query : Query) : modelsState :=
  if Nat.eqb (List.length (Query_Columns query)) 0 then st
  else if skipsCmd (Query_Cmd query) then st
  else
    let fields := queryFields order g query in
    let signature := signatureOf fields in
    match fieldSignatures st !! signature with
    | Some _ => st
    | None =>
        register st signature
          {| Struct_Name := queryStructName query;
             Struct_TableName := "";
             Struct_Fields := fields |}
    end.

(** Second pass: the queries; [orders i] arranges the embedded tables of
    the query at index [i]. *)
Fixpoint queryPass (orders : nat -> rangeOrder) (g : Generator) (i : nat)
    (queries : list Query) (st : modelsState) : modelsState :=
  match queries with
  | [] => st
  | query :: queries' =>
      queryPass orders g (S i) queries' (addQuery (orders i) g st query)
  end.

(** The maps [generateModels] starts from. *)
Definition initialModels (g : Generator) : modelsState :=
  {| structs := ∅; fieldSignatures := ∅; signatures := signatureToStruct g |}.

Definition buildModels (orders : nat -> rangeOrder) (g : Generator)
    : modelsState :=
  queryPass orders g 0 (Request_Queries (req g)) (tablePass g (initialModels g)).

(** [sort.Slice] by [Name], the [less] first.  The names are the keys of
    [structs], no two are equal, and the sorted slice is the same for every
    order in which the map was copied into it (see
    [structList_any_copy]). *)
Definition byStructName (a b : crystalStruct) : bool :=
  String.ltb (Struct_Name a) (Struct_Name b).

Definition structList (st : modelsState) : list crystalStruct :=
  SliceStable byStructName (List.map snd (map_to_list (structs st))).

(** ** templates.go: the helper functions *)

Record templateData := {
  Data_Package : string;
  Data_Structs : list crystalStruct;
  Data_Queries : list crystalQuery;
  Data_EmitJSONTags : bool;
  Data_EmitDBTags : bool;
  Data_EmitBooleanQuestionGetters : bool;
  Data_Engine : string
}.

Definition byPosition (a b : crystalParam) : bool :=
  Z.ltb (Param_Position a) (Param_Position b).

Definition paramNames (params : list crystalParam) : string :=
  if Nat.eqb (List.length params) 0 then ""
  else Join (List.map Param_Name (SliceStable byPosition params)) ", ".

Definition paramDecl (p : crystalParam) : string :=
  if HasSuffix (Param_Type p) "?"
  then Param_Name p +:+ " : " +:+ Param_Type p +:+ " = nil"
  else Param_Name p +:+ " : " +:+ Param_Type p.

Definition paramList (params : list crystalParam) : string :=
  if Nat.eqb (List.length params) 0 then ""
  else Join (List.map paramDecl params) ", ".

Definition joinComments (comments : list string) : string :=
  if Nat.eqb (List.length comments) 0 then ""
  else Join comments (newline +:+ "    # ").

Definition needsSliceExpansion (query : crystalQuery) (engine : string) : bool :=
  CQ_UsesSQLCSlice query
  && (String.eqb engine "mysql" || String.eqb engine "sqlite").

(** The text written for one slice parameter; the format string begins
    with a line feed. *)
Definition sliceExpansion (name : string) : string :=
  newline +:+ "      # Expand array parameter " +:+ name +:+ " for MySQL/SQLite"
  +:+ newline +:+ "      if " +:+ name +:+ ".empty?"
  +:+ newline +:+ "        raise ArgumentError.new(" +:+ dquote
      +:+ "slice parameter '" +:+ name +:+ "' cannot be empty" +:+ dquote +:+ ")"
  +:+ newline +:+ "      end"
  +:+ newline +:+ "      placeholders_" +:+ name +:+ " = " +:+ name
      +:+ ".size.times.map { " +:+ dquote +:+ "?" +:+ dquote +:+ " }.join("
      +:+ dquote +:+ ", " +:+ dquote +:+ ")"
  +:+ newline +:+ "      sql = sql.gsub(" +:+ dquote +:+ "/*SLICE:" +:+ name
      +:+ "*/?" +:+ dquote +:+ ", placeholders_" +:+ name +:+ ")".

(** The inner loop of [expandSliceParams]: the first parameter of that
    name, if there is one. *)
Definition findParam (params : list crystalParam) (name : string)
    : option crystalParam :=
  List.find (fun p => String.eqb (Param_Name p) name) params.

(** The names [expandSliceParams] writes a block for, in the order of
    [sliceParams]; a slice parameter no parameter is named after is passed
    over. *)
Definition expansionNames (params : list crystalParam)
    (sliceParams : list sqlcSliceParam) : list string :=
  omap (fun sp => Param_Name <$> findParam params (Slice_Name sp)) sliceParams.

Definition expandSliceParams (params : list crystalParam)
    (sliceParams : list sqlcSliceParam) : string :=
  if Nat.eqb (List.length sliceParams) 0 then ""
  else Join (List.map sliceExpansion (expansionNames params sliceParams)) newline.

Definition isBooleanType (crystalType : string) : bool :=
  String.eqb crystalType "Bool" || String.eqb crystalType "Bool?".

(** ** templates.go: modelsTemplateStr, executed *)

Definition renderField (data : templateData) (f : crystalField) : string :=
  (if Data_EmitJSONTags data && negb (String.eqb (Field_JSONName f) "")
   then newline +:+ "    @[JSON::Field(key: " +:+ Quote (Field_JSONName f) +:+ ")]"
   else "")
  +:+ (if Data_EmitDBTags data && negb (String.eqb (Field_DBName f) (Field_Name f))
       then newline +:+ "    @[DB::Field(key: " +:+ Quote (Field_DBName f) +:+ ")]"
       else "")
  +:+ (if Data_EmitBooleanQuestionGetters data && isBooleanType (Field_Type f)
       then newline +:+ "    getter? " +:+ Field_Name f +:+ " : " +:+ Field_Type f
       else newline +:+ "    getter " +:+ Field_Name f +:+ " : " +:+ Field_Type f).

Definition renderStruct (data : templateData) (cs : crystalStruct) : string :=
  newline +:+ "  struct " +:+ Struct_Name cs
  +:+ newline +:+ "    include DB::Serializable"
  +:+ (if Data_EmitJSONTags data
       then newline +:+ "    include JSON::Serializable" else "")
  +:+ String.concat "" (List.map (renderField data) (Struct_Fields cs))
  +:+ newline +:+ "  end" +:+ newline.

Definition executeModels (data : templateData) : string :=
  "module " +:+ crystalModuleName (Data_Package data)
  +:+ String.concat "" (List.map (renderStruct data) (Data_Structs data))
  +:+ "end" +:+ newline.

Definition modelsData (g : Generator) (st : modelsState) : templateData :=
  {| Data_Package := pkg g;
     Data_Structs := structList st;
     Data_Queries := [];
     Data_EmitJSONTags := EmitJSONTags (options g);
     Data_EmitDBTags := EmitDBTags (options g);
     Data_EmitBooleanQuestionGetters := EmitBooleanQuestionGetters (options g);
     Data_Engine := "" |}.

(** [generateModels]: the file, or [nil] when no struct was built, and the
    generator's signature map as the two passes leave it. *)
Definition generateModels (orders : nat -> rangeOrder) (g : Generator)
    : option File * gmap string string :=
  let st := buildModels orders g in
  (if Nat.eqb (size (structs st)) 0 then None
   else Some {| File_Name := "models.cr";
                File_Contents := executeModels (modelsData g st) |},
   signatures st).

(** ** generator.go: getStructNameForQuery *)

Definition getStructNameForQuery (g : Generator) (query : Query) : string :=
  if Nat.leb (List.length (Query_Columns query)) 1 then ""
  else
    let signature := signatureOf (List.map (columnField g) (Query_Columns query)) in
    match signatureToStruct g !! signature with
    | Some structName => structName
    | None => queryStructName query
    end.

(** ** generator.go: generateQueries *)

Definition isRowCmd (cmd : string) : bool :=
  String.eqb cmd ":one" || String.eqb cmd ":many".

(** The parameter descriptor built in the loop over [query.Params]. *)
Definition buildParam (g : Generator) (param : QueryParameter) : crystalParam :=
  let col := Parameter_Column param in
  {| Param_Name :=
       if negb (String.eqb (Column_Name col) "")
       then toSnakeCase (Column_Name col)
       else "arg" +:+ itoa (Parameter_Number param);
     Param_Type :=
       if Column_IsSqlcSlice col
       then "Array(" +:+ baseType g col +:+ ")"
       else crystalType g col;
     Param_Position := Parameter_Number param |}.

Definition buildSliceParam (g : Generator) (param : QueryParameter)
    : option sqlcSliceParam :=
  if Column_IsSqlcSlice (Parameter_Column param)
  then Some {| Slice_Name := Param_Name (buildParam g param);
               Slice_Placeholder := "$" +:+ itoa (Parameter_Number param) |}
  else None.

Definition isOptional (p : crystalParam) : bool :=
  HasSuffix (Param_Type p) "?".

(** The [less] of the sort that puts required parameters first. *)
Definition requiredFirst (a b : crystalParam) : bool :=
  if negb (Bool.eqb (isOptional a) (isOptional b))
  then negb (isOptional a)
  else Z.ltb (Param_Position a) (Param_Position b).

Definition returnType (g : Generator) (query : Query) : string :=
  let cmd := Query_Cmd query in
  if String.eqb cmd ":one" then
    match Query_Columns query with
    | [col] => crystalType g col
    | _ => getStructNameForQuery g query
    end +:+ "?"
  else if String.eqb cmd ":many" then
    match Query_Columns query with
    | [col] => "Array(" +:+ crystalType g col +:+ ")"
    | _ => "Array(" +:+ getStructNameForQuery g query +:+ ")"
    end
  else if String.eqb cmd ":exec" then "Nil"
  else if String.eqb cmd ":execresult" then "DB::ExecResult"
  else if String.eqb cmd ":execrows" then "Int64"
  else if String.eqb cmd ":execlastid" then "Int64"
  else if String.eqb cmd ":copyfrom" then "Int64"
  else "".

Definition resultStruct (g : Generator) (query : Query) : string :=
  if Nat.ltb 1 (List.length (Query_Columns query)) && isRowCmd (Query_Cmd query)
  then getStructNameForQuery g query
  else "".

Definition singleColumnType (g : Generator) (query : Query) : string :=
  match Query_Columns query with
  | [col] => if isRowCmd (Query_Cmd query) then crystalType g col else ""
  | _ => ""
  end.

(** The body of the loop of [generateQueries]. *)
Definition buildQuery (g : Generator) (query : Query) : crystalQuery :=
  let sliceParams := omap (buildSliceParam g) (Query_Params query) in
  {| CQ_Name := toSnakeCase (Query_Name query);
     CQ_SQL := Query_Text query;
     CQ_SourceName := Query_Name query;
     CQ_Cmd := Query_Cmd query;
     CQ_Comments := Query_Comments query;
     CQ_ConstantName := toConstantCase (Query_Name query);
     CQ_Params :=
       SliceStable requiredFirst (List.map (buildParam g) (Query_Params query));
     CQ_ReturnType := returnType g query;
     CQ_ResultStruct := resultStruct g query;
     CQ_SingleColumnType := singleColumnType g query;
     CQ_UsesSQLCSlice := existsb (fun param => Column_IsSqlcSlice (Parameter_Column param))
                                 (Query_Params query);
     CQ_SliceParams := sliceParams |}.

(** ** templates.go: queriesTemplateStr, executed *)

(** [SQL_{{ len $.Queries | printf "%d_QUERIES" }}] *)
Definition sqlTable (data : templateData) : string :=
  "SQL_" +:+ itoa (Z.of_nat (List.length (Data_Queries data))) +:+ "_QUERIES".

(** [SQL_n_QUERIES[:CONSTANT_NAME]] *)
Definition sqlRef (data : templateData) (q : crystalQuery) : string :=
  sqlTable data +:+ "[:" +:+ CQ_ConstantName q +:+ "]".

Definition hasParams (q : crystalQuery) : bool :=
  negb (Nat.eqb (List.length (CQ_Params q)) 0).

(** The bind list behind the statement text, when [as:] follows it ... *)
Definition argsBeforeAs (q : crystalQuery) : string :=
  if hasParams q
  then newline +:+ "        " +:+ paramNames (CQ_Params q) +:+ ","
  else "".

(** ... and when it ends the call. *)
Definition argsAtEnd (q : crystalQuery) : string :=
  if hasParams q
  then "," +:+ newline +:+ "        " +:+ paramNames (CQ_Params q)
  else "".

(** One line of the loop that fills [query_params]. *)
Definition flattenLine (p : crystalParam) : string :=
  if Contains (Param_Type p) "Array("
  then newline +:+ "      query_params.concat(" +:+ Param_Name p
       +:+ ".map { |v| v.as(DB::Any) })"
  else newline +:+ "      query_params << " +:+ Param_Name p +:+ ".as(DB::Any)".

(** The call that ends a method whose slices were expanded. *)
Definition sliceCall (q : crystalQuery) : string :=
  if String.eqb (CQ_Cmd q) ":one" then
    if negb (String.eqb (CQ_ResultStruct q) "")
    then newline +:+ "      @db.query_one?(sql, args: query_params, as: "
         +:+ CQ_ResultStruct q +:+ ")"
    else newline +:+ "      @db.query_one?(sql, args: query_params) do |rs|"
         +:+ newline +:+ "        rs.read(" +:+ CQ_SingleColumnType q +:+ ")"
         +:+ newline +:+ "      end"
  else if String.eqb (CQ_Cmd q) ":many" then
    if negb (String.eqb (CQ_ResultStruct q) "")
    then newline +:+ "      @db.query_all(sql, args: query_params, as: "
         +:+ CQ_ResultStruct q +:+ ")"
    else newline +:+ "      results = [] of " +:+ CQ_SingleColumnType q
         +:+ newline +:+ "      @db.query(sql, args: query_params) do |rs|"
         +:+ newline +:+ "        rs.each do"
         +:+ newline +:+ "          results << rs.read(" +:+ CQ_SingleColumnType q +:+ ")"
         +:+ newline +:+ "        end"
         +:+ newline +:+ "      end"
         +:+ newline +:+ "      results"
  else if String.eqb (CQ_Cmd q) ":exec" then
    newline +:+ "      @db.exec(sql, args: query_params)"
    +:+ newline +:+ "      nil"
  else if String.eqb (CQ_Cmd q) ":execrows" then
    newline +:+ "      result = @db.exec(sql, args: query_params)"
    +:+ newline +:+ "      result.rows_affected"
  else "".

(** The method body under [needsSliceExpansion]. *)
Definition sliceBody (data : templateData) (q : crystalQuery) : string :=
  newline +:+ "      sql = " +:+ sqlRef data q
  +:+ newline +:+ "      " +:+ expandSliceParams (CQ_Params q) (CQ_SliceParams q)
  +:+ newline +:+ newline +:+ "      # Flatten array parameters for execution"
  +:+ newline +:+ "      query_params = [] of DB::Any"
  +:+ String.concat "" (List.map flattenLine (CQ_Params q))
  +:+ sliceCall q.

(** The method body otherwise. *)
Definition plainBody (data : templateData) (q : crystalQuery) : string :=
  let cmd := CQ_Cmd q in
  if String.eqb cmd ":one" then
    if negb (String.eqb (CQ_ResultStruct q) "")
    then newline +:+ "      @db.query_one?("
         +:+ newline +:+ "        " +:+ sqlRef data q +:+ "," +:+ argsBeforeAs q
         +:+ newline +:+ "        as: " +:+ CQ_ResultStruct q
         +:+ newline +:+ "      )"
    else newline +:+ "      result = @db.query_one?("
         +:+ newline +:+ "        " +:+ sqlRef data q +:+ argsAtEnd q
         +:+ newline +:+ "      ) do |rs|"
         +:+ newline +:+ "        rs.read(" +:+ CQ_SingleColumnType q +:+ ")"
         +:+ newline +:+ "      end"
         +:+ newline +:+ "      result"
  else if String.eqb cmd ":many" then
    if negb (String.eqb (CQ_ResultStruct q) "")
    then newline +:+ "      @db.query_all("
         +:+ newline +:+ "        " +:+ sqlRef data q +:+ "," +:+ argsBeforeAs q
         +:+ newline +:+ "        as: " +:+ CQ_ResultStruct q
         +:+ newline +:+ "      )"
    else newline +:+ "      results = [] of " +:+ CQ_SingleColumnType q
         +:+ newline +:+ "      @db.query("
         +:+ newline +:+ "        " +:+ sqlRef data q +:+ argsAtEnd q
         +:+ newline +:+ "      ) do |rs|"
         +:+ newline +:+ "        rs.each do"
         +:+ newline +:+ "          results << rs.read(" +:+ CQ_SingleColumnType q +:+ ")"
         +:+ newline +:+ "        end"
         +:+ newline +:+ "      end"
         +:+ newline +:+ "      results"
  else if String.eqb cmd ":exec" then
    newline +:+ "      @db.exec("
    +:+ newline +:+ "        " +:+ sqlRef data q +:+ argsAtEnd q
    +:+ newline +:+ "      )"
    +:+ newline +:+ "      nil"
  else if String.eqb cmd ":execresult" then
    newline +:+ "      @db.exec("
    +:+ newline +:+ "        " +:+ sqlRef data q +:+ argsAtEnd q
    +:+ newline +:+ "      )"
  else if String.eqb cmd ":execrows" then
    newline +:+ "      result = @db.exec("
    +:+ newline +:+ "        " +:+ sqlRef data q +:+ argsAtEnd q
    +:+ newline +:+ "      )"
    +:+ newline +:+ "      result.rows_affected"
  else if String.eqb cmd ":execlastid" then
    newline +:+ "      result = @db.exec("
    +:+ newline +:+ "        " +:+ sqlRef data q +:+ argsAtEnd q
    +:+ newline +:+ "      )"
    +:+ newline +:+ "      result.last_insert_id"
  else if String.eqb cmd ":copyfrom" then
    newline +:+ "      # TODO: Implement bulk insert functionality"
    +:+ newline +:+ "      # Crystal doesn't have direct support for PostgreSQL COPY or MySQL LOAD DATA"
    +:+ newline +:+ "      # For now, this returns 0 as a placeholder"
    +:+ newline +:+ "      # Consider implementing batch inserts using transactions and prepared statements"
    +:+ newline +:+ "      0_i64"
  else "".

(** The signature line of a method. *)
Definition methodHead (q : crystalQuery) : string :=
  newline +:+ "    def " +:+ CQ_Name q +:+ "(" +:+ paramList (CQ_Params q)
  +:+ ") : " +:+ CQ_ReturnType q.

Definition renderMethod (data : templateData) (q : crystalQuery) : string :=
  (if negb (Nat.eqb (List.length (CQ_Comments q)) 0)
   then newline +:+ newline +:+ "    # " +:+ joinComments (CQ_Comments q)
   else "")
  +:+ methodHead q
  +:+ (if needsSliceExpansion q (Data_Engine data)
       then sliceBody data q else plainBody data q)
  +:+ newline +:+ "    end".

Definition renderConstant (q : crystalQuery) : string :=
  newline +:+ "      " +:+ CQ_ConstantName q +:+ ": " +:+ Quote (CQ_SQL q) +:+ ",".

Definition executeQueries (data : templateData) : string :=
  "require " +:+ dquote +:+ "db" +:+ dquote +:+ newline +:+ newline
  +:+ "module " +:+ crystalModuleName (Data_Package data)
  +:+ newline +:+ "  class Queries"
  +:+ newline +:+ "    " +:+ sqlTable data +:+ " = {"
  +:+ String.concat "" (List.map renderConstant (Data_Queries data))
  +:+ newline +:+ "    }"
  +:+ newline +:+ newline +:+ "    def initialize(@db : DB::Database)"
  +:+ newline +:+ "    end"
  +:+ String.concat "" (List.map (renderMethod data) (Data_Queries data))
  +:+ newline +:+ "  end" +:+ newline +:+ "end" +:+ newline.

Definition queriesData (g : Generator) : templateData :=
  {| Data_Package := pkg g;
     Data_Structs := [];
     Data_Queries := List.map (buildQuery g) (Request_Queries (req g));
     Data_EmitJSONTags := false;
     Data_EmitDBTags := false;
     Data_EmitBooleanQuestionGetters := false;
     Data_Engine := engine g |}.

Definition generateQueries (g : Generator) : File :=
  {| File_Name := "queries.cr";
     File_Contents := executeQueries (queriesData g) |}.

(** ** generator.go: the repositories *)

(** [buildCrystalQuery]: as [buildQuery], with the position of a
    parameter taken from its index. *)
Definition buildRepoParam (g : Generator) (i : nat) (param : QueryParameter)
    : crystalParam :=
  let col := Parameter_Column param in
  {| Param_Name :=
       if negb (String.eqb (Column_Name col) "")
       then toSnakeCase (Column_Name col)
       else "arg" +:+ itoa (Z.of_nat (i + 1));
     Param_Type :=
       if Column_IsSqlcSlice col
       then "Array(" +:+ baseType g col +:+ ")"
       else crystalType g col;
     Param_Position := Z.of_nat (i + 1) |}.

Definition buildRepoSliceParam (g : Generator) (i : nat)
    (param : QueryParameter) : option sqlcSliceParam :=
  if Column_IsSqlcSlice (Parameter_Column param)
  then Some {| Slice_Name := Param_Name (buildRepoParam g i param);
               Slice_Placeholder := "$" +:+ itoa (Parameter_Number param) |}
  else None.

Definition buildCrystalQuery (g : Generator) (query : Query) : crystalQuery :=
  {| CQ_Name := toSnakeCase (Query_Name query);
     CQ_SQL := Query_Text query;
     CQ_SourceName := "";
     CQ_Cmd := Query_Cmd query;
     CQ_Comments := Query_Comments query;
     CQ_ConstantName := toConstantCase (Query_Name query);
     CQ_Params :=
       SliceStable requiredFirst (imap (buildRepoParam g) (Query_Params query));
     CQ_ReturnType := returnType g query;
     CQ_ResultStruct := resultStruct g query;
     CQ_SingleColumnType := singleColumnType g query;
     CQ_UsesSQLCSlice := existsb (fun param => Column_IsSqlcSlice (Parameter_Column param))
                                 (Query_Params query);
     CQ_SliceParams :=
       omap (fun x => x) (imap (buildRepoSliceParam g) (Query_Params query)) |}.

(** [strings.Fields(strings.TrimSpace(parts[1]))[0]] for
    [parts := strings.Split(sql, keyword)]. *)
Definition firstFieldAfter (sql keyword : string) : option string :=
  match Split sql keyword with
  | _ :: tablePart :: _ => head (Fields (TrimSpace tablePart))
  | _ => None
  end.

Definition extractTableName (q : Query) : string :=
  let sql := ToLower (Query_Text q) in
  let fromInsert :=
    if Contains sql "insert into"
    then (fun field => TrimChar field "(") <$> firstFieldAfter sql "insert into"
    else None in
  let fromUpdate :=
    if HasPrefix (TrimSpace sql) "update " then firstFieldAfter sql "update"
    else None in
  let fromDelete :=
    if Contains sql "delete from" then firstFieldAfter sql "delete from"
    else None in
  let fromSelect :=
    if Contains sql "from"
    then (fun table =>
            if Contains table " as "
            then default "" (head (Split table " as "))
            else table) <$> firstFieldAfter sql "from"
    else None in
  match fromInsert, fromUpdate, fromDelete, fromSelect with
  | Some table, _, _, _ => table
  | None, Some table, _, _ => table
  | None, None, Some table, _ => table
  | None, None, None, Some table => table
  | None, None, None, None => ""
  end.

Definition simplifyMethodName (methodName tableName : string) : string :=
  let snakeMethod := toSnakeCase methodName in
  let snakeTable := toSnakeCase tableName in
  let singularTable := TrimSuffix snakeTable "s" in
  let after (prefix : string) := dropBytes (String.length prefix) snakeMethod in
  if HasPrefix snakeMethod ("get_" +:+ singularTable)
  then "find" +:+ after ("get_" +:+ singularTable)
  else if HasPrefix snakeMethod ("list_" +:+ snakeTable +:+ "_by_")
  then "by_" +:+ after ("list_" +:+ snakeTable +:+ "_by_")
  else if String.eqb snakeMethod ("list_" +:+ snakeTable) then "all"
  else if HasPrefix snakeMethod ("create_" +:+ singularTable) then "create"
  else if HasPrefix snakeMethod ("update_" +:+ singularTable) then "update"
  else if HasPrefix snakeMethod ("delete_" +:+ singularTable) then "delete"
  else if HasPrefix snakeMethod (snakeTable +:+ "_")
  then dropBytes (String.length snakeTable + 1) snakeMethod
  else if HasPrefix snakeMethod (singularTable +:+ "_")
  then dropBytes (String.length singularTable + 1) snakeMethod
  else methodName.

(** [repositoryTemplate], executed. *)
Definition renderRepoMethod (tableName : string) (q : crystalQuery) : string :=
  newline +:+ newline +:+ "    def " +:+ simplifyMethodName (CQ_Name q) tableName
  +:+ "(" +:+ paramList (CQ_Params q) +:+ ")"
  +:+ (if negb (String.eqb (CQ_ReturnType q) "")
       then " : " +:+ CQ_ReturnType q else "")
  +:+ newline +:+ "      queries." +:+ CQ_Name q
  +:+ "(" +:+ paramNames (CQ_Params q) +:+ ")"
  +:+ newline +:+ "    end".

Definition executeRepository (package tableName : string)
    (queries : list crystalQuery) : string :=
  "module " +:+ crystalModuleName package
  +:+ newline +:+ "  class " +:+ toPascalCase tableName +:+ "Repository"
  +:+ newline +:+ "    def initialize(@queries : Queries? = nil)"
  +:+ newline +:+ "    end"
  +:+ newline +:+ newline +:+ "    private def queries"
  +:+ newline +:+ "      @queries || Database.queries"
  +:+ newline +:+ "    end"
  +:+ String.concat "" (List.map (renderRepoMethod tableName) queries)
  +:+ newline +:+ newline
  +:+ "    # Create a repository instance that uses the given transaction context"
  +:+ newline +:+ "    def self.with_transaction(tx_queries : Queries)"
  +:+ newline +:+ "      new(tx_queries)"
  +:+ newline +:+ "    end"
  +:+ newline +:+ newline
  +:+ "    # Execute a block within a transaction, automatically creating repository instances"
  +:+ newline +:+ "    def self.transaction(&block : " +:+ toPascalCase tableName
  +:+ "Repository ->)"
  +:+ newline +:+ "      Database.transaction do |tx_queries|"
  +:+ newline +:+ "        repo = new(tx_queries)"
  +:+ newline +:+ "        yield repo"
  +:+ newline +:+ "      end"
  +:+ newline +:+ "    end"
  +:+ newline +:+ "  end" +:+ newline +:+ "end" +:+ newline.

Definition generateRepositoryForTable (g : Generator) (tableName : string)
    (queries : list crystalQuery) : File :=
  {| File_Name := "repositories/" +:+ toSnakeCase tableName +:+ "_repository.cr";
     File_Contents := executeRepository (pkg g) tableName queries |}.

(** The queries grouped by the table [extractTableName] finds. *)
Definition groupByTable (g : Generator) (queries : list Query)
    : gmap string (list crystalQuery) :=
  fold_left
    (fun tableQueries q =>
       let crystalQ := buildCrystalQuery g q in
       let tableName := extractTableName q in
       if negb (String.eqb tableName "")
       then <[tableName := (default [] (tableQueries !! tableName) ++ [crystalQ])%list]>
              tableQueries
       else tableQueries)
    queries ∅.

(** [generateRepositories]: one file for every table, in the order in
    which the loop visits the map. *)
Definition generateRepositories (order : rangeOrder) (g : Generator)
    : list File :=
  List.map (fun entry => generateRepositoryForTable g (fst entry) (snd entry))
           (rangeMap order (groupByTable g (Request_Queries (req g)))).

(** ** generator.go: Generate *)

Section Generate.

(** [connectionManagerTemplate] is not among the sources at hand; what
    it renders for a package name is left open. *)
Variable connectionManagerTemplate : string -> string.

Definition generateConnectionManager (g : Generator) : File :=
  {| File_Name := "database.cr";
     File_Contents := connectionManagerTemplate (pkg g) |}.

(** The generator after [generateModels], when [Generate] calls it. *)
Definition afterModels (orders : nat -> rangeOrder) (g : Generator)
    : Generator :=
  match Request_Catalog (req g) with
  | Some catalog =>
      if Nat.ltb 0 (List.length (Catalog_Schemas catalog))
      then {| req := req g; pkg := pkg g; options := options g;
              signatureToStruct := snd (generateModels orders g) |}
      else g
  | None => g
  end.

Definition modelsFiles (orders : nat -> rangeOrder) (g : Generator)
    : list File :=
  match Request_Catalog (req g) with
  | Some catalog =>
      if Nat.ltb 0 (List.length (Catalog_Schemas catalog))
      then match fst (generateModels orders g) with
           | Some file => [file]
           | None => []
           end
      else []
  | None => []
  end.

(** The files of the response, in order.  [orders] arranges the embedded
    tables of each query, [repoOrder] the tables of the repositories. *)
Definition Generate (orders : nat -> rangeOrder) (repoOrder : rangeOrder)
    (g : Generator) : list File :=
  let g' := afterModels orders g in
  (modelsFiles orders g
   ++ (if Nat.ltb 0 (List.length (Request_Queries (req g)))
       then [generateQueries g'] else [])
   ++ (if GenerateConnectionManager (options g)
       then [generateConnectionManager g'] else [])
   ++ (if GenerateRepositories (options g)
       then generateRepositories repoOrder g' else []))%list.

End Generate.

End Crystal.

Import Crystal.

(* ===================================================================== *)
(** * Package codegen *)
(* ===================================================================== *)

Module Codegen.

Record Options := {
  Module_ : string;
  Opt_EmitJSONTags : bool;
  Opt_EmitDBTags : bool;
  Opt_EmitResultStructPointers : bool;
  Opt_GenerateConnectionManager : bool;
  Opt_GenerateRepositories : bool;
  Opt_EmitBooleanQuestionGetters : bool
}.

(** The keys of the JSON object in [req.PluginOptions]; a key the object
    does not set is [None]. *)
Record Payload := {
  module : option string;
  emit_json_tags : option bool;
  emit_db_tags : option bool;
  emit_result_struct_pointers : option bool;
  generate_connection_manager : option bool;
  generate_repositories : option bool;
  emit_boolean_question_getters : option bool
}.

(** [req.PluginOptions] as [json.Unmarshal] sees it: no bytes, bytes it
    rejects, or an object. *)
Inductive PluginOptions :=
| NoBytes
| Malformed
| Object (payload : Payload).

Definition zeroOptions : Options :=
  {| Module_ := ""; Opt_EmitJSONTags := false; Opt_EmitDBTags := false;
     Opt_EmitResultStructPointers := false;
     Opt_GenerateConnectionManager := false;
     Opt_GenerateRepositories := false;
     Opt_EmitBooleanQuestionGetters := false |}.

(** [json.Unmarshal] into the zero [Options]: a key that is not set
    leaves the zero value. *)
Definition unmarshal (payload : Payload) : Options :=
  {| Module_ := default "" (module payload);
     Opt_EmitJSONTags := default false (emit_json_tags payload);
     Opt_EmitDBTags := default false (emit_db_tags payload);
     Opt_EmitResultStructPointers := default false (emit_result_struct_pointers payload);
     Opt_GenerateConnectionManager := default false (generate_connection_manager payload);
     Opt_GenerateRepositories := default false (generate_repositories payload);
     Opt_EmitBooleanQuestionGetters := default false (emit_boolean_question_getters payload) |}.

Definition parseOptions (raw : PluginOptions) : option Options :=
  match raw with
  | NoBytes => Some zeroOptions
  | Malformed => None
  | Object payload => Some (unmarshal payload)
  end.

Definition moduleName (o : Options) : string :=
  if String.eqb (Module_ o) "" then "Db" else Module_ o.

(** The options handed to [crystal.NewGenerator]. *)
Definition generatorOptions (o : Options) : GeneratorOptions :=
  {| EmitJSONTags := Opt_EmitJSONTags o;
     EmitDBTags :=
       if negb (Opt_EmitJSONTags o) && negb (Opt_EmitDBTags o)
       then true else Opt_EmitDBTags o;
     EmitResultStructPointers := Opt_EmitResultStructPointers o;
     GenerateConnectionManager := Opt_GenerateConnectionManager o;
     GenerateRepositories := Opt_GenerateRepositories o;
     EmitBooleanQuestionGetters := Opt_EmitBooleanQuestionGetters o |}.

Definition newGenerator (request : GenerateRequest) (o : Options) : Generator :=
  NewGenerator request (moduleName o) (generatorOptions o).

(** [generate]: [None] is the error for a payload that does not parse. *)
Definition generate (connectionManagerTemplate : string -> string)
    (orders : nat -> rangeOrder) (repoOrder : rangeOrder)
    (raw : PluginOptions) (request : GenerateRequest) : option (list File) :=
  match parseOptions raw with
  | None => None
  | Some o =>
      Some (Generate connectionManagerTemplate orders repoOrder
                     (newGenerator request o))
  end.

End Codegen.

Import Codegen.

(* ===================================================================== *)
(** * What an emitted query method does when it is called *)
(* ===================================================================== *)

(** The generator writes Crystal text.  The claims about bound values and
    about the expansion of slices speak of the run of that text, so the
    statements the queries template writes are given their Crystal meaning
    here, one definition per statement:
    - [if x.empty?  raise ArgumentError.new(m)  end] raises [m] when the
      collection [x] has no element;
    - [placeholders_x = x.size.times.map { "?" }.join(", ")] is a question
      mark for every element, joined by comma and space;
    - [sql = sql.gsub(marker, placeholders_x)] replaces every occurrence of
      the literal [marker];
    - [query_params.concat(x.map { |v| v.as(DB::Any) })] appends the elements
      of [x], [query_params << x.as(DB::Any)] appends [x];
    - [@db.query_one?], [@db.query_all], [@db.query] and [@db.exec] hand the
      statement text and the bound values to the database. *)

Module Emitted.

(** An argument of a call: one value, or the elements of a collection. *)
Inductive value :=
| Scalar (v : string)
| Elements (vs : list string).

Definition arguments := string -> value.

Definition elements (v : value) : list value :=
  match v with
  | Scalar _ => [v]
  | Elements vs => List.map Scalar vs
  end.

(** How a call ends: with an exception, with a statement sent to the
    database, or with neither. *)
Inductive outcome :=
| Raised (message : string)
| Executed (sql : string) (bound : list value)
| Finished.

Definition placeholders (n : nat) : string :=
  Join (List.repeat "?" n) ", ".

Definition marker (name : string) : string :=
  "/*SLICE:" +:+ name +:+ "*/?".

Definition emptyMessage (name : string) : string :=
  "slice parameter '" +:+ name +:+ "' cannot be empty".

(** One block of [expandSliceParams], see [sliceExpansion]. *)
Definition runExpansion (args : arguments) (name sql : string)
    : string + string :=
  match elements (args name) with
  | [] => inl (emptyMessage name)
  | vs => inr (ReplaceAll sql (marker name) (placeholders (List.length vs)))
  end.

Fixpoint runExpansions (args : arguments) (names : list string)
    (sql : string) : string + string :=
  match names with
  | [] => inr sql
  | name :: names' =>
      match runExpansion args name sql with
      | inl message => inl message
      | inr sql' => runExpansions args names' sql'
      end
  end.

(** The loop over [.Params] that fills [query_params], see
    [flattenLine]. *)
Definition runFlatten (args : arguments) (params : list crystalParam)
    : list value :=
  flat_map (fun p => if Contains (Param_Type p) "Array("
                     then elements (args (Param_Name p))
                     else [args (Param_Name p)])
           params.

(** The commands [sliceCall] writes a database call for. *)
Definition sliceCalls (cmd : string) : bool :=
  oneOf cmd [":one"; ":many"; ":exec"; ":execrows"].

(** The method body [sliceBody]; [sql] starts as the constant of the
    query. *)
Definition runSliceBody (q : crystalQuery) (args : arguments) : outcome :=
  match runExpansions args (expansionNames (CQ_Params q) (CQ_SliceParams q))
                      (CQ_SQL q) with
  | inl message => Raised message
  | inr sql =>
      if sliceCalls (CQ_Cmd q)
      then Executed sql (runFlatten args (CQ_Params q))
      else Finished
  end.

(** The commands [plainBody] writes a database call for. *)
Definition plainCalls (cmd : string) : bool :=
  oneOf cmd [":one"; ":many"; ":exec"; ":execresult"; ":execrows"; ":execlastid"].

(** The method body [plainBody]: the values named by [paramNames] are
    bound as they are. *)
Definition runPlainBody (q : crystalQuery) (args : arguments) : outcome :=
  if plainCalls (CQ_Cmd q)
  then Executed (CQ_SQL q)
         (List.map (fun p => args (Param_Name p))
                   (SliceStable byPosition (CQ_Params q)))
  else Finished.

Definition runMethod (engine : string) (q : crystalQuery) (args : arguments)
    : outcome :=
  if needsSliceExpansion q engine then runSliceBody q args
  else runPlainBody q args.

(** The values in the order of the bind positions: what a statement whose
    placeholders are numbered by position expects. *)
Definition boundByPosition (args : arguments) (params : list crystalParam)
    : list value :=
  runFlatten args (SliceStable byPosition params).

End Emitted.

Import Emitted.

(* ===================================================================== *)
(** * Vocabulary of the properties *)
(* ===================================================================== *)

(** The names the [switch] of [postgresType] lists. *)
Definition postgresNames : list string :=
  [ "int8"; "bigint"; "bigserial"; "int4"; "int"; "integer"; "serial";
    "int2"; "smallint"; "smallserial"; "numeric"; "decimal"; "real"; "float4";
    "float8"; "double precision"; "bool"; "boolean"; "text"; "varchar"; "char";
    "bpchar"; "citext"; "name"; "timestamp"; "timestamptz"; "date"; "time";
    "timetz"; "interval"; "uuid"; "json"; "jsonb"; "bytea"; "inet"; "cidr";
    "macaddr"; "macaddr8"; "point"; "line"; "lseg"; "box"; "path"; "polygon";
    "circle"; "money"; "bit"; "bit varying"; "varbit"; "int4range";
    "int8range"; "numrange"; "tsrange"; "tstzrange"; "daterange"; "xml"; "void" ].

(** The names the [switch] of [mysqlType] lists. *)
Definition mysqlNames : list string :=
  [ "bigint"; "int"; "integer"; "mediumint"; "smallint"; "tinyint"; "decimal";
    "numeric"; "float"; "double"; "double precision"; "real"; "bit"; "bool";
    "boolean"; "char"; "varchar"; "text"; "tinytext"; "mediumtext"; "longtext";
    "datetime"; "timestamp"; "date"; "time"; "year"; "json"; "binary";
    "varbinary"; "blob"; "tinyblob"; "mediumblob"; "longblob"; "enum"; "set" ].

(** The affinities [sqliteType] tests for. *)
Definition sqliteRecognizes (sqlType : string) : bool :=
  let sqlType := normalizeSQLiteType sqlType in
  isIntegerType sqlType || isRealType sqlType || isTextType sqlType
  || isBlobType sqlType || isNumericType sqlType
  || oneOf sqlType ["boolean"; "bool"] || isDateTimeType sqlType.

Definition supportedEngine (engine : string) : bool :=
  oneOf engine ["postgresql"; "mysql"; "sqlite"].

(** A raw type name is recognized under a dialect selector when the table
    that selector resolves to has a case for it. *)
Definition recognizes (engine typeName : string) : bool :=
  if String.eqb engine "mysql" then oneOf typeName mysqlNames
  else if String.eqb engine "sqlite" then sqliteRecognizes typeName
  else oneOf typeName postgresNames.

(** The type name [baseType] looks up. *)
Definition rawTypeName (col : Column) : string :=
  match Column_Type col with
  | Some t => ToLower (Identifier_Name t)
  | None => ""
  end.

(** [x] occurs in [s]. *)
Definition occursIn (x s : string) : Prop :=
  exists pre post, s = pre +:+ x +:+ post.

(** The base types the three tables hand out. *)
Definition baseTypes : list string :=
  [ "Int64"; "Int32"; "Int16"; "Int8"; "Float64"; "Float32"; "Bool";
    "String"; "Time"; "Time::Span"; "JSON::Any"; "Bytes"; "Nil" ].

(** The annotation that ties a field to its column. *)
Definition dbAnnotation (f : crystalField) : string :=
  "@[DB::Field(key: " +:+ Quote (Field_DBName f) +:+ ")]".

(** The options with [emit_db_tags] switched on. *)
Definition withDBTags (o : Options) : Options :=
  {| Module_ := Module_ o;
     Opt_EmitJSONTags := Opt_EmitJSONTags o;
     Opt_EmitDBTags := true;
     Opt_EmitResultStructPointers := Opt_EmitResultStructPointers o;
     Opt_GenerateConnectionManager := Opt_GenerateConnectionManager o;
     Opt_GenerateRepositories := Opt_GenerateRepositories o;
     Opt_EmitBooleanQuestionGetters := Opt_EmitBooleanQuestionGetters o |}.

(* ===================================================================== *)
(** * Requests the properties are tried on *)
(* ===================================================================== *)

Module Sample.

Definition ident (name : string) : Identifier :=
  {| Identifier_Catalog := ""; Identifier_Schema := ""; Identifier_Name := name |}.

(** A plain column: name, raw type, NOT NULL. *)
Definition column (name type : string) (notNull : bool) : Column :=
  {| Column_Name := name; Column_NotNull := notNull; Column_IsArray := false;
     Column_Table := None; Column_TableAlias := "";
     Column_Type := Some (ident type);
     Column_IsSqlcSlice := false; Column_EmbedTable := None |}.

Definition arrayColumn (name type : string) (notNull : bool) : Column :=
  {| Column_Name := name; Column_NotNull := notNull; Column_IsArray := true;
     Column_Table := None; Column_TableAlias := "";
     Column_Type := Some (ident type);
     Column_IsSqlcSlice := false; Column_EmbedTable := None |}.

(** The column of a [sqlc.slice] parameter. *)
Definition sliceColumn (name type : string) (notNull : bool) : Column :=
  {| Column_Name := name; Column_NotNull := notNull; Column_IsArray := false;
     Column_Table := None; Column_TableAlias := "";
     Column_Type := Some (ident type);
     Column_IsSqlcSlice := true; Column_EmbedTable := None |}.

(** The result column of [sqlc.embed(table)]. *)
Definition embedColumn (table : string) : Column :=
  {| Column_Name := table; Column_NotNull := true; Column_IsArray := false;
     Column_Table := None; Column_TableAlias := "";
     Column_Type := None;
     Column_IsSqlcSlice := false; Column_EmbedTable := Some (ident table) |}.

Definition param (number : Z) (col : Column) : QueryParameter :=
  {| Parameter_Number := number; Parameter_Column := col |}.

Definition table (name : string) (cols : list Column) : Table :=
  {| Table_Rel := ident name; Table_Columns := cols |}.

Definition publicSchema (tables : list Table) : Catalog :=
  {| Catalog_Schemas := [ {| Schema_Name := "public"; Schema_Tables := tables |} ] |}.

Definition query (name cmd text : string) (params : list QueryParameter)
    (cols : list Column) : Query :=
  {| Query_Text := text; Query_Name := name; Query_Cmd := cmd;
     Query_Columns := cols; Query_Params := params; Query_Comments := [] |}.

Definition request (engine : string) (catalog : option Catalog)
    (queries : list Query) : GenerateRequest :=
  {| Request_Settings := {| Settings_Engine := engine |};
     Request_Catalog := catalog;
     Request_Queries := queries |}.

Definition noOptions : GeneratorOptions :=
  {| EmitJSONTags := false; EmitDBTags := false;
     EmitResultStructPointers := false; GenerateConnectionManager := false;
     GenerateRepositories := false; EmitBooleanQuestionGetters := false |}.

(** Every map is visited in the order of its keys. *)
Definition inOrder : rangeOrder := fun keys => keys.

(** Every map is visited against the order of its keys. *)
Definition backwards : rangeOrder := fun keys => List.rev keys.

(** A generator for a dialect the tables do not know. *)
Definition oracleGenerator : Generator :=
  NewGenerator (request "oracle" None []) "db" noOptions.

Definition geographyColumn : Column := column "area" "GEOGRAPHY" false.

Definition authorColumns : list Column :=
  [ column "id" "int4" true; column "name" "text" true;
    column "bio" "text" false ].

Definition postgres (catalog : option Catalog) (queries : list Query)
    : Generator :=
  NewGenerator (request "postgresql" catalog queries) "db" noOptions.

End Sample.

Module SampleTags.

(** A table whose column is spelled in camel case. *)
Definition eventsCatalog : Catalog :=
  Sample.publicSchema
    [ Sample.table "events" [ Sample.column "createdAt" "timestamptz" true ] ].

Definition eventsRequest : GenerateRequest :=
  Sample.request "postgresql" (Some eventsCatalog) [].

Definition createdAtField : crystalField :=
  {| Field_Name := "created_at"; Field_DBName := "createdAt";
     Field_JSONName := ""; Field_Type := "Time" |}.

Definition eventStruct : crystalStruct :=
  {| Struct_Name := "Event"; Struct_TableName := "events";
     Struct_Fields := [createdAtField] |}.

Definition eventsModels : string :=
  "module Db" +:+ newline
  +:+ "  struct Event" +:+ newline
  +:+ "    include DB::Serializable" +:+ newline
  +:+ "    @[DB::Field(key: " +:+ dquote +:+ "createdAt" +:+ dquote +:+ ")]" +:+ newline
  +:+ "    getter created_at : Time" +:+ newline
  +:+ "  end" +:+ newline
  +:+ "end" +:+ newline.

End SampleTags.

(* ===================================================================== *)
(** * The call signature, as the specification words it *)
(* ===================================================================== *)

Definition nullableParameter (param : QueryParameter) : bool :=
  negb (Column_NotNull (Parameter_Column param)).

Definition byNumber (a b : QueryParameter) : bool :=
  Z.ltb (Parameter_Number a) (Parameter_Number b).

(** Required parameters first, nullable ones behind them with a [nil]
    default, either group by bind position. *)
Definition claimedSignature (g : Generator) (query : Query) : string :=
  let required :=
    SliceStable byNumber
      (List.filter (fun param => negb (nullableParameter param))
                   (Query_Params query)) in
  let defaulted :=
    SliceStable byNumber (List.filter nullableParameter (Query_Params query)) in
  let decl (param : QueryParameter) :=
    Param_Name (buildParam g param) +:+ " : " +:+ Param_Type (buildParam g param) in
  Join (List.map decl required
        ++ List.map (fun param => decl param +:+ " = nil") defaulted)%list
       ", ".

(** The order of two parameters of a signature, the first one written
    before the second: no defaulted parameter before a required one, and
    bind positions ascend among the required and among the defaulted. *)
Definition signatureOrder (a b : crystalParam) : Prop :=
  (isOptional a = true -> isOptional b = true)
  /\ (isOptional a = isOptional b -> (Param_Position a <= Param_Position b)%Z).

Definition isRequired (p : crystalParam) : bool := negb (isOptional p).

(** Under a [less], [a] may stand before [b]. *)
Definition notAfter {A : Type} (less : A -> A -> bool) (a b : A) : Prop :=
  less b a = false.

Module SampleSignature.

(** [UPDATE posts SET tags = $1 WHERE title = $2], [tags] a nullable
    [text[]] column. *)
Definition retag : Query :=
  Sample.query "Retag" ":exec" "UPDATE posts SET tags = $1 WHERE title = $2"
    [ Sample.param 1 (Sample.arrayColumn "tags" "text" false);
      Sample.param 2 (Sample.column "title" "text" true) ]
    [].

(** The query of [TestParameterOrdering]. *)
Definition createBook : Query :=
  Sample.query "CreateBook" ":one"
    "INSERT INTO books (author_id, title, description, price, isbn, published) VALUES ($1, $2, $3, $4, $5, $6) RETURNING *"
    [ Sample.param 1 (Sample.column "author_id" "int4" true);
      Sample.param 2 (Sample.column "title" "text" true);
      Sample.param 3 (Sample.column "description" "text" false);
      Sample.param 4 (Sample.column "price" "numeric" true);
      Sample.param 5 (Sample.column "isbn" "varchar" false);
      Sample.param 6 (Sample.column "published" "date" false) ]
    Sample.authorColumns.

End SampleSignature.

(* ===================================================================== *)
(** * Vocabulary of the struct registry *)
(* ===================================================================== *)

(** The first pass builds a struct for this table. *)
Definition modelled (g : Generator) (t : Table) : bool :=
  negb (isSystemTable t)
  && Nat.ltb 0 (List.length (Struct_Fields (tableStruct g t))).

(** The tables the first pass builds a struct for, in its order. *)
Definition modelledTables (g : Generator) : list Table :=
  flat_map (fun schema =>
              if isSystemSchema schema then []
              else List.filter (modelled g) (Schema_Tables schema))
           (catalogSchemas g).

Definition tableSignature (g : Generator) (t : Table) : string :=
  signatureOf (Struct_Fields (tableStruct g t)).

Definition registerTable (g : Generator) (st : modelsState) (t : Table)
    : modelsState :=
  register st (tableSignature g t) (tableStruct g t).

(** The struct comes from a table. *)
Definition tableDerived (g : Generator) (cs : crystalStruct) : Prop :=
  exists t, In t (modelledTables g) /\ cs = tableStruct g t.

(** The struct the second pass builds for a query. *)
Definition queryStruct (order : rangeOrder) (g : Generator) (query : Query)
    : crystalStruct :=
  {| Struct_Name := queryStructName query;
     Struct_TableName := "";
     Struct_Fields := queryFields order g query |}.

(** The struct comes from a query of the request. *)
Definition queryDerived (orders : nat -> rangeOrder) (g : Generator)
    (cs : crystalStruct) : Prop :=
  exists i query,
    nth_error (Request_Queries (req g)) i = Some query
    /\ Query_Columns query <> []
    /\ cs = queryStruct (orders i) g query.

(** The ordered (name, mapped type) sequence of the result columns. *)
Definition resultShape (g : Generator) (query : Query) : list (string * string) :=
  List.map (fun col => (Column_Name col, crystalType g col)) (Query_Columns query).

(** The signature [getStructNameForQuery] looks up. *)
Definition querySignature (g : Generator) (query : Query) : string :=
  signatureOf (List.map (columnField g) (Query_Columns query)).

Definition isEmbed (col : Column) : bool :=
  match Column_EmbedTable col with
  | Some _ => true
  | None => false
  end.

(** No result column carries an embed marker. *)
Definition noEmbeds (query : Query) : bool :=
  forallb (fun col => negb (isEmbed col)) (Query_Columns query).

(** [Generate] runs [generateModels]. *)
Definition modelsRun (g : Generator) : bool :=
  match Request_Catalog (req g) with
  | Some catalog => Nat.ltb 0 (List.length (Catalog_Schemas catalog))
  | None => false
  end.

(** Every signature of [fieldSignatures] is a signature of the generator's
    map. *)
Definition domIncluded (st : modelsState) : Prop :=
  forall k, is_Some (fieldSignatures st !! k) -> is_Some (signatures st !! k).

Module SampleRegistry.

Definition getAuthor : Query :=
  Sample.query "GetAuthor" ":one" "SELECT * FROM authors WHERE id = $1"
    [ Sample.param 1 (Sample.column "id" "int4" true) ] Sample.authorColumns.

Definition listAuthors : Query :=
  Sample.query "ListAuthors" ":many" "SELECT * FROM authors ORDER BY name"
    [] Sample.authorColumns.

(** A result shape no table has. *)
Definition nameColumns : list Column :=
  [ Sample.column "id" "int4" true; Sample.column "name" "text" true ].

Definition getName : Query :=
  Sample.query "GetName" ":one" "SELECT id, name FROM authors WHERE id = $1"
    [ Sample.param 1 (Sample.column "id" "int4" true) ] nameColumns.

Definition listNames : Query :=
  Sample.query "ListNames" ":many" "SELECT id, name FROM authors"
    [] nameColumns.

Definition authors : Table := Sample.table "authors" Sample.authorColumns.

Definition authorsCatalog : Catalog := Sample.publicSchema [authors].

(** The request of [TestGenerateQueries]: no catalog. *)
Definition withoutCatalog : Generator :=
  Sample.postgres None [getAuthor; listAuthors].

Definition withCatalog : Generator :=
  Sample.postgres (Some authorsCatalog) [getAuthor; listAuthors; getName; listNames].

(** Two tables of one shape. *)
Definition cats : Table := Sample.table "cats" nameColumns.
Definition dogs : Table := Sample.table "dogs" nameColumns.

Definition petsGenerator : Generator :=
  Sample.postgres (Some (Sample.publicSchema [cats; dogs])) [].

End SampleRegistry.

Definition structSignature (cs : crystalStruct) : string :=
  signatureOf (Struct_Fields cs).

(** What holds of the maps of [generateModels] throughout the two passes:
    a struct is stored under its name, its signature is registered, it
    comes from a table or from a query, and two structs stored under two
    names share a signature only if both come from tables. *)
Record registryInv (orders : nat -> rangeOrder) (g : Generator)
    (st : modelsState) : Prop := {
  inv_named : forall name cs,
    structs st !! name = Some cs -> Struct_Name cs = name;
  inv_signed : forall name cs,
    structs st !! name = Some cs ->
    is_Some (fieldSignatures st !! structSignature cs);
  inv_origin : forall name cs,
    structs st !! name = Some cs ->
    tableDerived g cs \/ queryDerived orders g cs;
  inv_unique : forall n1 n2 cs1 cs2,
    structs st !! n1 = Some cs1 -> structs st !! n2 = Some cs2 ->
    n1 <> n2 -> structSignature cs1 = structSignature cs2 ->
    tableDerived g cs1 /\ tableDerived g cs2
}.

(** During the first pass every struct comes from a table. *)
Definition allFromTables (g : Generator) (st : modelsState) : Prop :=
  forall name cs,
    structs st !! name = Some cs ->
    Struct_Name cs = name
    /\ is_Some (fieldSignatures st !! structSignature cs)
    /\ tableDerived g cs.

Module SampleEmbed.

(** A column selected from a table, with its table reference. *)
Definition tableColumn (table name type : string) : Column :=
  {| Column_Name := name; Column_NotNull := true; Column_IsArray := false;
     Column_Table := Some (Sample.ident table); Column_TableAlias := "";
     Column_Type := Some (Sample.ident type);
     Column_IsSqlcSlice := false; Column_EmbedTable := None |}.

(** [SELECT authors.id, sqlc.embed(authors) FROM authors]: the plain column
    comes first in the group of its table. *)
Definition idAndAuthor : Query :=
  Sample.query "IdAndAuthor" ":many"
    "SELECT authors.id, sqlc.embed(authors) FROM authors" []
    [ tableColumn "authors" "id" "int4"; Sample.embedColumn "authors" ].

Definition idAndAuthorGenerator : Generator :=
  Sample.postgres (Some SampleRegistry.authorsCatalog) [idAndAuthor].

Definition embedAuthorAndBook : list Column :=
  [ Sample.embedColumn "authors"; Sample.embedColumn "books" ].

(** Two queries that embed the same two tables. *)
Definition authorWithBook : Query :=
  Sample.query "AuthorWithBook" ":many"
    "SELECT authors.id, books.id FROM authors JOIN books ON books.author_id = authors.id"
    [] embedAuthorAndBook.

Definition bookWithAuthor : Query :=
  Sample.query "BookWithAuthor" ":many"
    "SELECT authors.id, books.id FROM books JOIN authors ON books.author_id = authors.id"
    [] embedAuthorAndBook.

Definition twoEmbedQueries : Generator :=
  Sample.postgres (Some SampleRegistry.authorsCatalog)
    [authorWithBook; bookWithAuthor].

End SampleEmbed.

Module SampleJoin.

Definition books : Table :=
  Sample.table "books"
    [ Sample.column "id" "int4" true; Sample.column "author_id" "int4" true;
      Sample.column "title" "text" true ].

Definition library : Catalog :=
  Sample.publicSchema [SampleRegistry.authors; books].

Definition embedBoth : list Column :=
  [ Sample.embedColumn "authors"; Sample.embedColumn "books" ].

(** The first example of the README: the driving table is [authors]. *)
Definition leftJoin : Query :=
  Sample.query "GetAuthorWithBooks" ":many"
    "SELECT authors.*, books.* FROM authors LEFT JOIN books ON books.author_id = authors.id WHERE authors.id = $1"
    [ Sample.param 1 (Sample.column "id" "int4" true) ] embedBoth.

(** The same join written from the other side: the driving table is
    [books], [authors] is joined to it. *)
Definition rightJoin : Query :=
  Sample.query "GetBookWithAuthor" ":many"
    "SELECT authors.*, books.* FROM books RIGHT JOIN authors ON books.author_id = authors.id"
    [] embedBoth.

Definition generator (queries : list Query) : Generator :=
  Sample.postgres (Some library) queries.

End SampleJoin.

Module SampleOrder.

Definition withRepositories : GeneratorOptions :=
  {| EmitJSONTags := false; EmitDBTags := true;
     EmitResultStructPointers := false; GenerateConnectionManager := false;
     GenerateRepositories := true; EmitBooleanQuestionGetters := false |}.

Definition insertBook : Query :=
  Sample.query "CreateBook" ":exec"
    "INSERT INTO books (author_id, title) VALUES ($1, $2)"
    [ Sample.param 1 (Sample.column "author_id" "int4" true);
      Sample.param 2 (Sample.column "title" "text" true) ]
    [].

(** Two queries on two tables, repositories asked for. *)
Definition twoTables : Generator :=
  NewGenerator
    (Sample.request "postgresql" (Some SampleJoin.library)
       [SampleRegistry.getAuthor; insertBook])
    "db" withRepositories.

(** One query that embeds two tables. *)
Definition twoEmbeds : Generator :=
  SampleJoin.generator [SampleJoin.leftJoin].

End SampleOrder.

(** Every byte of [s] passes [p]. *)
Fixpoint allBytes (p : ascii -> bool) (s : string) : bool :=
  match s with
  | EmptyString => true
  | String c s' => p c && allBytes p s'
  end.

(** No byte of [s] is an upper-case letter. *)
Definition noUpper (s : string) : bool :=
  allBytes (fun c => negb (isUpper c)) s.

(** The number of bytes [c] in [s]. *)
Fixpoint countOf (c : ascii) (s : string) : nat :=
  match s with
  | EmptyString => 0
  | String x s' => (if Ascii.eqb x c then 1 else 0) + countOf c s'
  end.

Module SampleSlice.

(** [WHERE bio = ? AND id IN (sqlc.slice(ids))] as sqlc hands it to a
    plugin for MySQL: the nullable [bio] is bound first, the slice second. *)
Definition byBioAndIds : Query :=
  Sample.query "ListByBioAndIds" ":many"
    "SELECT id, name FROM authors WHERE bio = ? AND id IN (/*SLICE:ids*/?)"
    [ Sample.param 1 (Sample.column "bio" "text" false);
      Sample.param 2 (Sample.sliceColumn "ids" "int" true) ]
    SampleRegistry.nameColumns.

Definition byIds : Query :=
  Sample.query "ListByIds" ":many"
    "SELECT id, name FROM authors WHERE id IN (/*SLICE:ids*/?)"
    [ Sample.param 1 (Sample.sliceColumn "ids" "int" true) ]
    SampleRegistry.nameColumns.

Definition mysql (queries : list Query) : Generator :=
  NewGenerator (Sample.request "mysql" None queries) "db" Sample.noOptions.


(** A call with three ids and a bio. *)
Definition threeIds : arguments :=
  fun name =>
    if String.eqb name "ids" then Elements ["1"; "2"; "3"]
    else Scalar "poet".


(** [WHERE author_id IN (sqlc.slice(authorIDs))]: sqlc writes the name of
    the slice into the marker of the text and into the name of the
    column of the parameter. *)
Definition byAuthorIDs : Query :=
  Sample.query "ListBooksByAuthors" ":many"
    "SELECT id, title FROM books WHERE author_id IN (/*SLICE:authorIDs*/?)"
    [ Sample.param 1 (Sample.sliceColumn "authorIDs" "int" true) ]
    [ Sample.column "id" "int4" true; Sample.column "title" "text" true ].

(** A call of the emitted method with three authors. *)
Definition threeAuthors : arguments :=
  fun name =>
    if String.eqb name "author_i_ds" then Elements ["1"; "2"; "3"]
    else Scalar "".

End SampleSlice.

(* ===================================================================== *)
(** * Vocabulary of the further properties *)
(* ===================================================================== *)

(** No byte of [s] is a lower-case letter. *)
Definition noLower (s : string) : bool :=
  allBytes (fun c => negb (isLower c)) s.

(** No byte of [s] is white space. *)
Definition noSpace (s : string) : bool :=
  allBytes (fun c => negb (isSpace c)) s.

(** The bytes [toPascalCase] splits words at. *)
Definition isWordSeparator (c : ascii) : bool :=
  Ascii.eqb c "_" || Ascii.eqb c "-" || Ascii.eqb c " ".

Definition noWordSeparator (s : string) : bool :=
  allBytes (fun c => negb (isWordSeparator c)) s.

(** A table name as [extractTableName] returns it: no white space and no
    upper-case letter. *)
Definition tableNameByte (c : ascii) : bool :=
  negb (isSpace c) && negb (isUpper c).

(** The column with the name of its type replaced. *)
Definition withTypeName (col : Column) (name : string) : Column :=
  {| Column_Name := Column_Name col;
     Column_NotNull := Column_NotNull col;
     Column_IsArray := Column_IsArray col;
     Column_Table := Column_Table col;
     Column_TableAlias := Column_TableAlias col;
     Column_Type :=
       Some {| Identifier_Catalog := ""; Identifier_Schema := "";
               Identifier_Name := name |};
     Column_IsSqlcSlice := Column_IsSqlcSlice col;
     Column_EmbedTable := Column_EmbedTable col |}.

(** The statements of the block that [expandSliceParams] formats for a
    parameter, each spelled as the format string of the source has it: the
    guard and its message, the placeholders, and the substitution of the
    marker. *)
Definition emptyGuard (name : string) : string :=
  "if " +:+ name +:+ ".empty?"
  +:+ newline +:+ "        raise ArgumentError.new(" +:+ dquote
      +:+ emptyMessage name +:+ dquote +:+ ")"
  +:+ newline +:+ "      end".

Definition placeholdersAssignment (name : string) : string :=
  "placeholders_" +:+ name +:+ " = " +:+ name +:+ ".size.times.map { "
  +:+ dquote +:+ "?" +:+ dquote +:+ " }.join(" +:+ dquote +:+ ", " +:+ dquote
  +:+ ")".

Definition markerSubstitution (name : string) : string :=
  "sql = sql.gsub(" +:+ dquote +:+ marker name +:+ dquote
  +:+ ", placeholders_" +:+ name +:+ ")".

Definition expansionBlock (name : string) : string :=
  newline +:+ "      # Expand array parameter " +:+ name +:+ " for MySQL/SQLite"
  +:+ newline +:+ "      " +:+ emptyGuard name
  +:+ newline +:+ "      " +:+ placeholdersAssignment name
  +:+ newline +:+ "      " +:+ markerSubstitution name.

(** The parameter is a [sqlc.slice] parameter. *)
Definition isSliceParameter (param : QueryParameter) : bool :=
  Column_IsSqlcSlice (Parameter_Column param).

(** The queries [extractTableName] assigns to a table, in the order of
    the request. *)
Definition queriesOf (tableName : string) (queries : list Query) : list Query :=
  List.filter (fun q => String.eqb (extractTableName q) tableName) queries.

(** The repository file of a table of the request. *)
Definition repositoryOf (g : Generator) (tableName : string) : File :=
  generateRepositoryForTable g tableName
    (List.map (buildCrystalQuery g)
              (queriesOf tableName (Request_Queries (req g)))).

(** [a] is sorted before [b] by its name, strictly. *)
Definition nameBefore (a b : crystalStruct) : Prop :=
  String.ltb (Struct_Name a) (Struct_Name b) = true.

(** No byte of [s] is the byte [x]. *)
Definition without (x : ascii) (s : string) : bool :=
  allBytes (fun c => negb (Ascii.eqb c x)) s.

(** The byte is an ASCII byte. *)
Definition isAsciiByte (c : ascii) : bool := Nat.ltb (code c) 128.

(** The first byte of [s], if there is one, is an ASCII byte. *)
Definition startsAscii (s : string) : bool :=
  match s with
  | EmptyString => true
  | String c _ => isAsciiByte c
  end.

(** What a first byte is after [strings.ToUpper(string(b))]: an ASCII byte
    that is no lower-case letter, or the lead byte of a two-byte UTF-8
    sequence. *)
Definition upperHead (c : ascii) : bool :=
  (isAsciiByte c && negb (isLower c)) || Nat.leb 194 (code c).

Definition startsUpper (s : string) : bool :=
  match s with
  | EmptyString => true
  | String c _ => upperHead c
  end.

(** The body of the loop of [generateRepositories] that groups the
    queries. *)
Definition groupStep (g : Generator)
    (tableQueries : gmap string (list crystalQuery)) (q : Query)
    : gmap string (list crystalQuery) :=
  if negb (String.eqb (extractTableName q) "")
  then <[extractTableName q :=
           (default [] (tableQueries !! extractTableName q)
            ++ [buildCrystalQuery g q])%list]> tableQueries
  else tableQueries.

(** The last table of [tables] whose struct has the name [name]. *)
Definition lastNamed (name : string) (tables : list Table) : option Table :=
  fold_left (fun found t =>
               if String.eqb (tableStructName t) name then Some t else found)
            tables None.

(** The second pass passes the query over. *)
Definition passedOver (query : Query) : bool :=
  Nat.eqb (List.length (Query_Columns query)) 0 || skipsCmd (Query_Cmd query).

Module SampleMore.

(** A catalog with a table of PostgreSQL's own beside a table of the
    application. *)
Definition systemTable : Table :=
  Sample.table "pg_stat_activity" SampleRegistry.nameColumns.

Definition mixedCatalog : Catalog :=
  Sample.publicSchema [systemTable; SampleRegistry.authors].

Definition mixedGenerator : Generator :=
  Sample.postgres (Some mixedCatalog) [].

(** Two parameters in the order of the statement, the first nullable. *)
Definition bioThenId : Query :=
  Sample.query "UpdateBio" ":exec"
    "UPDATE authors SET bio = $1 WHERE id = $2"
    [ Sample.param 1 (Sample.column "bio" "text" false);
      Sample.param 2 (Sample.column "id" "int8" true) ]
    [].

(** Two required parameters. *)
Definition nameThenId : Query :=
  Sample.query "RenameAuthor" ":exec"
    "UPDATE authors SET name = $1 WHERE id = $2"
    [ Sample.param 1 (Sample.column "name" "text" true);
      Sample.param 2 (Sample.column "id" "int8" true) ]
    [].

(** A slice query run for its result handle. *)
Definition deleteByIds : Query :=
  Sample.query "DeleteByIds" ":execresult"
    "DELETE FROM authors WHERE id IN (/*SLICE:ids*/?)"
    [ Sample.param 1 (Sample.sliceColumn "ids" "int" true) ]
    [].

(** Two tables whose names have one singular. *)
Definition author : Table :=
  Sample.table "author" [Sample.column "id" "int4" true].

Definition twoAuthorTables : Generator :=
  Sample.postgres (Some (Sample.publicSchema [author; SampleRegistry.authors]))
                  [bioThenId].

Definition selectOne : Query :=
  Sample.query "Ping" ":one" "SELECT 1" [] [Sample.column "one" "int4" true].

End SampleMore.
(* ===================================================================== *)
(** * Strings and lists: auxiliary facts *)
(* ===================================================================== *)

Section StringFacts.

(** stdpp keeps [simpl] from unfolding [String.append]; these two
    equations unfold it. *)
Lemma append_nil (b : string) : "" +:+ b = b.
Proof. reflexivity. Qed.

Lemma append_cons (x : ascii) (a b : string) :
  String x a +:+ b = String x (a +:+ b).
Proof. reflexivity. Qed.

Lemma append_assoc (a b c : string) : (a +:+ b) +:+ c = a +:+ (b +:+ c).
Proof.
  induction a as [|x a IH]; [reflexivity|].
  now rewrite !append_cons, IH.
Qed.

Lemma append_empty_r (a : string) : a +:+ "" = a.
Proof.
  induction a as [|x a IH]; [reflexivity|]. now rewrite append_cons, IH.
Qed.

Lemma append_nonempty_l (a b : string) : a <> "" -> a +:+ b <> "".
Proof. destruct a; [congruence | rewrite append_cons; discriminate]. Qed.

Lemma append_nonempty_r (a b : string) : b <> "" -> a +:+ b <> "".
Proof. destruct a; [tauto | rewrite append_cons; discriminate]. Qed.

Lemma length_append (a b : string) :
  String.length (a +:+ b) = String.length a + String.length b.
Proof.
  induction a as [|x a IH]; [reflexivity|].
  rewrite append_cons. simpl. now rewrite IH.
Qed.

Lemma oneOf_In (s : string) (names : list string) :
  oneOf s names = true <-> In s names.
Proof.
  unfold oneOf. rewrite existsb_exists. split.
  - intros [x [Hin Heq]]. apply String.eqb_eq in Heq. now subst.
  - intros Hin. exists s. split; [assumption | apply String.eqb_refl].
Qed.

(** A case whose names all belong to a list that does not hold [s] does
    not fire. *)
Lemma oneOf_sub (s : string) (small big : list string) :
  forallb (fun x => oneOf x big) small = true ->
  oneOf s big = false -> oneOf s small = false.
Proof.
  intros Hsub Hbig. destruct (oneOf s small) eqn:Hs; [|reflexivity].
  apply oneOf_In in Hs. rewrite forallb_forall in Hsub.
  apply Hsub in Hs. congruence.
Qed.

Lemma occursIn_refl (x : string) : occursIn x x.
Proof. exists "", "". now rewrite append_nil, append_empty_r. Qed.

Lemma occursIn_append_l (x a b : string) : occursIn x a -> occursIn x (a +:+ b).
Proof.
  intros [pre [post ->]]. exists pre, (post +:+ b).
  now rewrite !append_assoc.
Qed.

Lemma occursIn_append_r (x a b : string) : occursIn x b -> occursIn x (a +:+ b).
Proof.
  intros [pre [post ->]]. exists (a +:+ pre), post.
  now rewrite !append_assoc.
Qed.

Lemma occursIn_concat (x : string) (parts : list string) (part : string) :
  In part parts -> occursIn x part -> occursIn x (String.concat "" parts).
Proof.
  intros Hin Hx. induction parts as [|p parts IH]; [destruct Hin|].
  assert (Hc : String.concat "" (p :: parts) = p +:+ String.concat "" parts).
  { destruct parts; simpl; [now rewrite append_empty_r | reflexivity]. }
  rewrite Hc. destruct Hin as [-> | Hin].
  - now apply occursIn_append_l.
  - apply occursIn_append_r. now apply IH.
Qed.

End StringFacts.

(* ===================================================================== *)
(** * The tests of the repository, on the embedding *)
(* ===================================================================== *)

(** [TestToSnakeCase], and the method name of [examples/mysql-arrays]. *)
Example test_toSnakeCase :
  List.map toSnakeCase
    [ "GetAuthor"; "ListAuthors"; "HTTPRequest"; "XMLParser"; "IOError";
      "get_author"; "GetAuthorByID"; "ID"; ""; "ListAuthorsByIDs" ]
  = [ "get_author"; "list_authors"; "http_request"; "xml_parser"; "io_error";
      "get_author"; "get_author_by_id"; "id"; ""; "list_authors_by_i_ds" ].
Proof. vm_compute. reflexivity. Qed.

(** [TestToPascalCase] *)
Example test_toPascalCase :
  List.map toPascalCase
    [ "get_author"; "http_request"; "get_author_by_id"; "id"; "ID";
      "GetAuthor"; "get-author"; "get author"; "" ]
  = [ "GetAuthor"; "HttpRequest"; "GetAuthorById"; "Id"; "ID";
      "GetAuthor"; "GetAuthor"; "GetAuthor"; "" ].
Proof. vm_compute. reflexivity. Qed.

(** [TestToConstantCase] *)
Example test_toConstantCase :
  List.map toConstantCase ["GetAuthor"; "HTTPRequest"; "get_author"; "GetAuthorByID"]
  = ["GET_AUTHOR"; "HTTP_REQUEST"; "GET_AUTHOR"; "GET_AUTHOR_BY_ID"].
Proof. vm_compute. reflexivity. Qed.

(** [TestSingularize] *)
Example test_singularize :
  List.map singularize
    [ "books"; "authors"; "companies"; "cities"; "boxes"; "classes";
      "processes"; "dishes"; "churches"; "knives"; "lives"; "children";
      "people"; "men"; "women"; "feet"; "teeth"; "geese"; "mice"; "book";
      "person"; ""; "a"; "data" ]
  = [ "book"; "author"; "company"; "city"; "box"; "class";
      "process"; "dish"; "church"; "knife"; "life"; "child";
      "person"; "man"; "woman"; "foot"; "tooth"; "goose"; "mouse"; "book";
      "person"; ""; "a"; "data" ].
Proof. vm_compute. reflexivity. Qed.

(** [TestPostgresTypeMapping], [TestMySQLTypeMapping],
    [TestSQLiteTypeMapping], in part. *)
Example test_type_mappings :
  List.map postgresType ["int8"; "serial"; "numeric"; "float4"; "timestamptz";
                         "interval"; "jsonb"; "bytea"; "unknown_type"]
  = ["Int64"; "Int32"; "Float64"; "Float32"; "Time"; "Time::Span";
     "JSON::Any"; "Bytes"; "String"]
  /\ List.map mysqlType ["tinyint"; "mediumint"; "real"; "bit"; "time"; "year";
                         "longblob"; "set"; "unknown_type"]
     = ["Int8"; "Int32"; "Float64"; "Bool"; "Time::Span"; "Int32"; "Bytes";
        "String"; "String"]
  /\ List.map sqliteType ["integer"; "int2"; "double precision"; "clob"; "blob";
                          "decimal"; "bool"; "datetime"; "unknown_type"]
     = ["Int64"; "Int64"; "Float64"; "String"; "Bytes"; "Float64"; "Bool";
        "Time"; "String"].
Proof. repeat split; vm_compute; reflexivity. Qed.

(** [TestCrystalTypeWithNullability] *)
Example test_crystalType :
  List.map (crystalType (Sample.postgres None []))
    [ Sample.column "n" "int4" true; Sample.column "n" "int4" false;
      Sample.arrayColumn "n" "int4" true; Sample.column "n" "text" false ]
  = ["Int32"; "Int32?"; "Array(Int32)"; "String?"].
Proof. vm_compute. reflexivity. Qed.

(** [TestParamListFunction] and [TestParamNamesFunction] *)
Example test_paramList_paramNames :
  let params :=
    [ {| Param_Name := "age"; Param_Type := "Int32"; Param_Position := 3 |};
      {| Param_Name := "name"; Param_Type := "String"; Param_Position := 1 |};
      {| Param_Name := "bio"; Param_Type := "String?"; Param_Position := 2 |} ] in
  paramList params = "age : Int32, name : String, bio : String? = nil"
  /\ paramNames params = "name, bio, age"
  /\ paramList [] = "" /\ paramNames [] = "".
Proof. repeat split; vm_compute; reflexivity. Qed.

(** [TestParameterOrdering]: the method written for [CreateBook]. *)
Example test_parameter_ordering :
  let g := Sample.postgres None [SampleSignature.createBook] in
  renderMethod (queriesData g) (buildQuery g SampleSignature.createBook)
  = newline +:+ "    def create_book(author_id : Int32, title : String, price : Float64, description : String? = nil, isbn : String? = nil, published : Time? = nil) : CreateBookRow?"
    +:+ newline +:+ "      @db.query_one?("
    +:+ newline +:+ "        SQL_1_QUERIES[:CREATE_BOOK],"
    +:+ newline +:+ "        author_id, title, description, price, isbn, published,"
    +:+ newline +:+ "        as: CreateBookRow"
    +:+ newline +:+ "      )"
    +:+ newline +:+ "    end".
Proof. vm_compute. reflexivity. Qed.

(* ===================================================================== *)
(** * TypeMapper: totality, fallbacks, nullability and arrays *)
(* ===================================================================== *)

Section TypeMapper.

Ltac chain :=
  repeat match goal with
         | |- In (if ?b then _ else _) _ => destruct b
         end;
  simpl; tauto.

Lemma postgresType_values (s : string) : In (postgresType s) baseTypes.
Proof. unfold postgresType, baseTypes. chain. Qed.

Lemma mysqlType_values (s : string) : In (mysqlType s) baseTypes.
Proof. unfold mysqlType, baseTypes. chain. Qed.

Lemma sqliteType_values (s : string) : In (sqliteType s) baseTypes.
Proof. unfold sqliteType, baseTypes. cbv zeta. chain. Qed.

Lemma baseType_values (g : Generator) (col : Column) :
  In (baseType g col) baseTypes.
Proof.
  unfold baseType. cbv zeta.
  repeat match goal with
         | |- In (if ?b then _ else _) _ => destruct b
         end;
    auto using postgresType_values, mysqlType_values, sqliteType_values.
Qed.

Lemma baseType_nonempty (g : Generator) (col : Column) : baseType g col <> "".
Proof.
  pose proof (baseType_values g col) as H. unfold baseTypes in H. simpl in H.
  intros E. rewrite E in H.
  repeat (destruct H as [H | H]; [discriminate H|]). exact H.
Qed.

Lemma postgresType_fallback (s : string) :
  oneOf s postgresNames = false -> postgresType s = "String".
Proof.
  intros H. unfold postgresType.
  repeat match goal with
         | |- context [oneOf s ?l] =>
             rewrite (oneOf_sub s l postgresNames eq_refl H)
         end.
  reflexivity.
Qed.

Lemma mysqlType_fallback (s : string) :
  oneOf s mysqlNames = false -> mysqlType s = "String".
Proof.
  intros H. unfold mysqlType.
  repeat match goal with
         | |- context [oneOf s ?l] =>
             rewrite (oneOf_sub s l mysqlNames eq_refl H)
         end.
  reflexivity.
Qed.

Lemma sqliteType_fallback (s : string) :
  sqliteRecognizes s = false -> sqliteType s = "String".
Proof.
  unfold sqliteRecognizes, sqliteType. cbv zeta. intros H.
  do 6 (apply orb_false_elim in H; destruct H as [H ?]).
  repeat match goal with
         | E : ?b = false |- context [if ?b then _ else _] => rewrite E
         end.
  reflexivity.
Qed.

Lemma baseType_rawTypeName (g : Generator) (col : Column) :
  baseType g col =
    if String.eqb (engine g) "postgresql" then postgresType (rawTypeName col)
    else if String.eqb (engine g) "mysql" then mysqlType (rawTypeName col)
    else if String.eqb (engine g) "sqlite" then sqliteType (rawTypeName col)
    else postgresType (rawTypeName col).
Proof. reflexivity. Qed.

(** C4.  The type mapping is total and never yields the empty string: for
    every dialect selector, raw type name, nullable flag and array flag
    [crystalType] (and [baseType]) returns a non-empty type string; a raw
    type name the selected table has no case for resolves to [String]; a
    selector other than postgresql, mysql and sqlite is resolved with the
    postgres table. *)
Theorem type_mapping_total (g : Generator) (col : Column) :
  crystalType g col <> ""
  /\ baseType g col <> ""
  /\ (recognizes (engine g) (rawTypeName col) = false ->
      baseType g col = "String")
  /\ (supportedEngine (engine g) = false ->
      baseType g col = postgresType (rawTypeName col)).
Proof.
  pose proof (baseType_nonempty g col) as Hbase.
  split; [|split; [exact Hbase|split]].
  - unfold crystalType. cbv zeta.
    destruct (Column_IsArray col), (Column_NotNull col); simpl;
      try destruct (EmitResultStructPointers (options g));
      try (apply append_nonempty_l); try exact Hbase; discriminate.
  - rewrite baseType_rawTypeName. unfold recognizes.
    destruct (String.eqb (engine g) "postgresql") eqn:Epg.
    + apply String.eqb_eq in Epg. rewrite Epg. simpl.
      apply postgresType_fallback.
    + destruct (String.eqb (engine g) "mysql"); [apply mysqlType_fallback|].
      destruct (String.eqb (engine g) "sqlite");
        [apply sqliteType_fallback | apply postgresType_fallback].
  - rewrite baseType_rawTypeName. unfold supportedEngine, oneOf. simpl.
    intros H. repeat (apply orb_false_elim in H; destruct H as [? H]).
    repeat match goal with
           | E : ?b = false |- context [if ?b then _ else _] => rewrite E
           end.
    reflexivity.
Qed.

End TypeMapper.

(** The theorem at a selector and a raw type no table knows. *)
Lemma type_mapping_total_witness :
  crystalType Sample.oracleGenerator Sample.geographyColumn = "String?"
  /\ baseType Sample.oracleGenerator Sample.geographyColumn = "String"
  /\ baseType Sample.oracleGenerator Sample.geographyColumn
     = postgresType "geography".
Proof.
  destruct (type_mapping_total Sample.oracleGenerator Sample.geographyColumn)
    as [_ [_ [Hunknown Hengine]]].
  split; [reflexivity|].
  split; [apply Hunknown; reflexivity | apply Hengine; reflexivity].
Defined.

Section Nullability.

(** C5.  A column that is not array-flagged and is nullable has the base
    type with the optional marker behind it, [?], or [*] under
    [EmitResultStructPointers]; an array-flagged column has
    [Array(base type)] and no marker behind it, nullable or not. *)
Theorem nullable_and_array_types (g : Generator) (col : Column) :
  (Column_IsArray col = false -> Column_NotNull col = false ->
   crystalType g col
   = baseType g col
     +:+ (if EmitResultStructPointers (options g) then "*" else "?"))
  /\ (Column_IsArray col = true ->
      crystalType g col = "Array(" +:+ baseType g col +:+ ")").
Proof.
  unfold crystalType. cbv zeta. split.
  - intros -> ->. simpl.
    now destruct (EmitResultStructPointers (options g)).
  - intros ->. now rewrite andb_false_r.
Qed.

End Nullability.

(** The theorem at a nullable [int4] and at a nullable [int4] array. *)
Lemma nullable_and_array_types_witness :
  crystalType (Sample.postgres None []) (Sample.column "age" "int4" false)
  = "Int32?"
  /\ crystalType (Sample.postgres None []) (Sample.arrayColumn "ages" "int4" false)
     = "Array(Int32)".
Proof.
  split.
  - apply (proj1 (nullable_and_array_types (Sample.postgres None [])
                    (Sample.column "age" "int4" false)));
      reflexivity.
  - apply (proj2 (nullable_and_array_types (Sample.postgres None [])
                    (Sample.arrayColumn "ages" "int4" false)));
      reflexivity.
Defined.

(* ===================================================================== *)
(** * Options: storage-field tags by default *)
(* ===================================================================== *)

Section Defaults.

Lemma renderField_dbAnnotation (data : templateData) (f : crystalField) :
  Data_EmitDBTags data = true -> Field_DBName f <> Field_Name f ->
  occursIn (dbAnnotation f) (renderField data f).
Proof.
  intros Htags Hne. apply String.eqb_neq in Hne.
  unfold renderField. rewrite Htags, Hne. simpl negb. simpl andb.
  apply occursIn_append_r, occursIn_append_l.
  exists (newline +:+ "    "), "". unfold dbAnnotation.
  now rewrite append_empty_r, !append_assoc.
Qed.

Lemma renderStruct_dbAnnotation (data : templateData) (cs : crystalStruct)
    (f : crystalField) :
  Data_EmitDBTags data = true -> In f (Struct_Fields cs) ->
  Field_DBName f <> Field_Name f ->
  occursIn (dbAnnotation f) (renderStruct data cs).
Proof.
  intros Htags Hin Hne. unfold renderStruct.
  do 6 apply occursIn_append_r.
  apply occursIn_append_l.
  apply occursIn_concat with (part := renderField data f).
  - now apply in_map.
  - now apply renderField_dbAnnotation.
Qed.

Lemma executeModels_dbAnnotation (data : templateData) (cs : crystalStruct)
    (f : crystalField) :
  Data_EmitDBTags data = true -> In cs (Data_Structs data) ->
  In f (Struct_Fields cs) -> Field_DBName f <> Field_Name f ->
  occursIn (dbAnnotation f) (executeModels data).
Proof.
  intros Htags Hcs Hin Hne. unfold executeModels.
  do 2 apply occursIn_append_r. apply occursIn_append_l.
  apply occursIn_concat with (part := renderStruct data cs).
  - now apply in_map.
  - now apply renderStruct_dbAnnotation.
Qed.

(** C10.  When the options payload sets neither [emit_json_tags] nor
    [emit_db_tags] (both decode to false), the generator is created with
    [EmitDBTags] true: it is the generator of the same payload with
    [emit_db_tags] set, and in the models file every field whose Crystal
    name differs from its column name carries the [DB::Field] key
    annotation. *)
Theorem db_tags_by_default (raw : PluginOptions) (o : Options) :
  parseOptions raw = Some o ->
  Opt_EmitJSONTags o = false -> Opt_EmitDBTags o = false ->
  EmitDBTags (generatorOptions o) = true
  /\ (forall template orders repoOrder request,
        generate template orders repoOrder raw request
        = Some (Generate template orders repoOrder
                  (newGenerator request (withDBTags o))))
  /\ (forall orders request file cs f,
        fst (generateModels orders (newGenerator request o)) = Some file ->
        In cs (structList (buildModels orders (newGenerator request o))) ->
        In f (Struct_Fields cs) ->
        Field_DBName f <> Field_Name f ->
        occursIn (dbAnnotation f) (File_Contents file)).
Proof.
  intros Hparse Hjson Hdb.
  assert (Hon : EmitDBTags (generatorOptions o) = true).
  { unfold generatorOptions. simpl. now rewrite Hjson, Hdb. }
  assert (Hsame : generatorOptions o = generatorOptions (withDBTags o)).
  { unfold generatorOptions, withDBTags. simpl. now rewrite Hjson, Hdb. }
  split; [exact Hon|]. split.
  - intros template orders repoOrder request.
    unfold generate. rewrite Hparse. unfold newGenerator.
    now rewrite Hsame.
  - intros orders request file cs f Hfile Hcs Hf Hne.
    unfold generateModels in Hfile. cbv zeta in Hfile. simpl fst in Hfile.
    destruct (Nat.eqb _ 0); [discriminate|].
    injection Hfile as <-. simpl File_Contents.
    apply executeModels_dbAnnotation with (cs := cs);
      first [assumption | exact Hon].
Qed.

End Defaults.

(** The theorem at a request whose options payload is empty: the column
    [createdAt] of table [events] gets its key annotation. *)
Lemma db_tags_by_default_witness :
  occursIn (dbAnnotation SampleTags.createdAtField) SampleTags.eventsModels
  /\ generate (fun _ => "") (fun _ => Sample.inOrder) Sample.inOrder
       NoBytes SampleTags.eventsRequest
     = Some [ {| File_Name := "models.cr";
                 File_Contents := SampleTags.eventsModels |} ].
Proof.
  destruct (db_tags_by_default NoBytes zeroOptions eq_refl eq_refl eq_refl)
    as [_ [Hgen Hfield]].
  split.
  - apply (Hfield (fun _ => Sample.inOrder) SampleTags.eventsRequest
             {| File_Name := "models.cr";
                File_Contents := SampleTags.eventsModels |}
             SampleTags.eventStruct SampleTags.createdAtField).
    + vm_compute. reflexivity.
    + vm_compute. left. reflexivity.
    + left. reflexivity.
    + discriminate.
  - rewrite Hgen. vm_compute. reflexivity.
Defined.

(* ===================================================================== *)
(** * sort.SliceStable *)
(* ===================================================================== *)

Section StableSortFacts.

Context {A : Type} (less : A -> A -> bool).

Hypothesis less_asym : forall a b, less a b = true -> less b a = false.
Hypothesis less_negtrans :
  forall a b c, less a b = false -> less b c = false -> less a c = false.

Lemma insertStable_perm (x : A) (l : list A) :
  Permutation (insertStable less x l) (x :: l).
Proof.
  induction l as [|y l IH]; simpl; [reflexivity|].
  destruct (less y x); [|reflexivity].
  rewrite IH. apply perm_swap.
Qed.

Lemma SliceStable_perm (l : list A) : Permutation (SliceStable less l) l.
Proof.
  induction l as [|x l IH]; simpl; [reflexivity|].
  rewrite insertStable_perm. now constructor.
Qed.

Lemma insertStable_sorted (x : A) (l : list A) :
  StronglySorted (notAfter less) l ->
  StronglySorted (notAfter less) (insertStable less x l).
Proof.
  induction 1 as [|y l Hsorted IH Hall]; simpl.
  - constructor; constructor.
  - destruct (less y x) eqn:Hyx.
    + constructor; [exact IH|].
      apply List.Forall_forall. intros z Hz.
      apply (Permutation_in _ (insertStable_perm x l)) in Hz.
      destruct Hz as [<- | Hz].
      * now apply less_asym.
      * rewrite List.Forall_forall in Hall. now apply Hall.
    + constructor; [now constructor|].
      constructor; [exact Hyx|].
      apply List.Forall_forall. intros z Hz. rewrite List.Forall_forall in Hall.
      unfold notAfter. apply less_negtrans with (b := y); [|exact Hyx].
      now apply Hall.
Qed.

Lemma SliceStable_sorted (l : list A) :
  StronglySorted (notAfter less) (SliceStable less l).
Proof.
  induction l as [|x l IH]; simpl; [constructor|].
  now apply insertStable_sorted.
Qed.

End StableSortFacts.

(* ===================================================================== *)
(** * QueryModelBuilder: the call signature *)
(* ===================================================================== *)

Section Signature.

Lemma requiredFirst_asym (a b : crystalParam) :
  requiredFirst a b = true -> requiredFirst b a = false.
Proof.
  unfold requiredFirst.
  destruct (isOptional a), (isOptional b); cbn [Bool.eqb negb];
    try congruence; rewrite Z.ltb_lt, Z.ltb_ge; lia.
Qed.

Lemma requiredFirst_negtrans (a b c : crystalParam) :
  requiredFirst a b = false -> requiredFirst b c = false ->
  requiredFirst a c = false.
Proof.
  unfold requiredFirst.
  destruct (isOptional a), (isOptional b), (isOptional c);
    cbn [Bool.eqb negb]; try congruence; rewrite !Z.ltb_ge; lia.
Qed.

Lemma byPosition_asym (a b : crystalParam) :
  byPosition a b = true -> byPosition b a = false.
Proof. unfold byPosition. rewrite Z.ltb_lt, Z.ltb_ge. lia. Qed.

Lemma byPosition_negtrans (a b c : crystalParam) :
  byPosition a b = false -> byPosition b c = false -> byPosition a c = false.
Proof. unfold byPosition. rewrite !Z.ltb_ge. lia. Qed.

Lemma notAfter_signatureOrder (a b : crystalParam) :
  notAfter requiredFirst a b -> signatureOrder a b.
Proof.
  unfold notAfter, requiredFirst, signatureOrder.
  destruct (isOptional a), (isOptional b); cbn [Bool.eqb negb];
    try congruence; try rewrite Z.ltb_ge; intros; (split; [congruence | lia]).
Qed.

Lemma StronglySorted_weaken {A : Type} (R S : A -> A -> Prop) (l : list A) :
  (forall a b, R a b -> S a b) -> StronglySorted R l -> StronglySorted S l.
Proof.
  intros HRS. induction 1 as [|a l Hl IH Hall]; constructor; [exact IH|].
  eapply List.Forall_impl; [|exact Hall]. intros b. apply HRS.
Qed.

Lemma signature_sorted (params : list crystalParam) :
  StronglySorted signatureOrder (SliceStable requiredFirst params).
Proof.
  apply StronglySorted_weaken with (R := notAfter requiredFirst).
  - apply notAfter_signatureOrder.
  - apply SliceStable_sorted.
    + apply requiredFirst_asym.
    + apply requiredFirst_negtrans.
Qed.

(** A sorted signature is its required parameters followed by its
    defaulted ones. *)
Lemma signature_split (params : list crystalParam) :
  StronglySorted signatureOrder params ->
  params = (List.filter isRequired params ++ List.filter isOptional params)%list.
Proof.
  induction 1 as [|a l Hl IH Hall]; [reflexivity|].
  simpl. unfold isRequired at 1. destruct (isOptional a) eqn:Ha; simpl.
  - assert (Hnone : List.filter isRequired l = []).
    { clear IH Hl. induction l as [|b l IHl]; [reflexivity|].
      inversion Hall as [|? ? Hab Hall']; subst. simpl.
      unfold isRequired at 1. destruct Hab as [Hab _].
      rewrite (Hab Ha). simpl. now apply IHl. }
    rewrite Hnone in *. simpl in *. now rewrite <- IH.
  - now rewrite <- IH.
Qed.

Lemma dropBytes_append (a b : string) :
  dropBytes (String.length a) (a +:+ b) = b.
Proof.
  induction a as [|x a IH]; [now destruct b|].
  rewrite append_cons. simpl. exact IH.
Qed.

Lemma HasSuffix_last (s : string) (c d : ascii) :
  HasSuffix (s +:+ char c) (char d) = Ascii.eqb c d.
Proof.
  unfold HasSuffix. rewrite length_append. simpl String.length.
  replace (String.length s + 1 - 1) with (String.length s) by lia.
  rewrite dropBytes_append.
  replace (Nat.leb 1 (String.length s + 1)) with true
    by (symmetry; apply Nat.leb_le; lia).
  unfold char. simpl. now destruct (Ascii.eqb c d).
Qed.

Lemma baseType_not_optional (g : Generator) (col : Column) :
  HasSuffix (baseType g col) "?" = false.
Proof.
  pose proof (baseType_values g col) as H. unfold baseTypes in H. simpl in H.
  repeat (destruct H as [<- | H]; [reflexivity|]). destruct H.
Qed.

(** The type of a parameter ends in [?] exactly when its column is
    nullable, is no array, is no slice, and pointers are not asked for. *)
Lemma isOptional_buildParam (g : Generator) (param : QueryParameter) :
  isOptional (buildParam g param)
  = negb (Column_NotNull (Parameter_Column param))
    && negb (Column_IsArray (Parameter_Column param))
    && negb (Column_IsSqlcSlice (Parameter_Column param))
    && negb (EmitResultStructPointers (options g)).
Proof.
  unfold isOptional, buildParam, crystalType. cbv zeta. simpl Param_Type.
  set (col := Parameter_Column param).
  pose proof (baseType_not_optional g col) as Hbase.
  assert (Harray : HasSuffix ("Array(" +:+ baseType g col +:+ ")") "?" = false).
  { rewrite <- append_assoc. apply (HasSuffix_last _ ")" "?"). }
  destruct (Column_IsSqlcSlice col), (Column_IsArray col),
    (Column_NotNull col), (EmitResultStructPointers (options g));
    cbn [negb andb];
    first [ exact Harray | exact Hbase
          | apply (HasSuffix_last _ "*" "?")
          | apply (HasSuffix_last _ "?" "?") ].
Qed.

Lemma paramList_decls (params : list crystalParam) :
  paramList params = Join (List.map paramDecl params) ", ".
Proof. now destruct params. Qed.

(** C6, as the code has it.  The call signature of every query lists the
    parameters whose type does not end in [?] before those whose type does,
    either group by ascending bind position; the parameters of the second
    group, and no others, are declared with [= nil].  The type of a
    parameter ends in [?] exactly when its column is nullable, is not
    array-flagged, is no [sqlc.slice] parameter, and pointer emission is
    off. *)
Theorem signature_required_first (g : Generator) (query : Query) :
  let params := CQ_Params (buildQuery g query) in
  Permutation params (List.map (buildParam g) (Query_Params query))
  /\ StronglySorted signatureOrder params
  /\ params = (List.filter isRequired params ++ List.filter isOptional params)%list
  /\ paramList params = Join (List.map paramDecl params) ", "
  /\ (forall p, paramDecl p
                = if isOptional p
                  then Param_Name p +:+ " : " +:+ Param_Type p +:+ " = nil"
                  else Param_Name p +:+ " : " +:+ Param_Type p)
  /\ (forall param,
        isOptional (buildParam g param)
        = negb (Column_NotNull (Parameter_Column param))
          && negb (Column_IsArray (Parameter_Column param))
          && negb (Column_IsSqlcSlice (Parameter_Column param))
          && negb (EmitResultStructPointers (options g))).
Proof.
  simpl.
  split; [apply SliceStable_perm|].
  split; [apply signature_sorted|].
  split; [apply signature_split, signature_sorted|].
  split; [apply paramList_decls|].
  split; [reflexivity | apply isOptional_buildParam].
Qed.

End Signature.

(** C6 as stated fails: the nullable array parameter [tags] is written
    first and without a default, where the claim has it behind [title] and
    with [= nil]. *)
Lemma nullable_array_parameter_is_required :
  paramList (CQ_Params (buildQuery (Sample.postgres None []) SampleSignature.retag))
  = "tags : Array(String), title : String"
  /\ claimedSignature (Sample.postgres None []) SampleSignature.retag
     = "title : String, tags : Array(String) = nil"
  /\ paramList (CQ_Params (buildQuery (Sample.postgres None []) SampleSignature.retag))
     <> claimedSignature (Sample.postgres None []) SampleSignature.retag.
Proof.
  split; [vm_compute; reflexivity|].
  split; [vm_compute; reflexivity|].
  vm_compute. discriminate.
Qed.

(* ===================================================================== *)
(** * StructRegistry: the two passes of generateModels *)
(* ===================================================================== *)

Section Registry.

Variable orders : nat -> rangeOrder.
Variable g : Generator.

(** ** The first pass *)

Lemma addTable_modelled (st : modelsState) (t : Table) :
  addTable g st t = if modelled g t then registerTable g st t else st.
Proof.
  unfold addTable, modelled, registerTable, tableSignature.
  destruct (isSystemTable t); [reflexivity|]. cbv zeta. simpl negb. simpl andb.
  reflexivity.
Qed.

Lemma fold_addTable (tables : list Table) (st : modelsState) :
  fold_left (addTable g) tables st
  = fold_left (registerTable g) (List.filter (modelled g) tables) st.
Proof.
  revert st. induction tables as [|t tables IH]; intros st; [reflexivity|].
  simpl. rewrite addTable_modelled.
  destruct (modelled g t); simpl; apply IH.
Qed.

Lemma tablePass_fold (st : modelsState) :
  tablePass g st = fold_left (registerTable g) (modelledTables g) st.
Proof.
  unfold tablePass, modelledTables.
  revert st. induction (catalogSchemas g) as [|schema schemas IH]; intros st;
    [reflexivity|].
  simpl. rewrite fold_left_app, <- IH. f_equal.
  unfold addSchema. destruct (isSystemSchema schema); [reflexivity|].
  apply fold_addTable.
Qed.

(** After the tables [ts] were registered, a signature maps to the struct
    name of the last table of [ts] that has it, in both signature maps, and
    no table behind that one has it; a signature no table of [ts] has is
    where it was. *)
Lemma registerTables_lookup_last (ts : list Table) (st : modelsState)
    (k : string) :
  let st' := fold_left (registerTable g) ts st in
  (exists t before after,
      ts = (before ++ t :: after)%list
      /\ tableSignature g t = k
      /\ (forall later, In later after -> tableSignature g later <> k)
      /\ fieldSignatures st' !! k = Some (tableStructName t)
      /\ signatures st' !! k = Some (tableStructName t))
  \/ ((forall t, In t ts -> tableSignature g t <> k)
      /\ fieldSignatures st' !! k = fieldSignatures st !! k
      /\ signatures st' !! k = signatures st !! k).
Proof.
  induction ts as [|t ts IH] using rev_ind; cbv zeta in *.
  - right. split; [intros t []|]. split; reflexivity.
  - rewrite fold_left_app. simpl fold_left.
    remember (fold_left (registerTable g) ts st) as st1 eqn:Hst1.
    unfold registerTable, register. simpl fieldSignatures. simpl signatures.
    destruct (decide (tableSignature g t = k)) as [Heq | Hne].
    + left. exists t, ts, []. split; [reflexivity|].
      split; [exact Heq|]. split; [intros later []|].
      rewrite Heq, !lookup_insert_eq. split; reflexivity.
    + rewrite !lookup_insert_ne by exact Hne.
      destruct IH as [[t' [before [after [Hsplit [Hsig [Hlast [Hf Hs]]]]]]]
                     | [Hnone [Hf Hs]]].
      * left. exists t', before, (after ++ [t])%list.
        split; [rewrite Hsplit, <- app_assoc; reflexivity|].
        split; [exact Hsig|]. split; [|now split].
        intros later Hin. apply in_app_or in Hin as [Hin | [<- | []]];
          [now apply Hlast | exact Hne].
      * right. split; [|now split].
        intros t' Hin. apply in_app_or in Hin as [Hin | [<- | []]];
          [now apply Hnone | exact Hne].
Qed.

(** ** The second pass *)

(** What [addQuery] does to the state: nothing, or it registers the struct
    of the query under a signature [fieldSignatures] did not hold. *)
Lemma addQuery_cases (order : rangeOrder) (st : modelsState) (query : Query) :
  addQuery order g st query = st
  \/ (Query_Columns query <> []
      /\ skipsCmd (Query_Cmd query) = false
      /\ fieldSignatures st !! signatureOf (queryFields order g query) = None
      /\ addQuery order g st query
         = register st (signatureOf (queryFields order g query))
                    (queryStruct order g query)).
Proof.
  unfold addQuery.
  destruct (Query_Columns query) as [|col cols] eqn:Hcols; [now left|].
  simpl Nat.eqb. cbv iota.
  destruct (skipsCmd (Query_Cmd query)) eqn:Hskip; [now left|].
  cbv zeta.
  destruct (fieldSignatures st !! signatureOf (queryFields order g query))
    eqn:Hsig; [now left|].
  right. repeat split; congruence.
Qed.

(** A query that returns rows has its signature in [fieldSignatures] once
    [addQuery] has seen it. *)
Lemma addQuery_registers (order : rangeOrder) (st : modelsState) (query : Query) :
  Query_Columns query <> [] -> skipsCmd (Query_Cmd query) = false ->
  is_Some (fieldSignatures (addQuery order g st query)
             !! signatureOf (queryFields order g query)).
Proof.
  intros Hcols Hskip. unfold addQuery.
  destruct (Query_Columns query) as [|col cols]; [congruence|].
  simpl Nat.eqb. cbv iota. rewrite Hskip. cbv zeta.
  destruct (fieldSignatures st !! signatureOf (queryFields order g query))
    eqn:Hsig; [now rewrite Hsig|].
  unfold register. simpl. rewrite lookup_insert_eq. eauto.
Qed.

(** An entry on which both signature maps agree is never overwritten. *)
Lemma addQuery_keeps (order : rangeOrder) (st : modelsState) (query : Query)
    (k v : string) :
  fieldSignatures st !! k = Some v -> signatures st !! k = Some v ->
  fieldSignatures (addQuery order g st query) !! k = Some v
  /\ signatures (addQuery order g st query) !! k = Some v.
Proof.
  intros Hf Hs.
  destruct (addQuery_cases order st query) as [-> | [_ [_ [Hnone ->]]]];
    [now split|].
  assert (Hne : signatureOf (queryFields order g query) <> k) by congruence.
  unfold register. simpl. rewrite !lookup_insert_ne by exact Hne. now split.
Qed.

Lemma queryPass_keeps (queries : list Query) (i : nat) (st : modelsState)
    (k v : string) :
  fieldSignatures st !! k = Some v -> signatures st !! k = Some v ->
  signatures (queryPass orders g i queries st) !! k = Some v.
Proof.
  revert i st. induction queries as [|query queries IH]; intros i st Hf Hs;
    [exact Hs|].
  simpl. destruct (addQuery_keeps (orders i) st query k v Hf Hs) as [Hf' Hs'].
  now apply IH.
Qed.

Lemma register_domIncluded (st : modelsState) (k : string) (cs : crystalStruct) :
  domIncluded st -> domIncluded (register st k cs).
Proof.
  intros Hdom k'. unfold register. simpl.
  destruct (decide (k = k')) as [-> | Hne].
  - rewrite !lookup_insert_eq. eauto.
  - rewrite !lookup_insert_ne by exact Hne. apply Hdom.
Qed.

Lemma tablePass_domIncluded (st : modelsState) :
  domIncluded st -> domIncluded (tablePass g st).
Proof.
  rewrite tablePass_fold. revert st.
  induction (modelledTables g) as [|t ts IH]; intros st Hdom; [exact Hdom|].
  simpl. apply IH. now apply register_domIncluded.
Qed.

Lemma addQuery_domIncluded (order : rangeOrder) (st : modelsState)
    (query : Query) :
  domIncluded st -> domIncluded (addQuery order g st query).
Proof.
  intros Hdom.
  destruct (addQuery_cases order st query) as [-> | [_ [_ [_ ->]]]];
    [exact Hdom | now apply register_domIncluded].
Qed.

Lemma addQuery_mono (order : rangeOrder) (st : modelsState) (query : Query)
    (k : string) :
  is_Some (signatures st !! k) ->
  is_Some (signatures (addQuery order g st query) !! k).
Proof.
  intros Hk.
  destruct (addQuery_cases order st query) as [-> | [_ [_ [_ ->]]]];
    [exact Hk|].
  unfold register. simpl.
  destruct (decide (signatureOf (queryFields order g query) = k)) as [-> | Hne].
  - rewrite lookup_insert_eq. eauto.
  - now rewrite lookup_insert_ne by exact Hne.
Qed.

Lemma queryPass_mono (queries : list Query) (i : nat) (st : modelsState)
    (k : string) :
  is_Some (signatures st !! k) ->
  is_Some (signatures (queryPass orders g i queries st) !! k).
Proof.
  revert i st. induction queries as [|query queries IH]; intros i st Hk;
    [exact Hk|].
  simpl. apply IH. now apply addQuery_mono.
Qed.

Lemma hasEmbeds_fold (cols : list Column) (gr : grouping) :
  hasEmbeds (fold_left groupColumn cols gr)
  = hasEmbeds gr || existsb isEmbed cols.
Proof.
  revert gr. induction cols as [|col cols IH]; intros gr; simpl;
    [now rewrite orb_false_r|].
  rewrite IH. unfold groupColumn, isEmbed.
  destruct (Column_EmbedTable col); simpl.
  - now rewrite orb_true_r.
  - destruct (Column_Table col) as [table|]; [|reflexivity].
    now destruct (negb (String.eqb (Identifier_Name table) "")).
Qed.

Lemma hasEmbeds_noEmbeds (query : Query) :
  hasEmbeds (groupColumns (Query_Columns query)) = negb (noEmbeds query).
Proof.
  unfold groupColumns, noEmbeds. rewrite hasEmbeds_fold. simpl.
  induction (Query_Columns query) as [|col cols IH]; [reflexivity|].
  simpl. rewrite IH. now destruct (isEmbed col).
Qed.

(** Without embed markers the fields are the result columns. *)
Lemma queryFields_noEmbeds (order : rangeOrder) (query : Query) :
  noEmbeds query = true ->
  queryFields order g query = List.map (columnField g) (Query_Columns query).
Proof.
  intros H. unfold queryFields. cbv zeta.
  now rewrite hasEmbeds_noEmbeds, H.
Qed.

(** After the second pass the signature of every row-returning query
    without embed markers is registered. *)
Lemma queryPass_signed (queries : list Query) (i : nat) (st : modelsState)
    (query : Query) :
  domIncluded st -> In query queries ->
  Query_Columns query <> [] -> skipsCmd (Query_Cmd query) = false ->
  noEmbeds query = true ->
  is_Some (signatures (queryPass orders g i queries st) !! querySignature g query).
Proof.
  intros Hdom Hin Hcols Hskip Hplain. revert i st Hdom.
  induction queries as [|q queries IH]; intros i st Hdom; [destruct Hin|].
  simpl. destruct Hin as [-> | Hin].
  - apply queryPass_mono. apply addQuery_domIncluded; [exact Hdom|].
    unfold querySignature.
    rewrite <- (queryFields_noEmbeds (orders i) query Hplain).
    now apply addQuery_registers.
  - apply IH; [exact Hin|]. now apply addQuery_domIncluded.
Qed.

End Registry.

Section Dedup.

Variable orders : nat -> rangeOrder.
Variable g : Generator.

Lemma initial_domIncluded : domIncluded (initialModels g).
Proof. intros k [v Hv]. simpl in Hv. now rewrite lookup_empty in Hv. Qed.

Lemma afterModels_signatures :
  modelsRun g = true ->
  signatureToStruct (afterModels orders g) = signatures (buildModels orders g).
Proof.
  unfold modelsRun, afterModels.
  destruct (Request_Catalog (req g)) as [catalog|]; [|discriminate].
  now intros ->.
Qed.

Lemma afterModels_columnField (col : Column) :
  columnField (afterModels orders g) col = columnField g col.
Proof.
  unfold afterModels.
  destruct (Request_Catalog (req g)) as [catalog|]; [|reflexivity].
  now destruct (Nat.ltb 0 (List.length (Catalog_Schemas catalog))).
Qed.

Lemma afterModels_querySignature (query : Query) :
  querySignature (afterModels orders g) query = querySignature g query.
Proof.
  unfold querySignature. f_equal. apply map_ext. intros col.
  apply afterModels_columnField.
Qed.

Lemma getStructNameForQuery_lookup (g' : Generator) (query : Query) :
  1 < List.length (Query_Columns query) ->
  getStructNameForQuery g' query
  = match signatureToStruct g' !! querySignature g' query with
    | Some structName => structName
    | None => queryStructName query
    end.
Proof.
  intros Hlen. unfold getStructNameForQuery.
  replace (Nat.leb (List.length (Query_Columns query)) 1) with false;
    [reflexivity|].
  symmetry. apply Nat.leb_gt. exact Hlen.
Qed.

(** Equal result shapes give equal fields, hence equal signatures. *)
Lemma resultShape_fields (q1 q2 : Query) :
  resultShape g q1 = resultShape g q2 ->
  List.map (columnField g) (Query_Columns q1)
  = List.map (columnField g) (Query_Columns q2).
Proof.
  unfold resultShape. intros H.
  set (field := fun nt : string * string =>
         {| Field_Name := toSnakeCase (fst nt);
            Field_DBName := fst nt;
            Field_JSONName := if EmitJSONTags (options g) then fst nt else "";
            Field_Type := snd nt |}).
  assert (Hfield : forall cols,
             List.map (columnField g) cols
             = List.map field
                 (List.map (fun col => (Column_Name col, crystalType g col)) cols)).
  { intros cols. rewrite List.map_map. now apply map_ext. }
  now rewrite !Hfield, H.
Qed.

Lemma isRowCmd_not_skipped (cmd : string) :
  isRowCmd cmd = true -> skipsCmd cmd = false.
Proof.
  unfold isRowCmd. intros H. apply orb_true_iff in H.
  destruct H as [H | H]; apply String.eqb_eq in H; now subst.
Qed.

(** C1, as the code has it.  When [Generate] runs the models pass (the
    request has a catalog with a schema), two [:one]/[:many] queries of the
    request without embed markers whose ordered (name, mapped type)
    sequences of result columns are equal are given the same struct name;
    and a query whose field signature is the signature of a table struct
    is given the struct name of the table that is registered last among
    the tables with that signature, the tables being registered before the
    queries. *)
Theorem struct_names_deduplicated :
  modelsRun g = true ->
  (forall q1 q2,
      In q1 (Request_Queries (req g)) -> In q2 (Request_Queries (req g)) ->
      isRowCmd (Query_Cmd q1) = true -> isRowCmd (Query_Cmd q2) = true ->
      noEmbeds q1 = true -> noEmbeds q2 = true ->
      resultShape g q1 = resultShape g q2 ->
      resultStruct (afterModels orders g) q1
      = resultStruct (afterModels orders g) q2)
  /\ (forall query t,
        In t (modelledTables g) ->
        querySignature g query = tableSignature g t ->
        1 < List.length (Query_Columns query) ->
        exists t' before after,
          modelledTables g = (before ++ t' :: after)%list
          /\ tableSignature g t' = tableSignature g t
          /\ (forall later, In later after ->
                            tableSignature g later <> tableSignature g t)
          /\ getStructNameForQuery (afterModels orders g) query
             = tableStructName t').
Proof.
  intros Hrun. split.
  - intros q1 q2 Hin1 Hin2 Hrow1 Hrow2 Hplain1 Hplain2 Hshape.
    assert (Hlen : List.length (Query_Columns q1) = List.length (Query_Columns q2)).
    { apply (f_equal (@List.length _)) in Hshape. unfold resultShape in Hshape.
      now rewrite !List.length_map in Hshape. }
    unfold resultStruct. rewrite Hrow1, Hrow2, <- Hlen.
    destruct (Nat.ltb 1 (List.length (Query_Columns q1))) eqn:Hmany;
      [|reflexivity].
    apply Nat.ltb_lt in Hmany. simpl andb. cbv iota.
    rewrite !getStructNameForQuery_lookup by lia.
    rewrite !afterModels_querySignature, afterModels_signatures by exact Hrun.
    assert (Hsig : querySignature g q1 = querySignature g q2).
    { unfold querySignature. now rewrite (resultShape_fields q1 q2 Hshape). }
    assert (Hsome : is_Some (signatures (buildModels orders g)
                               !! querySignature g q1)).
    { unfold buildModels. apply queryPass_signed; try assumption.
      - apply tablePass_domIncluded. apply initial_domIncluded.
      - intros E. rewrite E in Hmany. simpl in Hmany. lia.
      - now apply isRowCmd_not_skipped. }
    rewrite <- Hsig. destruct Hsome as [name ->]. reflexivity.
  - intros query t Hin Hsig Hlen.
    destruct (registerTables_lookup_last g (modelledTables g) (initialModels g)
                (tableSignature g t))
      as [[t' [before [after [Hsplit [Hsig' [Hlast [Hf Hs]]]]]]] | [Hnone _]].
    + exists t', before, after. split; [exact Hsplit|].
      split; [exact Hsig'|]. split; [exact Hlast|].
      rewrite getStructNameForQuery_lookup by exact Hlen.
      rewrite afterModels_querySignature, afterModels_signatures by exact Hrun.
      rewrite Hsig. unfold buildModels.
      rewrite tablePass_fold.
      now rewrite (queryPass_keeps orders g _ _ _ _ _ Hf Hs).
    + exfalso. now apply (Hnone t Hin).
Qed.

End Dedup.

(** C1 as stated fails: in the request of [TestGenerateQueries], which has
    no catalog, [GetAuthor] and [ListAuthors] return the same columns and
    are given two struct names. *)
Lemma same_shape_two_names :
  let g := afterModels (fun _ => Sample.inOrder) SampleRegistry.withoutCatalog in
  resultShape g SampleRegistry.getAuthor = resultShape g SampleRegistry.listAuthors
  /\ resultStruct g SampleRegistry.getAuthor = "GetAuthorRow"
  /\ resultStruct g SampleRegistry.listAuthors = "ListAuthorsRow"
  /\ resultStruct g SampleRegistry.getAuthor
     <> resultStruct g SampleRegistry.listAuthors.
Proof.
  cbv zeta. split; [reflexivity|].
  split; [vm_compute; reflexivity|].
  split; [vm_compute; reflexivity|].
  vm_compute. discriminate.
Qed.

(** Queries with embed markers are outside the theorem: the models pass
    registers the struct of the first of two queries that embed the same
    tables and reuses it for the second, while [getStructNameForQuery]
    looks the raw columns up, finds nothing, and names a struct after
    either query. *)
Example embed_queries_two_names :
  let g := afterModels (fun _ => Sample.inOrder) SampleEmbed.twoEmbedQueries in
  List.map Struct_Name
    (structList (buildModels (fun _ => Sample.inOrder) SampleEmbed.twoEmbedQueries))
  = ["Author"; "AuthorWithBookRow"]
  /\ resultStruct g SampleEmbed.authorWithBook = "AuthorWithBookRow"
  /\ resultStruct g SampleEmbed.bookWithAuthor = "BookWithAuthorRow".
Proof. cbv zeta. repeat split; vm_compute; reflexivity. Qed.

(** The theorem at a request with the table [authors], where [GetName]
    and [ListNames] share a shape no table has and are given one name, and
    at the catalog of [cats] and [dogs], two tables of one shape: a query
    of that shape is given the name of [dogs], the table registered
    last. *)
Lemma struct_names_deduplicated_witness :
  (let g := afterModels (fun _ => Sample.inOrder) SampleRegistry.withCatalog in
   resultStruct g SampleRegistry.getName = resultStruct g SampleRegistry.listNames)
  /\ getStructNameForQuery
       (afterModels (fun _ => Sample.inOrder) SampleRegistry.petsGenerator)
       SampleRegistry.getName
     = "Dog".
Proof.
  cbv zeta. split.
  - destruct (struct_names_deduplicated (fun _ => Sample.inOrder)
                SampleRegistry.withCatalog eq_refl) as [Hsame _].
    apply Hsame; try reflexivity.
    + right. right. left. reflexivity.
    + right. right. right. left. reflexivity.
  - destruct (struct_names_deduplicated (fun _ => Sample.inOrder)
                SampleRegistry.petsGenerator eq_refl) as [_ Htable].
    destruct (Htable SampleRegistry.getName SampleRegistry.cats)
      as [t' [before [after [Hsplit [_ [Hlast Hname]]]]]].
    + left. reflexivity.
    + reflexivity.
    + simpl. lia.
    + rewrite Hname.
      change (modelledTables SampleRegistry.petsGenerator)
        with [SampleRegistry.cats; SampleRegistry.dogs] in Hsplit.
      destruct before as [|b1 [|b2 before]]; simpl in Hsplit.
      * injection Hsplit as <- <-. exfalso.
        apply (Hlast SampleRegistry.dogs); [now left | reflexivity].
      * injection Hsplit as _ <- _. reflexivity.
      * injection Hsplit as _ _ Hrest. destruct before; discriminate.
Defined.

Section RegistryInvariant.

Variable orders : nat -> rangeOrder.
Variable g : Generator.

Lemma modelledTables_modelled (t : Table) :
  In t (modelledTables g) -> modelled g t = true.
Proof.
  unfold modelledTables. rewrite in_flat_map. intros [schema [_ Hin]].
  destruct (isSystemSchema schema); [destruct Hin|].
  now apply filter_In in Hin.
Qed.

Lemma tableDerived_fields (cs : crystalStruct) :
  tableDerived g cs -> Struct_Fields cs <> [].
Proof.
  intros [t [Hin ->]]. apply modelledTables_modelled in Hin.
  unfold modelled in Hin. apply andb_true_iff in Hin as [_ Hlen].
  apply Nat.ltb_lt in Hlen. intros E. rewrite E in Hlen. simpl in Hlen. lia.
Qed.

Lemma register_fieldSignatures_mono (st : modelsState) (k k' : string)
    (cs : crystalStruct) :
  is_Some (fieldSignatures st !! k') ->
  is_Some (fieldSignatures (register st k cs) !! k').
Proof.
  intros H. unfold register. simpl.
  destruct (decide (k = k')) as [-> | Hne].
  - rewrite lookup_insert_eq. eauto.
  - now rewrite lookup_insert_ne by exact Hne.
Qed.

Lemma registerTables_allFromTables (ts : list Table) (st : modelsState) :
  incl ts (modelledTables g) -> allFromTables g st ->
  allFromTables g (fold_left (registerTable g) ts st).
Proof.
  revert st. induction ts as [|t ts IH]; intros st Hincl Hall; [exact Hall|].
  simpl. apply IH; [intros x Hx; apply Hincl; now right|].
  intros name cs. unfold registerTable at 1. unfold register at 1.
  simpl structs.
  destruct (decide (Struct_Name (tableStruct g t) = name)) as [<- | Hne].
  - rewrite lookup_insert_eq. intros [= <-].
    split; [reflexivity|]. split.
    + unfold registerTable, register, structSignature, tableSignature. simpl.
      rewrite lookup_insert_eq. eauto.
    + exists t. split; [apply Hincl; now left | reflexivity].
  - rewrite lookup_insert_ne by exact Hne. intros Hcs.
    destruct (Hall name cs Hcs) as [Hname [Hsig Htable]].
    split; [exact Hname|]. split; [|exact Htable].
    now apply register_fieldSignatures_mono.
Qed.

Lemma tablePass_inv : registryInv orders g (tablePass g (initialModels g)).
Proof.
  assert (Hall : allFromTables g (tablePass g (initialModels g))).
  { rewrite tablePass_fold. apply registerTables_allFromTables.
    - apply incl_refl.
    - intros name cs H. simpl in H. now rewrite lookup_empty in H. }
  constructor.
  - intros name cs H. now apply (Hall name cs H).
  - intros name cs H. now apply (Hall name cs H).
  - intros name cs H. left. now apply (Hall name cs H).
  - intros n1 n2 cs1 cs2 H1 H2 _ _. split;
      [now apply (Hall n1 cs1 H1) | now apply (Hall n2 cs2 H2)].
Qed.

Lemma addQuery_inv (i : nat) (st : modelsState) (query : Query) :
  nth_error (Request_Queries (req g)) i = Some query ->
  registryInv orders g st ->
  registryInv orders g (addQuery (orders i) g st query).
Proof.
  intros Hnth Hinv.
  destruct (addQuery_cases g (orders i) st query)
    as [-> | [Hcols [_ [Hfresh ->]]]]; [exact Hinv|].
  destruct Hinv as [Hnamed Hsigned Horigin Hunique].
  set (cs := queryStruct (orders i) g query).
  assert (Hold : forall name cs', structs st !! name = Some cs' ->
                                  structSignature cs' <> structSignature cs).
  { intros name cs' H E. destruct (Hsigned name cs' H) as [v Hv].
    rewrite E in Hv. unfold structSignature, cs in Hv. simpl in Hv. congruence. }
  constructor; unfold register; simpl structs; simpl fieldSignatures.
  - intros name cs'.
    destruct (decide (Struct_Name cs = name)) as [<- | Hne].
    + rewrite lookup_insert_eq. now intros [= <-].
    + rewrite lookup_insert_ne by exact Hne. apply Hnamed.
  - intros name cs'.
    destruct (decide (Struct_Name cs = name)) as [<- | Hne].
    + rewrite lookup_insert_eq. intros [= <-].
      unfold structSignature, cs. simpl. rewrite lookup_insert_eq. eauto.
    + rewrite lookup_insert_ne by exact Hne. intros H.
      rewrite lookup_insert_ne; [now apply (Hsigned name)|].
      intros E. now apply (Hold name cs' H).
  - intros name cs'.
    destruct (decide (Struct_Name cs = name)) as [<- | Hne].
    + rewrite lookup_insert_eq. intros [= <-]. right.
      exists i, query. now repeat split.
    + rewrite lookup_insert_ne by exact Hne. apply Horigin.
  - intros n1 n2 cs1 cs2.
    destruct (decide (Struct_Name cs = n1)) as [<- | Hne1];
      destruct (decide (Struct_Name cs = n2)) as [<- | Hne2].
    + congruence.
    + rewrite lookup_insert_eq, lookup_insert_ne by exact Hne2.
      intros [= <-] H2 _ E. exfalso. now apply (Hold n2 cs2 H2).
    + rewrite lookup_insert_eq, lookup_insert_ne by exact Hne1.
      intros H1 [= <-] _ E. exfalso. now apply (Hold n1 cs1 H1).
    + rewrite !lookup_insert_ne by assumption. apply Hunique.
Qed.

Lemma queryPass_inv (queries : list Query) (i : nat) (st : modelsState) :
  (forall j query, nth_error queries j = Some query ->
                   nth_error (Request_Queries (req g)) (i + j) = Some query) ->
  registryInv orders g st ->
  registryInv orders g (queryPass orders g i queries st).
Proof.
  revert i st. induction queries as [|query queries IH]; intros i st Hnth Hinv;
    [exact Hinv|].
  simpl. apply IH.
  - intros j q Hq. replace (S i + j) with (i + S j) by lia. now apply Hnth.
  - apply addQuery_inv; [|exact Hinv].
    rewrite <- (Nat.add_0_r i). now apply Hnth.
Qed.

Lemma buildModels_inv : registryInv orders g (buildModels orders g).
Proof.
  unfold buildModels. apply queryPass_inv.
  - intros j query H. exact H.
  - apply tablePass_inv.
Qed.

(** The emitted structs are the values of [structs]. *)
Lemma structList_In (st : modelsState) (cs : crystalStruct) :
  In cs (structList st) <-> exists name, structs st !! name = Some cs.
Proof.
  unfold structList. split.
  - intros H. apply (Permutation_in _ (SliceStable_perm _ _)) in H.
    apply in_map_iff in H as [[name cs'] [<- Hin]].
    exists name. apply list_elem_of_In in Hin.
    now apply elem_of_map_to_list in Hin.
  - intros [name H].
    apply (Permutation_in _ (Permutation_sym (SliceStable_perm _ _))).
    apply in_map_iff. exists (name, cs). split; [reflexivity|].
    apply list_elem_of_In. now apply elem_of_map_to_list.
Qed.

(** ** The sort of the structs *)

Lemma ltb_compare (a b : string) :
  String.ltb a b = true <-> String.compare a b = Lt.
Proof.
  unfold String.ltb. destruct (String.compare a b); split;
    first [reflexivity | discriminate].
Qed.

Lemma ltb_false_leb (a b : string) :
  String.ltb a b = false <-> String.leb b a = true.
Proof.
  unfold String.ltb, String.leb. rewrite (String.compare_antisym a b).
  destruct (String.compare b a); simpl; split;
    first [reflexivity | discriminate].
Qed.

Lemma byStructName_asym (a b : crystalStruct) :
  byStructName a b = true -> byStructName b a = false.
Proof.
  unfold byStructName. rewrite ltb_compare. intros H.
  unfold String.ltb. rewrite String.compare_antisym, H. reflexivity.
Qed.

Lemma byStructName_negtrans (a b c : crystalStruct) :
  byStructName a b = false -> byStructName b c = false ->
  byStructName a c = false.
Proof.
  unfold byStructName. rewrite !ltb_false_leb. intros Hba Hcb.
  apply Is_true_true. apply Is_true_true in Hba, Hcb.
  exact (transitivity (R := String.le) Hcb Hba).
Qed.

Lemma byStructName_same (a b : crystalStruct) :
  byStructName a b = false -> byStructName b a = false ->
  Struct_Name a = Struct_Name b.
Proof.
  unfold byStructName. rewrite !ltb_false_leb. intros Hba Hab.
  now apply String.leb_antisym.
Qed.

(** [sort.Slice] is handed the values of [structs] in the order of a visit
    of the map.  Whatever that order, the sorted slice is [structList]:
    the structs are stored under their names, so no two of them compare
    equal. *)
Lemma structList_any_copy (st : modelsState) (copied : list crystalStruct) :
  registryInv orders g st ->
  Permutation copied (List.map snd (map_to_list (structs st))) ->
  forall sorted,
    Permutation sorted copied ->
    StronglySorted (notAfter byStructName) sorted ->
    sorted = structList st.
Proof.
  intros [Hnamed _ _ _] Hcopied sorted Hperm Hsorted.
  assert (Hboth : Permutation sorted (structList st)).
  { unfold structList. rewrite Hperm, Hcopied.
    symmetry. apply SliceStable_perm. }
  apply (StronglySorted_unique_strong (notAfter byStructName));
    [|exact Hsorted| |exact Hboth].
  - intros x1 x2 H1 H2 H12 H21.
    rewrite Hboth in H1.
    apply list_elem_of_In in H1, H2.
    apply structList_In in H1 as [n1 H1]. apply structList_In in H2 as [n2 H2].
    pose proof (byStructName_same x1 x2 H21 H12) as Hsame.
    rewrite (Hnamed n1 x1 H1), (Hnamed n2 x2 H2) in Hsame. subst n2.
    congruence.
  - unfold structList. apply SliceStable_sorted.
    + apply byStructName_asym.
    + apply byStructName_negtrans.
Qed.

(** C9, as the code has it.  Among the structs of the models file, a struct
    derived from a query shares its signature with no other emitted struct:
    two different emitted structs have one signature only if both come from
    tables.  Every emitted struct comes from a table or from a query of the
    request; a struct from a table has a field, and a struct without fields
    can only come from a query with embed markers. *)
Theorem emitted_structs_distinct :
  let emitted := structList (buildModels orders g) in
  (forall cs1 cs2,
      In cs1 emitted -> In cs2 emitted -> cs1 <> cs2 ->
      structSignature cs1 = structSignature cs2 ->
      tableDerived g cs1 /\ tableDerived g cs2)
  /\ (forall cs, In cs emitted -> tableDerived g cs \/ queryDerived orders g cs)
  /\ (forall cs, tableDerived g cs -> Struct_Fields cs <> [])
  /\ (forall cs,
        In cs emitted -> Struct_Fields cs = [] ->
        exists i query,
          nth_error (Request_Queries (req g)) i = Some query
          /\ noEmbeds query = false
          /\ cs = queryStruct (orders i) g query).
Proof.
  cbv zeta. pose proof buildModels_inv as [Hnamed Hsigned Horigin Hunique].
  split; [|split; [|split]].
  - intros cs1 cs2 H1 H2 Hne Hsig.
    apply structList_In in H1 as [n1 H1]. apply structList_In in H2 as [n2 H2].
    apply (Hunique n1 n2 cs1 cs2 H1 H2); [|exact Hsig].
    intros ->. congruence.
  - intros cs H. apply structList_In in H as [name H]. now apply (Horigin name).
  - apply tableDerived_fields.
  - intros cs H Hempty. apply structList_In in H as [name H].
    destruct (Horigin name cs H) as [Htable | [i [query [Hnth [Hcols ->]]]]].
    + now apply tableDerived_fields in Htable.
    + exists i, query. split; [exact Hnth|]. split; [|reflexivity].
      destruct (noEmbeds query) eqn:Hplain; [|reflexivity].
      exfalso. simpl in Hempty.
      rewrite (queryFields_noEmbeds g (orders i) query Hplain) in Hempty.
      destruct (Query_Columns query); [congruence | discriminate].
Qed.

End RegistryInvariant.

(** C9 as stated fails: the tables [cats] and [dogs] have the same columns,
    and the models file holds the structs [Cat] and [Dog] of one
    signature. *)
Lemma two_tables_one_signature :
  let emitted :=
    structList (buildModels (fun _ => Sample.inOrder) SampleRegistry.petsGenerator) in
  exists cs1 cs2,
    In cs1 emitted /\ In cs2 emitted /\ cs1 <> cs2
    /\ Struct_Name cs1 = "Cat" /\ Struct_Name cs2 = "Dog"
    /\ structSignature cs1 = structSignature cs2.
Proof.
  cbv zeta.
  exists (tableStruct SampleRegistry.petsGenerator SampleRegistry.cats),
         (tableStruct SampleRegistry.petsGenerator SampleRegistry.dogs).
  split; [vm_compute; left; reflexivity|].
  split; [vm_compute; right; left; reflexivity|].
  split; [discriminate|].
  split; [reflexivity|]. split; reflexivity.
Qed.

(** The theorem at the two tables of one shape, whose structs both come
    from tables, and at a query whose struct has no field, which carries an
    embed marker. *)
Lemma emitted_structs_distinct_witness :
  (tableDerived SampleRegistry.petsGenerator
     (tableStruct SampleRegistry.petsGenerator SampleRegistry.cats)
   /\ tableDerived SampleRegistry.petsGenerator
        (tableStruct SampleRegistry.petsGenerator SampleRegistry.dogs))
  /\ exists i query,
       nth_error (Request_Queries (req SampleEmbed.idAndAuthorGenerator)) i
       = Some query
       /\ noEmbeds query = false
       /\ {| Struct_Name := "IdAndAuthorRow"; Struct_TableName := "";
             Struct_Fields := [] |}
          = queryStruct Sample.inOrder SampleEmbed.idAndAuthorGenerator query.
Proof.
  split.
  - destruct (emitted_structs_distinct (fun _ => Sample.inOrder)
                SampleRegistry.petsGenerator) as [Hdistinct _].
    apply Hdistinct.
    + vm_compute. left. reflexivity.
    + vm_compute. right. left. reflexivity.
    + discriminate.
    + reflexivity.
  - destruct (emitted_structs_distinct (fun _ => Sample.inOrder)
                SampleEmbed.idAndAuthorGenerator) as [_ [_ [_ Hempty]]].
    apply Hempty.
    + vm_compute. right. left. reflexivity.
    + reflexivity.
Defined.

(** The struct of a query that selects a column of a table before it
    embeds that table has no field, and is emitted. *)
Example embed_struct_without_fields :
  structList (buildModels (fun _ => Sample.inOrder) SampleEmbed.idAndAuthorGenerator)
  = [ tableStruct SampleEmbed.idAndAuthorGenerator SampleRegistry.authors;
      {| Struct_Name := "IdAndAuthorRow"; Struct_TableName := "";
         Struct_Fields := [] |} ].
Proof. vm_compute. reflexivity. Qed.

(* ===================================================================== *)
(** * StructRegistry: embedded tables *)
(* ===================================================================== *)

Section Embeds.

(** The struct name found for an embedded table is the name made from the
    table name, with or without a catalog. *)
Lemma findInTables_name (tableName : string) (tables : list Table) :
  findInTables tableName tables = ""
  \/ findInTables tableName tables = toPascalCase (singularize tableName).
Proof.
  induction tables as [|table tables IH]; simpl; [now left|].
  destruct (String.eqb (Identifier_Name (Table_Rel table)) tableName) eqn:E;
    [|exact IH].
  apply String.eqb_eq in E. rewrite E. now right.
Qed.

Lemma findInSchemas_name (tableName : string) (schemas : list Schema) :
  findInSchemas tableName schemas = ""
  \/ findInSchemas tableName schemas = toPascalCase (singularize tableName).
Proof.
  induction schemas as [|schema schemas IH]; simpl; [now left|].
  destruct (findInTables_name tableName (Schema_Tables schema)) as [-> | E];
    [exact IH|].
  rewrite E. destruct (String.eqb _ ""); [exact IH | now right].
Qed.

Lemma embedStructName_name (g : Generator) (tableName : string) :
  embedStructName g tableName = toPascalCase (singularize tableName).
Proof.
  unfold embedStructName. cbv zeta.
  destruct (Request_Catalog (req g)) as [catalog|]; [|reflexivity].
  destruct (findInSchemas_name tableName (Catalog_Schemas catalog)) as [-> | E];
    [reflexivity|].
  rewrite E. destruct (String.eqb _ "") eqn:Hempty; [|reflexivity].
  apply String.eqb_eq in Hempty. now rewrite Hempty.
Qed.

(** What the generator does: an embedded field is optional exactly when
    the text holds LEFT JOIN and does not hold FROM followed by the name of
    the embedded table.  RIGHT JOIN in the text changes nothing. *)
Lemma embedFieldType_optional (g : Generator) (query : Query)
    (tableName : string) :
  embedFieldType g query tableName
  = toPascalCase (singularize tableName)
    +:+ (if Contains (ToUpper (Query_Text query)) "LEFT JOIN"
            && negb (Contains (ToUpper (Query_Text query))
                              ("FROM " +:+ ToUpper tableName))
         then "?" else "").
Proof.
  unfold embedFieldType. cbv zeta. rewrite embedStructName_name.
  destruct (Contains (ToUpper (Query_Text query)) "LEFT JOIN"); simpl.
  - destruct (Contains _ ("FROM " +:+ ToUpper tableName)); simpl;
      [now rewrite append_empty_r | reflexivity].
  - destruct (Contains _ "RIGHT JOIN"); now rewrite append_empty_r.
Qed.

End Embeds.

(** The README's LEFT JOIN: the driving table [authors] is embedded as
    [Author], the joined table [books] as [Book?]. *)
Example left_join_embeds :
  embedFieldType (SampleJoin.generator [SampleJoin.leftJoin])
                 SampleJoin.leftJoin "authors" = "Author"
  /\ embedFieldType (SampleJoin.generator [SampleJoin.leftJoin])
                    SampleJoin.leftJoin "books" = "Book?".
Proof. split; vm_compute; reflexivity. Qed.

(** C7 fails on the code.  The text of the query holds the outer-join
    keyword RIGHT JOIN, and the embedded table [authors] is not the table
    behind FROM; the claim makes its field optional.  The generator types
    both embedded fields as non-optional, under every order of the visit. *)
Theorem right_join_embeds_not_optional :
  let g := SampleJoin.generator [SampleJoin.rightJoin] in
  let upper := ToUpper (Query_Text SampleJoin.rightJoin) in
  Contains upper "RIGHT JOIN" = true
  /\ Contains upper ("FROM " +:+ ToUpper "authors") = false
  /\ embedFieldType g SampleJoin.rightJoin "authors" = "Author"
  /\ embedFieldType g SampleJoin.rightJoin "books" = "Book"
  /\ List.map Field_Type (queryFields Sample.inOrder g SampleJoin.rightJoin)
     = ["Author"; "Book"]
  /\ List.map Field_Type (queryFields Sample.backwards g SampleJoin.rightJoin)
     = ["Book"; "Author"].
Proof. cbv zeta. repeat split; vm_compute; reflexivity. Qed.

(* ===================================================================== *)
(** * Renderer: the order of the visit of a map *)
(* ===================================================================== *)

Section Orders.

Lemma inOrder_valid : validOrder Sample.inOrder.
Proof. intros keys. reflexivity. Qed.

Lemma backwards_valid : validOrder Sample.backwards.
Proof. intros keys. symmetry. apply Permutation_rev. Qed.

Variable g : Generator.
Variables orders orders' : nat -> rangeOrder.

Lemma addQuery_any_order (i j : nat) (st : modelsState) (query : Query) :
  noEmbeds query = true ->
  addQuery (orders i) g st query = addQuery (orders' j) g st query.
Proof.
  intros Hplain. unfold addQuery.
  now rewrite !(queryFields_noEmbeds g _ query Hplain).
Qed.

Lemma queryPass_any_order (queries : list Query) (i : nat) (st : modelsState) :
  (forall query, In query queries -> noEmbeds query = true) ->
  queryPass orders g i queries st = queryPass orders' g i queries st.
Proof.
  revert i st. induction queries as [|query queries IH]; intros i st Hplain;
    [reflexivity|].
  simpl. rewrite (addQuery_any_order i i st query) by (apply Hplain; now left).
  apply IH. intros q Hq. apply Hplain. now right.
Qed.

(** What does hold: without embed markers and without repositories no map
    is visited whose order shows in the output, and the files are the same
    for every order. *)
Lemma generation_fixed_without_map_visits (template : string -> string)
    (repoOrder repoOrder' : rangeOrder) :
  (forall query, In query (Request_Queries (req g)) -> noEmbeds query = true) ->
  GenerateRepositories (options g) = false ->
  Generate template orders repoOrder g = Generate template orders' repoOrder' g.
Proof.
  intros Hplain Hrepo.
  assert (Hmodels : buildModels orders g = buildModels orders' g).
  { unfold buildModels. now apply queryPass_any_order. }
  assert (Hgen : generateModels orders g = generateModels orders' g).
  { unfold generateModels. now rewrite Hmodels. }
  unfold Generate, afterModels, modelsFiles. cbv zeta.
  now rewrite Hrepo, Hgen.
Qed.

End Orders.

(** C8 fails on the code.  [generateRepositories] appends one file per
    table in the order in which Go visits the map [tableQueries], and the
    fields of a struct with embedded tables follow the visit of
    [tableColumns].  Go fixes neither order: on one request, two runs may
    return the repository files in two orders, and two texts of
    [models.cr]. *)
Theorem generation_depends_on_map_order (template : string -> string) :
  validOrder Sample.inOrder /\ validOrder Sample.backwards
  /\ List.map File_Name
       (Generate template (fun _ => Sample.inOrder) Sample.inOrder
                 SampleOrder.twoTables)
     = [ "models.cr"; "queries.cr"; "repositories/authors_repository.cr";
         "repositories/books_repository.cr" ]
  /\ List.map File_Name
       (Generate template (fun _ => Sample.inOrder) Sample.backwards
                 SampleOrder.twoTables)
     = [ "models.cr"; "queries.cr"; "repositories/books_repository.cr";
         "repositories/authors_repository.cr" ]
  /\ List.map Field_Name
       (queryFields Sample.inOrder SampleOrder.twoEmbeds SampleJoin.leftJoin)
     = ["author"; "book"]
  /\ List.map Field_Name
       (queryFields Sample.backwards SampleOrder.twoEmbeds SampleJoin.leftJoin)
     = ["book"; "author"]
  /\ Generate template (fun _ => Sample.inOrder) Sample.inOrder
              SampleOrder.twoEmbeds
     <> Generate template (fun _ => Sample.backwards) Sample.inOrder
                 SampleOrder.twoEmbeds.
Proof.
  split; [apply inOrder_valid|]. split; [apply backwards_valid|].
  split; [vm_compute; reflexivity|]. split; [vm_compute; reflexivity|].
  split; [vm_compute; reflexivity|]. split; [vm_compute; reflexivity|].
  vm_compute. discriminate.
Qed.

(* ===================================================================== *)
(** * QueryModelBuilder: bound values and slices *)
(* ===================================================================== *)

Section BindList.

(** The names [paramNames] prints are the names of the signature, put in
    the order of the bind positions. *)
Lemma paramNames_by_position (params : list crystalParam) :
  paramNames params
  = Join (List.map Param_Name (SliceStable byPosition params)) ", "
  /\ Permutation (List.map Param_Name (SliceStable byPosition params))
                 (List.map Param_Name params)
  /\ StronglySorted
       (fun a b => (Param_Position a <= Param_Position b)%Z)
       (SliceStable byPosition params).
Proof.
  split; [now destruct params|]. split.
  - apply Permutation_map, SliceStable_perm.
  - apply StronglySorted_weaken with (R := notAfter byPosition).
    + intros a b. unfold notAfter, byPosition. rewrite Z.ltb_ge. lia.
    + apply SliceStable_sorted.
      * apply byPosition_asym.
      * apply byPosition_negtrans.
Qed.

End BindList.

(** C2 fails on the code.  Where the slices are expanded the template fills
    [query_params] in a loop over [.Params], the parameters in the order of
    the signature, and does not sort them by position as [paramNames] does.
    The nullable [bio] is bound at position 1 and the slice [ids] at
    position 2; the signature puts [ids] first, and so does the loop: the
    three ids are bound to the placeholder of [bio] and to the first two of
    the slice, the bio to the last. *)
Theorem slice_values_bound_in_signature_order :
  let g := SampleSlice.mysql [SampleSlice.byBioAndIds] in
  let q := buildQuery g SampleSlice.byBioAndIds in
  List.map Param_Name (CQ_Params q) = ["ids"; "bio"]
  /\ List.map Param_Position (CQ_Params q) = [2%Z; 1%Z]
  /\ String.concat "" (List.map flattenLine (CQ_Params q))
     = newline +:+ "      query_params.concat(ids.map { |v| v.as(DB::Any) })"
       +:+ newline +:+ "      query_params << bio.as(DB::Any)"
  /\ runMethod (engine g) q SampleSlice.threeIds
     = Executed
         "SELECT id, name FROM authors WHERE bio = ? AND id IN (?, ?, ?)"
         [Scalar "1"; Scalar "2"; Scalar "3"; Scalar "poet"]
  /\ boundByPosition SampleSlice.threeIds (CQ_Params q)
     = [Scalar "poet"; Scalar "1"; Scalar "2"; Scalar "3"].
Proof. cbv zeta. repeat split; vm_compute; reflexivity. Qed.

Section Slices.

Lemma HasPrefix_append (a b : string) : HasPrefix (a +:+ b) a = true.
Proof.
  induction a as [|x a IH]; [now destruct b|].
  rewrite append_cons. simpl. now rewrite Ascii.eqb_refl, IH.
Qed.





Lemma concat_cons (sep x y : string) (l : list string) :
  String.concat sep (x :: y :: l) = x +:+ sep +:+ String.concat sep (y :: l).
Proof. reflexivity. Qed.

Lemma occursIn_Join (sep x : string) (parts : list string) :
  In x parts -> occursIn x (Join parts sep).
Proof.
  unfold Join. induction parts as [|p parts IH]; [intros []|].
  destruct parts as [|p' parts].
  - intros [-> | []]. apply occursIn_refl.
  - rewrite concat_cons. intros [-> | Hin].
    + apply occursIn_append_l, occursIn_refl.
    + do 2 apply occursIn_append_r. now apply IH.
Qed.




(** A name without upper-case letters is in snake case already. *)
Lemma replaceFirstCap_noUpper (s : string) (inRun : bool) :
  noUpper s = true -> replaceFirstCap inRun s = s.
Proof.
  revert inRun. induction s as [|c s IH]; intros inRun H; [reflexivity|].
  unfold noUpper in H. simpl in H. apply andb_true_iff in H as [_ Hs].
  assert (Htail : forall b, replaceFirstCap b s = s) by (intros b; now apply IH).
  destruct s as [|u [|l rest]].
  - simpl. now destruct (inRun && isLower c).
  - change (replaceFirstCap inRun (String c (String u "")))
      with (if inRun && isLower c
            then String c (replaceFirstCap true (String u ""))
            else String c (replaceFirstCap false (String u ""))).
    rewrite !Htail. now destruct (inRun && isLower c).
  - simpl in Hs. apply andb_true_iff in Hs as [Hu _].
    apply negb_true_iff in Hu.
    change (replaceFirstCap inRun (String c (String u (String l rest))))
      with (if inRun && isLower c
            then String c (replaceFirstCap true (String u (String l rest)))
            else if negb (Nat.eqb (code c) 10) && isUpper u && isLower l
                 then String c (String "_" (String u
                        (replaceFirstCap true (String l rest))))
                 else String c (replaceFirstCap false (String u (String l rest)))).
    rewrite Hu, andb_false_r, !Htail. simpl.
    now destruct (inRun && isLower c).
Qed.

Lemma replaceAllCap_noUpper (s : string) :
  noUpper s = true -> replaceAllCap s = s.
Proof.
  induction s as [|c s IH]; intros H; [reflexivity|].
  unfold noUpper in H. simpl in H. apply andb_true_iff in H as [_ Hs].
  destruct s as [|u rest]; [reflexivity|].
  pose proof (IH Hs) as Htail.
  simpl in Hs. apply andb_true_iff in Hs as [Hu _].
  apply negb_true_iff in Hu.
  change (replaceAllCap (String c (String u rest)))
    with (if (isLower c || isDigit c) && isUpper u
          then String c (String "_" (String u (replaceAllCap rest)))
          else String c (replaceAllCap (String u rest))).
  now rewrite Hu, andb_false_r, Htail.
Qed.

Lemma ToLower_noUpper (s : string) : noUpper s = true -> ToLower s = s.
Proof.
  induction s as [|c s IH]; intros H; [reflexivity|].
  unfold noUpper in H. simpl in H. apply andb_true_iff in H as [Hc Hs].
  apply negb_true_iff in Hc.
  unfold ToLower. simpl. unfold lowerChar at 1. rewrite Hc.
  f_equal. now apply IH.
Qed.

Lemma toSnakeCase_noUpper (s : string) : noUpper s = true -> toSnakeCase s = s.
Proof.
  intros H. unfold toSnakeCase. cbv zeta.
  now rewrite (replaceFirstCap_noUpper s false H), (replaceAllCap_noUpper s H),
    (ToLower_noUpper s H).
Qed.

(** In the text of the method the expansions stand before the lines that
    bind the values, and those before the call. *)
Lemma sliceBody_order (data : templateData) (q : crystalQuery) :
  sliceBody data q
  = (newline +:+ "      sql = " +:+ sqlRef data q +:+ newline +:+ "      ")
    +:+ expandSliceParams (CQ_Params q) (CQ_SliceParams q)
    +:+ (newline +:+ newline +:+ "      # Flatten array parameters for execution"
         +:+ newline +:+ "      query_params = [] of DB::Any"
         +:+ String.concat "" (List.map flattenLine (CQ_Params q)))
    +:+ sliceCall q.
Proof. unfold sliceBody. now rewrite !append_assoc. Qed.

Lemma renderMethod_expansion (data : templateData) (q : crystalQuery)
    (block : string) :
  needsSliceExpansion q (Data_Engine data) = true ->
  occursIn block (expandSliceParams (CQ_Params q) (CQ_SliceParams q)) ->
  occursIn block (renderMethod data q).
Proof.
  intros Hneeds Hblock. unfold renderMethod. rewrite Hneeds.
  do 2 apply occursIn_append_r. apply occursIn_append_l.
  rewrite sliceBody_order.
  apply occursIn_append_r, occursIn_append_l. exact Hblock.
Qed.

(** The block [expandSliceParams] formats is made of the statements the
    run of the method is read from: the guard raises [emptyMessage], the
    substitution searches [marker]. *)
Lemma sliceExpansion_block (name : string) :
  sliceExpansion name = expansionBlock name.
Proof.
  unfold sliceExpansion, expansionBlock, emptyGuard, placeholdersAssignment,
    markerSubstitution, emptyMessage, marker.
  now rewrite !append_assoc.
Qed.

(** C3 fails on the code.  The marker in the statement text carries the
    name of the slice as the query wrote it, [authorIDs]; the parameter of
    the method is named by [toSnakeCase], [author_i_ds], and the block
    [expandSliceParams] writes searches the marker under that name.  The
    text holds no such marker: nothing is replaced, and the method sends
    the statement with its one placeholder and three values bound. *)
Theorem slice_marker_not_replaced :
  let g := SampleSlice.mysql [SampleSlice.byAuthorIDs] in
  let q := buildQuery g SampleSlice.byAuthorIDs in
  List.map Param_Name (CQ_Params q) = ["author_i_ds"]
  /\ needsSliceExpansion q (engine g) = true
  /\ expandSliceParams (CQ_Params q) (CQ_SliceParams q)
     = newline +:+ "      # Expand array parameter author_i_ds for MySQL/SQLite"
       +:+ newline +:+ "      if author_i_ds.empty?"
       +:+ newline +:+ "        raise ArgumentError.new(" +:+ dquote
       +:+ "slice parameter 'author_i_ds' cannot be empty" +:+ dquote +:+ ")"
       +:+ newline +:+ "      end"
       +:+ newline +:+ "      placeholders_author_i_ds = author_i_ds.size.times.map { "
       +:+ dquote +:+ "?" +:+ dquote +:+ " }.join(" +:+ dquote +:+ ", " +:+ dquote +:+ ")"
       +:+ newline +:+ "      sql = sql.gsub(" +:+ dquote
       +:+ "/*SLICE:author_i_ds*/?" +:+ dquote +:+ ", placeholders_author_i_ds)"
  /\ Contains (File_Contents (generateQueries g))
              (expandSliceParams (CQ_Params q) (CQ_SliceParams q)) = true
  /\ CQ_SQL q
     = "SELECT id, title FROM books WHERE author_id IN (/*SLICE:authorIDs*/?)"
  /\ Contains (CQ_SQL q) "/*SLICE:author_i_ds*/?" = false
  /\ runMethod (engine g) q SampleSlice.threeAuthors
     = Executed
         "SELECT id, title FROM books WHERE author_id IN (/*SLICE:authorIDs*/?)"
         [Scalar "1"; Scalar "2"; Scalar "3"]
  /\ countOf "?" (CQ_SQL q) = 1.
Proof. cbv zeta. repeat split; vm_compute; reflexivity. Qed.

End Slices.


(* ===================================================================== *)
(** * Further properties: the naming helpers of strings.go *)
(* ===================================================================== *)

(** A fact about every byte, settled on the 256 of them. *)
Ltac every_byte c := destruct c as [[] [] [] [] [] [] [] []]; reflexivity.

Section Bytes.

Lemma allBytes_append (p : ascii -> bool) (a b : string) :
  allBytes p (a +:+ b) = allBytes p a && allBytes p b.
Proof.
  induction a as [|c a IH]; [now rewrite append_nil|].
  rewrite append_cons. simpl. rewrite IH. now rewrite andb_assoc.
Qed.

Lemma allBytes_mapBytes (p : ascii -> bool) (f : ascii -> ascii) (s : string) :
  allBytes p (mapBytes f s) = allBytes (fun c => p (f c)) s.
Proof. induction s as [|c s IH]; [reflexivity|]. simpl. now rewrite IH. Qed.

Lemma allBytes_ext (p q : ascii -> bool) (s : string) :
  (forall c, p c = q c) -> allBytes p s = allBytes q s.
Proof.
  intros H. induction s as [|c s IH]; [reflexivity|]. simpl. now rewrite H, IH.
Qed.

Lemma allBytes_impl (p q : ascii -> bool) (s : string) :
  (forall c, p c = true -> q c = true) ->
  allBytes p s = true -> allBytes q s = true.
Proof.
  intros H. induction s as [|c s IH]; [reflexivity|]. simpl.
  intros Hs. apply andb_true_iff in Hs as [Hc Hs].
  now rewrite (H c Hc), IH.
Qed.

Lemma allBytes_and (p q : ascii -> bool) (s : string) :
  allBytes (fun c => p c && q c) s = allBytes p s && allBytes q s.
Proof.
  induction s as [|c s IH]; [reflexivity|]. simpl. rewrite IH.
  destruct (p c), (q c), (allBytes p s), (allBytes q s); reflexivity.
Qed.

Lemma allBytes_concat (p : ascii -> bool) (parts : list string) :
  List.Forall (fun w => allBytes p w = true) parts ->
  allBytes p (String.concat "" parts) = true.
Proof.
  induction 1 as [|w parts Hw _ IH]; [reflexivity|].
  destruct parts as [|w' parts]; [exact Hw|].
  rewrite concat_cons, append_nil, allBytes_append, Hw. exact IH.
Qed.

Lemma mapBytes_mapBytes (f h : ascii -> ascii) (s : string) :
  mapBytes f (mapBytes h s) = mapBytes (fun c => f (h c)) s.
Proof. induction s as [|c s IH]; [reflexivity|]. simpl. now rewrite IH. Qed.

Lemma mapBytes_ext (f h : ascii -> ascii) (s : string) :
  (forall c, f c = h c) -> mapBytes f s = mapBytes h s.
Proof.
  intros H. induction s as [|c s IH]; [reflexivity|]. simpl. now rewrite H, IH.
Qed.

Lemma lowerChar_not_upper (c : ascii) : isUpper (lowerChar c) = false.
Proof. every_byte c. Qed.

Lemma upperChar_not_lower (c : ascii) : isLower (upperChar c) = false.
Proof. every_byte c. Qed.

Lemma lowerChar_upperChar (c : ascii) : lowerChar (upperChar c) = lowerChar c.
Proof. every_byte c. Qed.

Lemma lowerChar_separator (c : ascii) :
  isWordSeparator (lowerChar c) = isWordSeparator c.
Proof. every_byte c. Qed.

Lemma ToLower_lower (s : string) : noUpper (ToLower s) = true.
Proof.
  unfold noUpper, ToLower. rewrite allBytes_mapBytes.
  induction s as [|c s IH]; [reflexivity|].
  simpl. now rewrite lowerChar_not_upper, IH.
Qed.

Lemma ToUpper_upper (s : string) : noLower (ToUpper s) = true.
Proof.
  unfold noLower, ToUpper. rewrite allBytes_mapBytes.
  induction s as [|c s IH]; [reflexivity|].
  simpl. now rewrite upperChar_not_lower, IH.
Qed.

Lemma ToLower_ToUpper (s : string) : ToLower (ToUpper s) = ToLower s.
Proof.
  unfold ToLower, ToUpper. rewrite mapBytes_mapBytes.
  apply mapBytes_ext, lowerChar_upperChar.
Qed.

Lemma HasPrefix_empty (s : string) : HasPrefix s "" = true.
Proof. now destruct s. Qed.

(** [strings.Contains] for a one-byte string. *)
Lemma Contains_byte (s : string) (x : ascii) :
  Contains s (String x "") = negb (allBytes (fun c => negb (Ascii.eqb c x)) s).
Proof.
  induction s as [|c s IH]; [reflexivity|].
  simpl. rewrite IH, HasPrefix_empty, andb_true_r.
  now destruct (Ascii.eqb c x).
Qed.

(** A string that holds [String x rest] holds the byte [x]. *)
Lemma Contains_first_byte (s rest : string) (x : ascii) :
  Contains s (String x rest) = true -> Contains s (String x "") = true.
Proof.
  induction s as [|c s IH]; [discriminate|].
  simpl. rewrite HasPrefix_empty, andb_true_r. intros H.
  apply orb_true_iff in H as [H | H].
  - apply andb_true_iff in H as [-> _]. reflexivity.
  - rewrite (IH H). apply orb_true_r.
Qed.

Lemma Contains_nil (sub : string) : Contains "" sub = HasPrefix "" sub.
Proof. simpl. apply orb_false_r. Qed.

Lemma Contains_cons (c : ascii) (s sub : string) :
  Contains (String c s) sub = HasPrefix (String c s) sub || Contains s sub.
Proof. reflexivity. Qed.

(** A string that holds [a +:+ b] holds [b]. *)
Lemma HasPrefix_Contains (s a b : string) :
  HasPrefix s (a +:+ b) = true -> Contains s b = true.
Proof.
  revert s. induction a as [|x a IH]; intros s.
  - rewrite append_nil. intros H.
    destruct s; [now rewrite Contains_nil | now rewrite Contains_cons, H].
  - rewrite append_cons. destruct s as [|c s]; [discriminate|].
    simpl HasPrefix. intros H. apply andb_true_iff in H as [_ H].
    apply IH in H. rewrite Contains_cons, H. apply orb_true_r.
Qed.

Lemma Contains_tail (s a b : string) :
  Contains s b = false -> Contains s (a +:+ b) = false.
Proof.
  intros Hb. destruct (Contains s (a +:+ b)) eqn:Hab; [|reflexivity].
  rewrite <- Hb. clear Hb. induction s as [|c s IH].
  - rewrite Contains_nil in Hab. now apply HasPrefix_Contains in Hab.
  - rewrite Contains_cons in Hab. apply orb_true_iff in Hab as [Hab | Hab].
    + now apply HasPrefix_Contains in Hab.
    + rewrite Contains_cons, <- (IH Hab). symmetry. apply orb_true_r.
Qed.

End Bytes.

Section Snake.

(** X1.  [toSnakeCase] never returns an upper-case letter, and a second
    application changes nothing: a name that went through it once is left
    as it is. *)
Theorem toSnakeCase_lower_idempotent (str : string) :
  noUpper (toSnakeCase str) = true
  /\ toSnakeCase (toSnakeCase str) = toSnakeCase str.
Proof.
  assert (H : noUpper (toSnakeCase str) = true) by apply ToLower_lower.
  split; [exact H | now apply toSnakeCase_noUpper].
Qed.

(** X2.  [toConstantCase] never returns a lower-case letter; the constant
    name and the method name of a query are the two cases of one string:
    lowering the constant name gives [toSnakeCase] of the query name, and
    the constant name of the method name is the constant name. *)
Theorem toConstantCase_upper_round_trip (str : string) :
  noLower (toConstantCase str) = true
  /\ ToLower (toConstantCase str) = toSnakeCase str
  /\ toConstantCase (toSnakeCase str) = toConstantCase str.
Proof.
  pose proof (ToLower_lower (replaceAllCap (replaceFirstCap false str))) as H.
  split; [apply ToUpper_upper|]. split.
  - unfold toConstantCase. rewrite ToLower_ToUpper.
    now apply ToLower_noUpper.
  - unfold toConstantCase. now rewrite toSnakeCase_noUpper.
Qed.

End Snake.

Section Pascal.

Lemma plain_noWordSeparator (str : string) :
  negb (Contains str "_") && negb (Contains str "-") && negb (Contains str " ")
  = noWordSeparator str.
Proof.
  rewrite !Contains_byte, !negb_involutive. unfold noWordSeparator.
  rewrite <- !allBytes_and. apply allBytes_ext. intros c.
  unfold isWordSeparator.
  now destruct (Ascii.eqb c "_"), (Ascii.eqb c "-"), (Ascii.eqb c " ").
Qed.

(** [strings.ReplaceAll] of one byte by one byte. *)
Lemma replaceFrom_byte (x y : ascii) (s : string) :
  replaceFrom (String x "") (String y "") 0 s
  = mapBytes (fun c => if Ascii.eqb c x then y else c) s.
Proof.
  induction s as [|c s IH]; [reflexivity|].
  simpl. rewrite HasPrefix_empty, andb_true_r, IH.
  destruct (Ascii.eqb c x); [|reflexivity].
  now rewrite append_cons, append_nil.
Qed.

(** The words [strings.Fields] returns are not empty; a property of the
    bytes outside the white space is a property of the bytes of every
    word. *)
Lemma fieldsFrom_words (q : ascii -> bool) (s cur : string) :
  allBytes q cur = true ->
  allBytes (fun c => isSpace c || q c) s = true ->
  List.Forall (fun w => w <> "" /\ allBytes q w = true) (fieldsFrom cur s).
Proof.
  revert cur. induction s as [|c s IH]; intros cur Hcur Hs.
  - simpl. destruct (String.eqb cur "") eqn:E; [constructor|].
    apply String.eqb_neq in E. now repeat constructor.
  - simpl in Hs. apply andb_true_iff in Hs as [Hc Hs]. simpl.
    destruct (isSpace c) eqn:Hspace.
    + destruct (String.eqb cur "") eqn:E; [now apply IH|].
      apply String.eqb_neq in E. constructor; [now split|now apply IH].
    + apply IH; [|exact Hs]. simpl in Hc.
      rewrite allBytes_append, Hcur. simpl. now rewrite Hc.
Qed.

Lemma Fields_words (q : ascii -> bool) (s : string) :
  allBytes (fun c => isSpace c || q c) s = true ->
  List.Forall (fun w => w <> "" /\ allBytes q w = true) (Fields s).
Proof. now apply fieldsFrom_words. Qed.

(** The bytes [strings.ToUpper(string(b))] writes for a byte [b]: they
    begin as [startsUpper] says, with an ASCII byte exactly when [b] is
    one, and they hold a word separator exactly when [b] is one. *)
Lemma upper_head_bytes (c : ascii) :
  let head := encodeRune (upperRune (code c)) in
  negb (String.eqb head "")
  && startsUpper head
  && Bool.eqb (startsAscii head) (isAsciiByte c)
  && Bool.eqb (noWordSeparator head) (negb (isWordSeparator c)) = true.
Proof. destruct c as [[] [] [] [] [] [] [] []]; vm_compute; reflexivity. Qed.

Lemma upper_head (c : ascii) :
  exists a tail,
    encodeRune (upperRune (code c)) = String a tail
    /\ upperHead a = true
    /\ isAsciiByte a = isAsciiByte c
    /\ noWordSeparator (String a tail) = negb (isWordSeparator c).
Proof.
  pose proof (upper_head_bytes c) as H. cbv zeta in H.
  destruct (encodeRune (upperRune (code c))) as [|a tail]; [discriminate|].
  apply andb_true_iff in H as [H Hsep]. apply andb_true_iff in H as [H Hascii].
  apply andb_true_iff in H as [_ Hupper].
  apply Bool.eqb_prop in Hsep, Hascii.
  exists a, tail. now repeat split.
Qed.

(** For an upper-cased first byte the conversion is the identity on ASCII
    and writes two bytes otherwise. *)
Lemma upper_head_again_bytes (c : ascii) :
  negb (upperHead c)
  || (if isAsciiByte c
      then String.eqb (encodeRune (upperRune (code c))) (String c "")
      else Nat.eqb (String.length (encodeRune (upperRune (code c)))) 2) = true.
Proof. destruct c as [[] [] [] [] [] [] [] []]; vm_compute; reflexivity. Qed.

Lemma upper_head_again (c : ascii) :
  upperHead c = true ->
  if isAsciiByte c then encodeRune (upperRune (code c)) = String c ""
  else String.length (encodeRune (upperRune (code c))) = 2.
Proof.
  intros Hupper. pose proof (upper_head_again_bytes c) as H.
  rewrite Hupper in H. simpl in H.
  destruct (isAsciiByte c);
    [now apply String.eqb_eq in H | now apply Nat.eqb_eq in H].
Qed.

Lemma upperFirst_separators (w : string) :
  noWordSeparator w = true -> noWordSeparator (upperFirst ToLower w) = true.
Proof.
  destruct w as [|c w]; [reflexivity|]. unfold noWordSeparator. simpl allBytes.
  intros H. apply andb_true_iff in H as [Hc Hw].
  destruct (upper_head c) as [a [tail [Hhead [_ [_ Hsep]]]]].
  simpl upperFirst. rewrite allBytes_append, Hhead.
  unfold noWordSeparator in Hsep. rewrite Hsep, Hc. simpl.
  unfold ToLower. rewrite allBytes_mapBytes.
  erewrite allBytes_ext; [exact Hw|].
  intros x. simpl. now rewrite lowerChar_separator.
Qed.

Lemma upperFirst_head (f : string -> string) (c : ascii) (w : string) :
  startsUpper (upperFirst f (String c w)) = true
  /\ startsAscii (upperFirst f (String c w)) = isAsciiByte c.
Proof.
  destruct (upper_head c) as [a [tail [Hhead [Hupper [Hascii _]]]]].
  simpl upperFirst. rewrite Hhead, append_cons. simpl. now split.
Qed.

(** A second upper-casing of the first byte changes nothing exactly when
    that byte is an ASCII byte; otherwise it adds a byte. *)
Lemma upperFirst_again (s : string) :
  startsUpper s = true ->
  (startsAscii s = true -> upperFirst (fun rest => rest) s = s)
  /\ (startsAscii s = false ->
      String.length (upperFirst (fun rest => rest) s) = String.length s + 1).
Proof.
  destruct s as [|c s]; [now split|]. simpl startsUpper. simpl startsAscii.
  intros Hupper. pose proof (upper_head_again c Hupper) as Hagain.
  simpl upperFirst. split; intros Hascii; rewrite Hascii in Hagain.
  - now rewrite Hagain, append_cons, append_nil.
  - rewrite length_append, Hagain. simpl. lia.
Qed.

Lemma concat_head (f : string -> string) (words : list string) :
  List.Forall (fun w => w <> "") words ->
  startsUpper (String.concat "" (List.map (upperFirst f) words)) = true
  /\ (List.Forall (fun w => startsAscii w = true) words ->
      startsAscii (String.concat "" (List.map (upperFirst f) words)) = true).
Proof.
  destruct 1 as [|w words Hw _]; [now split|].
  destruct w as [|c w]; [congruence|].
  destruct (upper_head c) as [a [tail [Hhead [Hupper [Hascii _]]]]].
  assert (Hconcat : exists rest,
             String.concat "" (List.map (upperFirst f) (String c w :: words))
             = String a rest).
  { destruct words as [|w' words]; simpl List.map.
    - simpl String.concat. simpl upperFirst. rewrite Hhead, append_cons. eauto.
    - rewrite concat_cons. simpl upperFirst. rewrite Hhead, !append_cons. eauto. }
  destruct Hconcat as [rest ->]. simpl. split; [exact Hupper|].
  intros Hall. apply List.Forall_inv in Hall. simpl in Hall. congruence.
Qed.

(** The bytes of a name with its underscores and hyphens replaced by
    blanks: white space, or bytes of the name that are no separators. *)
Lemma spaced_bytes (q : ascii -> bool) (str : string) :
  (forall c, q c = true -> isWordSeparator c = false) ->
  allBytes (fun c => isWordSeparator c || q c) str = true ->
  allBytes (fun c => isSpace c || q c)
           (replaceFrom "-" " " 0 (replaceFrom "_" " " 0 str)) = true.
Proof.
  intros Hq. rewrite !replaceFrom_byte, mapBytes_mapBytes, allBytes_mapBytes.
  apply allBytes_impl. intros c Hc.
  destruct (q c) eqn:Hqc.
  - pose proof (Hq c Hqc) as Hsep. unfold isWordSeparator in Hsep.
    apply orb_false_elim in Hsep as [Hsep _].
    apply orb_false_elim in Hsep as [Hunder Hhyphen].
    rewrite Hunder, Hhyphen, Hqc. apply orb_true_r.
  - rewrite orb_false_r in Hc. unfold isWordSeparator in Hc.
    destruct (Ascii.eqb c "_") eqn:Hunder; [reflexivity|].
    destruct (Ascii.eqb c "-") eqn:Hhyphen; [reflexivity|].
    simpl in Hc. apply Ascii.eqb_eq in Hc. now subst c.
Qed.

(** What [toPascalCase] returns: no separator, a first byte as
    [startsUpper] says, and an ASCII first byte for an ASCII name. *)
Lemma toPascalCase_shape (str : string) :
  noWordSeparator (toPascalCase str) = true
  /\ startsUpper (toPascalCase str) = true
  /\ (allBytes isAsciiByte str = true -> startsAscii (toPascalCase str) = true).
Proof.
  unfold toPascalCase. rewrite plain_noWordSeparator.
  destruct (noWordSeparator str) eqn:Hplain.
  - destruct str as [|c str]; [now repeat split|].
    destruct (upperFirst_head (fun rest => rest) c str) as [Hupper Hascii].
    split; [|split; [exact Hupper|]].
    + destruct (upper_head c) as [a [tail [Hhead [_ [_ Hsep]]]]].
      unfold noWordSeparator in *. simpl in Hplain.
      apply andb_true_iff in Hplain as [Hc Hstr].
      simpl upperFirst. now rewrite allBytes_append, Hhead, Hsep, Hc, Hstr.
    + intros Hall. simpl in Hall. apply andb_true_iff in Hall as [Hc _].
      now rewrite Hascii.
  - cbv zeta. unfold ReplaceAll, Join.
    set (spaced := replaceFrom "-" " " 0 (replaceFrom "_" " " 0 str)).
    assert (Hspaced : allBytes (fun c => isSpace c || negb (isWordSeparator c))
                               spaced = true).
    { apply spaced_bytes.
      - intros c Hc. now apply negb_true_iff in Hc.
      - clear. induction str as [|c str IH]; [reflexivity|].
        simpl. rewrite IH. now destruct (isWordSeparator c). }
    pose proof (Fields_words _ _ Hspaced) as Hwords.
    assert (Hnonempty : List.Forall (fun w => w <> "") (Fields spaced)).
    { eapply List.Forall_impl; [|exact Hwords]. now intros w [Hw _]. }
    destruct (concat_head ToLower (Fields spaced) Hnonempty) as [Hupper Hascii].
    split; [|split; [exact Hupper|]].
    + apply allBytes_concat. apply List.Forall_map.
      eapply List.Forall_impl; [|exact Hwords].
      intros w [_ Hw]. now apply upperFirst_separators.
    + intros Hall. apply Hascii.
      assert (Hboth : allBytes (fun c => isSpace c
                                         || (negb (isWordSeparator c) && isAsciiByte c))
                               spaced = true).
      { apply spaced_bytes.
        - intros c Hc. apply andb_true_iff in Hc as [Hc _].
          now apply negb_true_iff in Hc.
        - revert Hall. apply allBytes_impl. intros c Hc. rewrite Hc.
          now destruct (isWordSeparator c). }
      eapply List.Forall_impl; [|exact (Fields_words _ _ Hboth)].
      intros w [Hw Hbytes]. destruct w as [|c w]; [congruence|].
      simpl in Hbytes. apply andb_true_iff in Hbytes as [Hc _].
      now apply andb_true_iff in Hc as [_ Hc].
Qed.

(** [strings.go: toPascalCase] on a name that begins with a byte above
    127: [string(str[0])] makes the code point U+00C3 of the byte C3, which
    is written as the two bytes C3 83. *)
Example toPascalCase_first_byte :
  let name := String (ascii_of_nat 195) (String (ascii_of_nat 137) "cole") in
  toPascalCase name
  = String (ascii_of_nat 195) (String (ascii_of_nat 131)
      (String (ascii_of_nat 137) "cole"))
  /\ String.length (toPascalCase (toPascalCase name)) = 8.
Proof. cbv zeta. split; vm_compute; reflexivity. Qed.

(** X3.  The name [toPascalCase] returns holds no underscore, no hyphen
    and no blank.  A second application changes nothing exactly when the
    name returned begins with an ASCII byte, as it does for every name of
    ASCII bytes; a name returned that begins with a byte above 127 grows
    by a byte with every further application, since [string(str[0])]
    writes that byte as a code point of its own. *)
Theorem toPascalCase_separators_idempotent (str : string) :
  Contains (toPascalCase str) "_" = false
  /\ Contains (toPascalCase str) "-" = false
  /\ Contains (toPascalCase str) " " = false
  /\ (toPascalCase (toPascalCase str) = toPascalCase str
      <-> startsAscii (toPascalCase str) = true)
  /\ (allBytes isAsciiByte str = true ->
      toPascalCase (toPascalCase str) = toPascalCase str)
  /\ (startsAscii (toPascalCase str) = false ->
      String.length (toPascalCase (toPascalCase str))
      = String.length (toPascalCase str) + 1).
Proof.
  destruct (toPascalCase_shape str) as [Hsep [Hupper Hascii]].
  pose proof Hsep as Hthree. rewrite <- plain_noWordSeparator in Hthree.
  apply andb_true_iff in Hthree as [Hthree Hblank].
  apply andb_true_iff in Hthree as [Hunder Hhyphen].
  apply negb_true_iff in Hunder, Hhyphen, Hblank.
  assert (Hagain : toPascalCase (toPascalCase str)
                   = upperFirst (fun rest => rest) (toPascalCase str)).
  { unfold toPascalCase at 1. now rewrite plain_noWordSeparator, Hsep. }
  destruct (upperFirst_again (toPascalCase str) Hupper) as [Hfixed Hgrows].
  repeat split; try assumption.
  - intros Hsame. destruct (startsAscii (toPascalCase str)) eqn:E; [reflexivity|].
    exfalso. specialize (Hgrows eq_refl). rewrite <- Hagain, Hsame in Hgrows. lia.
  - intros Hstart. rewrite Hagain. now apply Hfixed.
  - intros Hall. rewrite Hagain. now apply Hfixed, Hascii.
  - intros Hstart. rewrite Hagain. now apply Hgrows.
Qed.

End Pascal.

(** The theorem at a name of ASCII bytes, which a second application
    leaves alone, and at a name that begins with the byte C3, which is
    seven bytes long after one application and eight after two. *)
Lemma toPascalCase_separators_idempotent_witness :
  toPascalCase (toPascalCase "user_name") = "UserName"
  /\ String.length
       (toPascalCase (toPascalCase
          (String (ascii_of_nat 195) (String (ascii_of_nat 137) "cole"))))
     = 8.
Proof.
  split.
  - destruct (toPascalCase_separators_idempotent "user_name")
      as [_ [_ [_ [_ [Hascii _]]]]].
    rewrite Hascii; reflexivity.
  - destruct (toPascalCase_separators_idempotent
                (String (ascii_of_nat 195) (String (ascii_of_nat 137) "cole")))
      as [_ [_ [_ [_ [_ Hgrows]]]]].
    rewrite Hgrows; reflexivity.
Defined.

Section Singular.

Lemma take_drop (n : nat) (s : string) : takeBytes n s +:+ dropBytes n s = s.
Proof.
  revert s. induction n as [|n IH]; intros [|c s]; try reflexivity.
  simpl. rewrite append_cons. now rewrite IH.
Qed.

Lemma takeBytes_append (a b : string) : takeBytes (String.length a) (a +:+ b) = a.
Proof.
  induction a as [|x a IH]; [now destruct b|].
  rewrite append_cons. simpl. now rewrite IH.
Qed.

(** [strings.HasSuffix] holds of the strings that end in the suffix. *)
Lemma HasSuffix_true (s suffix : string) :
  HasSuffix s suffix = true <-> exists pre, s = pre +:+ suffix.
Proof.
  unfold HasSuffix. split.
  - intros H. apply andb_true_iff in H as [_ H]. apply String.eqb_eq in H.
    remember (String.length s - String.length suffix) as n eqn:Hn. clear Hn.
    exists (takeBytes n s). rewrite <- H. symmetry. apply take_drop.
  - intros [pre ->]. rewrite length_append.
    replace (String.length pre + String.length suffix - String.length suffix)
      with (String.length pre) by lia.
    rewrite dropBytes_append, String.eqb_refl, andb_true_r.
    apply Nat.leb_le. lia.
Qed.

Lemma HasSuffix_shorter (s a b : string) :
  HasSuffix s b = false -> HasSuffix s (a +:+ b) = false.
Proof.
  intros Hb. destruct (HasSuffix s (a +:+ b)) eqn:Hab; [|reflexivity].
  apply HasSuffix_true in Hab as [pre ->].
  rewrite <- Hb. symmetry. apply HasSuffix_true.
  exists (pre +:+ a). now rewrite append_assoc.
Qed.

(** X4.  [singularize] leaves a word alone unless it is an irregular
    plural or ends in s (letter case aside): a word of at most one byte,
    and a word that is no key of [irregulars] and whose lower-case form
    does not end in s, is returned as it is. *)
Theorem singularize_leaves_other_words (word : string) :
  String.length word <= 1
  \/ (irregulars !! ToLower word = None
      /\ HasSuffix (ToLower word) "s" = false) ->
  singularize word = word.
Proof.
  unfold singularize. cbv zeta.
  destruct (Nat.leb (String.length word) 1) eqn:Hlen; [reflexivity|].
  apply Nat.leb_gt in Hlen. intros [Hshort | [Hirregular Hs]]; [lia|].
  assert (Hies : HasSuffix (ToLower word) "ies" = false)
    by exact (HasSuffix_shorter _ "ie" "s" Hs).
  assert (Hves : HasSuffix (ToLower word) "ves" = false)
    by exact (HasSuffix_shorter _ "ve" "s" Hs).
  assert (Hses : HasSuffix (ToLower word) "ses" = false)
    by exact (HasSuffix_shorter _ "se" "s" Hs).
  assert (Hes : HasSuffix (ToLower word) "es" = false)
    by exact (HasSuffix_shorter _ "e" "s" Hs).
  rewrite Hirregular, Hs, Hies, Hves, Hses, Hes. reflexivity.
Qed.

End Singular.

Lemma singularize_leaves_other_words_witness :
  singularize "x" = "x" /\ singularize "Fish" = "Fish".
Proof.
  split.
  - apply singularize_leaves_other_words. left. simpl. lia.
  - apply singularize_leaves_other_words. right. split; reflexivity.
Defined.

Section ModuleNames.

Lemma splitFrom_skip (sep cur pre rest : string) :
  splitFrom sep (String.length pre) cur (pre +:+ rest) = splitFrom sep 0 cur rest.
Proof.
  induction pre as [|c pre IH]; [now rewrite append_nil|].
  rewrite append_cons. simpl. exact IH.
Qed.

(** A string without the first byte of the separator is one part. *)
Lemma splitFrom_plain (x : ascii) (sep' s cur : string) :
  without x s = true -> splitFrom (String x sep') 0 cur s = [cur +:+ s].
Proof.
  revert cur. induction s as [|c s IH]; intros cur Hs.
  - now rewrite append_empty_r.
  - unfold without in Hs. simpl in Hs. apply andb_true_iff in Hs as [Hc Hs].
    apply negb_true_iff in Hc. simpl. rewrite Hc. simpl.
    rewrite (IH _ Hs). now rewrite append_assoc.
Qed.

Lemma splitFrom_part (x : ascii) (sep' p rest cur : string) :
  without x p = true ->
  splitFrom (String x sep') 0 cur (p +:+ String x sep' +:+ rest)
  = (cur +:+ p) :: splitFrom (String x sep') 0 "" rest.
Proof.
  revert cur. induction p as [|c p IH]; intros cur Hp.
  - rewrite append_nil, append_empty_r, append_cons.
    pose proof (HasPrefix_append (String x sep') rest) as Hhere.
    rewrite append_cons in Hhere.
    simpl splitFrom. simpl in Hhere. rewrite Hhere.
    replace (String.length sep' - 0) with (String.length sep') by lia.
    now rewrite splitFrom_skip.
  - unfold without in Hp. simpl in Hp. apply andb_true_iff in Hp as [Hc Hp].
    apply negb_true_iff in Hc. rewrite append_cons. simpl. rewrite Hc. simpl.
    rewrite (IH _ Hp). now rewrite append_assoc.
Qed.

(** [strings.Split] undoes [strings.Join] on parts without the first byte
    of the separator. *)
Lemma Split_Join (x : ascii) (sep' : string) (parts : list string) :
  parts <> [] ->
  List.Forall (fun part => without x part = true) parts ->
  Split (Join parts (String x sep')) (String x sep') = parts.
Proof.
  intros Hparts Hall. unfold Split, Join.
  induction Hall as [|p parts Hp Hall IH]; [congruence|].
  destruct parts as [|q parts].
  - simpl String.concat. now rewrite splitFrom_plain, append_nil.
  - rewrite concat_cons, splitFrom_part, append_nil by exact Hp.
    f_equal. now apply IH.
Qed.

Lemma without_Join (x : ascii) (sep : string) (parts : list string) :
  without x sep = true ->
  List.Forall (fun part => without x part = true) parts ->
  without x (Join parts sep) = true.
Proof.
  intros Hsep. unfold Join, without in *.
  induction 1 as [|p parts Hp Hall IH]; [reflexivity|].
  destruct parts as [|q parts]; [exact Hp|].
  now rewrite concat_cons, !allBytes_append, Hp, Hsep, IH.
Qed.

Lemma without_Contains (x : ascii) (rest s : string) :
  without x s = true -> Contains s (String x rest) = false.
Proof.
  intros Hs. destruct (Contains s (String x rest)) eqn:H; [|reflexivity].
  apply Contains_first_byte in H. rewrite Contains_byte in H.
  unfold without in Hs. now rewrite Hs in H.
Qed.

(** X5.  A module name written with dots, or with double colons, becomes
    the nested Crystal module of its parts: each part is Pascal-cased and
    the parts are joined by [::]. *)
Theorem crystalModuleName_nested (parts : list string) :
  parts <> [] ->
  List.Forall (fun part => without ":" part = true) parts ->
  (List.Forall (fun part => without "." part = true) parts ->
   Join parts "." <> "" ->
   crystalModuleName (Join parts ".")
   = Join (List.map toPascalCase parts) "::")
  /\ (1 < List.length parts ->
      crystalModuleName (Join parts "::")
      = Join (List.map toPascalCase parts) "::").
Proof.
  intros Hparts Hcolon. split.
  - intros Hdot Hname. unfold crystalModuleName.
    apply String.eqb_neq in Hname. rewrite Hname.
    rewrite (without_Contains ":" ":" _ (without_Join ":" "." parts eq_refl Hcolon)).
    destruct (Contains (Join parts ".") ".") eqn:Hsplit.
    + now rewrite (Split_Join "." "" parts Hparts Hdot).
    + destruct parts as [|p [|q parts]]; [congruence | reflexivity |].
      exfalso. unfold Join in Hsplit. rewrite concat_cons in Hsplit.
      assert (Hhere : Contains (p +:+ "." +:+ String.concat "." (q :: parts)) "."
                      = true).
      { apply (HasPrefix_Contains _ p "."). rewrite <- append_assoc.
        apply HasPrefix_append. }
      congruence.
  - intros Hlen. unfold crystalModuleName.
    destruct parts as [|p [|q parts]]; try (simpl in Hlen; lia).
    assert (Hhere : Contains (Join (p :: q :: parts) "::") "::" = true).
    { unfold Join. rewrite concat_cons.
      apply (HasPrefix_Contains _ p "::"). rewrite <- append_assoc.
      apply HasPrefix_append. }
    rewrite Hhere.
    replace (String.eqb (Join (p :: q :: parts) "::") "") with false.
    + now rewrite (Split_Join ":" ":" (p :: q :: parts) Hparts Hcolon).
    + symmetry. apply String.eqb_neq. intros E. rewrite E in Hhere. discriminate.
Qed.

End ModuleNames.

Lemma crystalModuleName_nested_witness :
  crystalModuleName "my_app.db" = "MyApp::Db"
  /\ crystalModuleName "my_app::db" = "MyApp::Db".
Proof.
  destruct (crystalModuleName_nested ["my_app"; "db"]) as [Hdots Hcolons].
  - discriminate.
  - repeat constructor.
  - split.
    + apply Hdots; [repeat constructor | discriminate].
    + apply Hcolons. simpl. lia.
Defined.

(* ===================================================================== *)
(** * Further properties: the type tables of types.go *)
(* ===================================================================== *)

Section TypeNames.

Lemma Index_byte_absent (s : string) (x : ascii) :
  Contains s (String x "") = false -> Index s (String x "") = None.
Proof.
  induction s as [|c s IH]; [reflexivity|].
  simpl. rewrite HasPrefix_empty, andb_true_r. intros H.
  apply orb_false_elim in H as [-> H]. now rewrite IH.
Qed.

Lemma Index_byte_first (s rest : string) (x : ascii) :
  Contains s (String x "") = false ->
  Index (s +:+ String x rest) (String x "") = Some (String.length s).
Proof.
  induction s as [|c s IH].
  - intros _. rewrite append_nil. simpl.
    now rewrite HasPrefix_empty, Ascii.eqb_refl.
  - intros H. simpl in H. rewrite HasPrefix_empty, andb_true_r in H.
    apply orb_false_elim in H as [Hc H].
    rewrite append_cons. simpl.
    rewrite HasPrefix_empty, andb_true_r, Hc, (IH H). reflexivity.
Qed.

(** X6.  [sqliteType] drops whatever follows the first opening
    parenthesis of a type name: [name(...)] has the type of [name]. *)
Theorem sqliteType_ignores_length (name rest : string) :
  Contains name "(" = false ->
  normalizeSQLiteType (name +:+ "(" +:+ rest) = normalizeSQLiteType name
  /\ sqliteType (name +:+ "(" +:+ rest) = sqliteType name.
Proof.
  intros Hplain.
  assert (H : normalizeSQLiteType (name +:+ "(" +:+ rest)
              = normalizeSQLiteType name).
  { unfold normalizeSQLiteType.
    change ("(" +:+ rest) with (String "(" rest).
    rewrite (Index_byte_first name rest "(" Hplain).
    rewrite (Index_byte_absent name "(" Hplain).
    now rewrite takeBytes_append. }
  split; [exact H|]. unfold sqliteType. now rewrite H.
Qed.

(** X7.  The lookup of a type does not see the letter case of its name:
    in every dialect a column whose type name is written in capitals has
    the type of the column with the name as given. *)
Theorem type_name_case_ignored (g : Generator) (col : Column) (name : string) :
  baseType g (withTypeName col (ToUpper name))
  = baseType g (withTypeName col name)
  /\ crystalType g (withTypeName col (ToUpper name))
     = crystalType g (withTypeName col name).
Proof.
  assert (H : baseType g (withTypeName col (ToUpper name))
              = baseType g (withTypeName col name)).
  { unfold baseType, withTypeName. simpl. now rewrite ToLower_ToUpper. }
  split; [exact H|]. unfold crystalType. now rewrite H.
Qed.

(** X8.  A column that carries no type has the type of the empty name:
    [String] from the PostgreSQL and MySQL tables, which know no such
    name, and [Bytes] from the SQLite table, for which the empty name is
    the blob affinity. *)
Theorem column_without_type (g : Generator) (col : Column) :
  Column_Type col = None ->
  baseType g col = if String.eqb (engine g) "sqlite" then "Bytes" else "String".
Proof.
  intros Hnone. unfold baseType. rewrite Hnone.
  destruct (String.eqb (engine g) "postgresql") eqn:Epg.
  - apply String.eqb_eq in Epg. now rewrite Epg.
  - destruct (String.eqb (engine g) "mysql") eqn:Emy.
    + apply String.eqb_eq in Emy. now rewrite Emy.
    + now destruct (String.eqb (engine g) "sqlite").
Qed.

End TypeNames.

Lemma sqliteType_ignores_length_witness :
  sqliteType "VARCHAR(255)" = sqliteType "VARCHAR"
  /\ sqliteType "DECIMAL(10,2)" = sqliteType "DECIMAL".
Proof.
  split.
  - apply (sqliteType_ignores_length "VARCHAR" "255)"). reflexivity.
  - apply (sqliteType_ignores_length "DECIMAL" "10,2)"). reflexivity.
Defined.

Lemma column_without_type_witness :
  baseType (SampleSlice.mysql []) (Sample.embedColumn "authors") = "String".
Proof.
  apply (column_without_type (SampleSlice.mysql []) (Sample.embedColumn "authors")).
  reflexivity.
Defined.

(* ===================================================================== *)
(** * Further properties: signatures, bind lists and slices *)
(* ===================================================================== *)

Section StableSortMore.

Context {A B : Type} (less : A -> A -> bool) (less' : B -> B -> bool).

(** A slice that is in order already is left as it is. *)
Lemma SliceStable_fixed (l : list A) :
  StronglySorted (notAfter less) l -> SliceStable less l = l.
Proof.
  induction 1 as [|x l Hsorted IH Hx]; [reflexivity|].
  simpl. rewrite IH. destruct l as [|y l]; [reflexivity|].
  simpl. apply List.Forall_inv in Hx. unfold notAfter in Hx. now rewrite Hx.
Qed.

(** Sorting commutes with a map that keeps the order. *)
Lemma insertStable_map (f : A -> B) (x : A) (l : list A) :
  (forall a b, less' (f a) (f b) = less a b) ->
  insertStable less' (f x) (List.map f l) = List.map f (insertStable less x l).
Proof.
  intros Hf. induction l as [|y l IH]; [reflexivity|].
  simpl. rewrite Hf. destruct (less y x); [|reflexivity].
  simpl. now rewrite IH.
Qed.

Lemma SliceStable_map (f : A -> B) (l : list A) :
  (forall a b, less' (f a) (f b) = less a b) ->
  SliceStable less' (List.map f l) = List.map f (SliceStable less l).
Proof.
  intros Hf. induction l as [|x l IH]; [reflexivity|].
  simpl. rewrite IH. now apply insertStable_map.
Qed.

End StableSortMore.

Section BindListMore.

Lemma NoDup_map_inj {A B : Type} (f : A -> B) (l : list A) (a b : A) :
  NoDup (List.map f l) -> In a l -> In b l -> f a = f b -> a = b.
Proof.
  induction l as [|x l IH]; [intros _ []|].
  simpl. intros Hnodup Ha Hb Hab. apply NoDup_cons in Hnodup as [Hx Hl].
  destruct Ha as [-> | Ha], Hb as [-> | Hb]; try reflexivity.
  - exfalso. apply Hx, list_elem_of_In. rewrite Hab. now apply in_map.
  - exfalso. apply Hx, list_elem_of_In. rewrite <- Hab. now apply in_map.
  - now apply IH.
Qed.

(** Sorting by position undoes the required-first order when no two
    positions are equal. *)
Lemma byPosition_after_requiredFirst (params : list crystalParam) :
  NoDup (List.map Param_Position params) ->
  SliceStable byPosition (SliceStable requiredFirst params)
  = SliceStable byPosition params.
Proof.
  intros Hnodup.
  assert (Hperm : Permutation (SliceStable byPosition (SliceStable requiredFirst params))
                              (SliceStable byPosition params)).
  { rewrite !SliceStable_perm. reflexivity. }
  apply (StronglySorted_unique_strong (notAfter byPosition));
    [| | |exact Hperm].
  - intros a b Ha Hb Hab Hba.
    apply list_elem_of_In in Ha, Hb.
    apply (Permutation_in _ (SliceStable_perm _ _)) in Ha, Hb.
    apply (Permutation_in _ (SliceStable_perm _ _)) in Ha.
    apply (NoDup_map_inj Param_Position params a b Hnodup Ha Hb).
    unfold notAfter, byPosition in Hab, Hba.
    rewrite Z.ltb_ge in Hab, Hba. lia.
  - apply SliceStable_sorted; [apply byPosition_asym | apply byPosition_negtrans].
  - apply SliceStable_sorted; [apply byPosition_asym | apply byPosition_negtrans].
Qed.

Lemma buildParam_positions (g : Generator) (params : list QueryParameter) :
  List.map Param_Position (List.map (buildParam g) params)
  = List.map Parameter_Number params.
Proof. rewrite List.map_map. reflexivity. Qed.

(** X9.  On the path without slice expansion the bind list of a method
    names the parameters by ascending [Number], whatever order the
    signature has put them in, provided no two parameters have one
    [Number].  The emitted call binds the arguments in that order. *)
Theorem bind_list_in_number_order (g : Generator) (query : Query)
    (args : arguments) :
  NoDup (List.map Parameter_Number (Query_Params query)) ->
  let inNumberOrder :=
    List.map (fun param => Param_Name (buildParam g param))
             (SliceStable byNumber (Query_Params query)) in
  paramNames (CQ_Params (buildQuery g query)) = Join inNumberOrder ", "
  /\ runPlainBody (buildQuery g query) args
     = if plainCalls (Query_Cmd query)
       then Executed (Query_Text query) (List.map args inNumberOrder)
       else Finished.
Proof.
  intros Hnodup. cbv zeta.
  assert (Hsorted : SliceStable byPosition (CQ_Params (buildQuery g query))
                    = List.map (buildParam g)
                        (SliceStable byNumber (Query_Params query))).
  { simpl CQ_Params. rewrite byPosition_after_requiredFirst
      by now rewrite buildParam_positions.
    now apply SliceStable_map. }
  split.
  - destruct (paramNames_by_position (CQ_Params (buildQuery g query))) as [-> _].
    now rewrite Hsorted, List.map_map.
  - unfold runPlainBody. rewrite Hsorted. simpl CQ_Cmd. simpl CQ_SQL.
    now rewrite !List.map_map.
Qed.

(** X10.  A query whose parameters are listed by ascending [Number] and are
    all required, or all defaulted, keeps them in that order in the
    signature of its method. *)
Theorem signature_keeps_statement_order (g : Generator) (query : Query) :
  StronglySorted (fun a b => (Parameter_Number a <= Parameter_Number b)%Z)
                 (Query_Params query) ->
  (forall a b,
      In a (Query_Params query) -> In b (Query_Params query) ->
      isOptional (buildParam g a) = isOptional (buildParam g b)) ->
  CQ_Params (buildQuery g query) = List.map (buildParam g) (Query_Params query)
  /\ paramList (CQ_Params (buildQuery g query))
     = Join (List.map (fun param => paramDecl (buildParam g param))
                      (Query_Params query)) ", ".
Proof.
  intros Hsorted Huniform.
  assert (H : CQ_Params (buildQuery g query)
              = List.map (buildParam g) (Query_Params query)).
  { simpl CQ_Params. apply SliceStable_fixed.
    induction Hsorted as [|x l Hl IH Hx]; [constructor|].
    simpl. constructor.
    - apply IH. intros a b Ha Hb. apply Huniform; now right.
    - apply List.Forall_map. rewrite List.Forall_forall in Hx |- *.
      intros y Hy. unfold notAfter, requiredFirst.
      rewrite (Huniform y x (or_intror Hy) (or_introl eq_refl)).
      rewrite eqb_reflx. simpl Param_Position. apply Z.ltb_ge.
      now apply Hx. }
  split; [exact H|]. now rewrite paramList_decls, H, List.map_map.
Qed.

End BindListMore.

Lemma bind_list_in_number_order_witness :
  paramNames (CQ_Params (buildQuery (Sample.postgres None []) SampleMore.bioThenId))
  = "bio, id"
  /\ paramList (CQ_Params (buildQuery (Sample.postgres None []) SampleMore.bioThenId))
     = "id : Int64, bio : String? = nil".
Proof.
  split; [|reflexivity].
  destruct (bind_list_in_number_order (Sample.postgres None [])
              SampleMore.bioThenId (fun name => Scalar name)) as [Hnames _].
  - apply (bool_decide_unpack _). vm_compute. exact I.
  - rewrite Hnames. reflexivity.
Defined.

Lemma signature_keeps_statement_order_witness :
  paramList (CQ_Params (buildQuery (Sample.postgres None []) SampleMore.nameThenId))
  = "name : String, id : Int64".
Proof.
  destruct (signature_keeps_statement_order (Sample.postgres None [])
              SampleMore.nameThenId) as [_ Hlist].
  - simpl. repeat constructor; simpl; lia.
  - simpl. intros a b [<- | [<- | []]] [<- | [<- | []]]; reflexivity.
  - rewrite Hlist. reflexivity.
Defined.

Section SlicesMore.

Lemma findParam_In (params : list crystalParam) (p : crystalParam) :
  In p params ->
  Param_Name <$> findParam params (Param_Name p) = Some (Param_Name p).
Proof.
  intros Hin. unfold findParam.
  destruct (List.find _ params) as [found|] eqn:Hfind.
  - apply List.find_some in Hfind as [_ Hname].
    apply String.eqb_eq in Hname. simpl. now rewrite Hname.
  - exfalso. apply (List.find_none _ _ Hfind) in Hin.
    now rewrite String.eqb_refl in Hin.
Qed.

Lemma omap_cons_Some {A B : Type} (f : A -> option B) (x : A) (l : list A)
    (y : B) :
  f x = Some y -> omap f (x :: l) = y :: omap f l.
Proof. intros H. simpl. now rewrite H. Qed.

Lemma omap_cons_None {A B : Type} (f : A -> option B) (x : A) (l : list A) :
  f x = None -> omap f (x :: l) = omap f l.
Proof. intros H. simpl. now rewrite H. Qed.

Lemma expansionNames_buildQuery (g : Generator) (params : list crystalParam)
    (all : list QueryParameter) :
  (forall param, In param all -> In (buildParam g param) params) ->
  expansionNames params (omap (buildSliceParam g) all)
  = List.map (fun param => Param_Name (buildParam g param))
             (List.filter isSliceParameter all).
Proof.
  intros Hall. induction all as [|param all IH]; [reflexivity|].
  assert (IH' := IH (fun p Hp => Hall p (or_intror Hp))).
  pose proof (findParam_In params (buildParam g param)
                (Hall param (or_introl eq_refl))) as Hfound.
  unfold expansionNames in *.
  change (List.filter isSliceParameter (param :: all))
    with (if isSliceParameter param
          then param :: List.filter isSliceParameter all
          else List.filter isSliceParameter all).
  destruct (isSliceParameter param) eqn:Hslice.
  - rewrite (omap_cons_Some (buildSliceParam g) param all
               {| Slice_Name := Param_Name (buildParam g param);
                  Slice_Placeholder := "$" +:+ itoa (Parameter_Number param) |})
      by (unfold buildSliceParam; unfold isSliceParameter in Hslice;
          now rewrite Hslice).
    rewrite (omap_cons_Some
               (fun sp => Param_Name <$> findParam params (Slice_Name sp))
               {| Slice_Name := Param_Name (buildParam g param);
                  Slice_Placeholder := "$" +:+ itoa (Parameter_Number param) |}
               _ _ Hfound).
    now rewrite IH'.
  - rewrite (omap_cons_None (buildSliceParam g) param all)
      by (unfold buildSliceParam; unfold isSliceParameter in Hslice;
          now rewrite Hslice).
    exact IH'.
Qed.

Lemma slice_flag_filter (params : list QueryParameter) :
  existsb (fun param => Column_IsSqlcSlice (Parameter_Column param)) params = true
  <-> List.filter isSliceParameter params <> [].
Proof.
  induction params as [|param params IH]; [simpl; split; congruence|].
  simpl. unfold isSliceParameter at 1.
  destruct (Column_IsSqlcSlice (Parameter_Column param)); simpl;
    [split; [discriminate|reflexivity] | exact IH].
Qed.

(** The names the expansions are written under are those of the slice
    parameters of the query, in the order of the statement. *)
Lemma expansionNames_query (g : Generator) (query : Query) :
  expansionNames (CQ_Params (buildQuery g query))
                 (CQ_SliceParams (buildQuery g query))
  = List.map (fun param => Param_Name (buildParam g param))
             (List.filter isSliceParameter (Query_Params query)).
Proof.
  simpl CQ_Params. simpl CQ_SliceParams.
  apply expansionNames_buildQuery. intros param Hin.
  apply (Permutation_in _ (Permutation_sym (SliceStable_perm _ _))).
  now apply in_map.
Qed.

Lemma sliceParams_length (g : Generator) (params : list QueryParameter) :
  List.length (omap (buildSliceParam g) params)
  = List.length (List.filter isSliceParameter params).
Proof.
  induction params as [|param params IH]; [reflexivity|].
  change (List.filter isSliceParameter (param :: params))
    with (if isSliceParameter param
          then param :: List.filter isSliceParameter params
          else List.filter isSliceParameter params).
  destruct (isSliceParameter param) eqn:Hslice.
  - rewrite (omap_cons_Some (buildSliceParam g) param params
               {| Slice_Name := Param_Name (buildParam g param);
                  Slice_Placeholder := "$" +:+ itoa (Parameter_Number param) |})
      by (unfold buildSliceParam; unfold isSliceParameter in Hslice;
          now rewrite Hslice).
    simpl List.length. now rewrite IH.
  - rewrite (omap_cons_None (buildSliceParam g) param params)
      by (unfold buildSliceParam; unfold isSliceParameter in Hslice;
          now rewrite Hslice).
    exact IH.
Qed.

(** The text [expandSliceParams] writes for a query: the blocks of its
    slice parameters, one under the other. *)
Lemma expandSliceParams_blocks (g : Generator) (query : Query) :
  expandSliceParams (CQ_Params (buildQuery g query))
                    (CQ_SliceParams (buildQuery g query))
  = Join (List.map expansionBlock
            (List.map (fun param => Param_Name (buildParam g param))
                      (List.filter isSliceParameter (Query_Params query))))
         newline.
Proof.
  unfold expandSliceParams. rewrite expansionNames_query.
  simpl CQ_SliceParams. rewrite sliceParams_length.
  destruct (List.filter isSliceParameter (Query_Params query)) as [|param slices];
    [reflexivity|].
  simpl Nat.eqb. cbv iota. f_equal.
  apply List.map_ext. exact sliceExpansion_block.
Qed.

Lemma needsSliceExpansion_slices (g : Generator) (query : Query) :
  engine g = "mysql" \/ engine g = "sqlite" ->
  List.filter isSliceParameter (Query_Params query) <> [] ->
  needsSliceExpansion (buildQuery g query) (engine g) = true.
Proof.
  intros Hengine Hslices. unfold needsSliceExpansion.
  apply andb_true_iff. split.
  - simpl CQ_UsesSQLCSlice. now apply slice_flag_filter.
  - destruct Hengine as [-> | ->]; reflexivity.
Qed.

(** X11.  Every [sqlc.slice] parameter of a query gets its expansion
    block, and no other parameter does: the text [expandSliceParams]
    writes is made of the blocks of the slice parameters and of nothing
    else, one block for each, in the order of the statement, under the
    names of the signature; a block is the comment, the guard that raises
    on an empty collection, the placeholders and the substitution of the
    marker.  For mysql and sqlite the block of every slice parameter of a
    query of the request stands in the queries file.  The query is flagged
    as using slices exactly when there is such a parameter. *)
Theorem every_slice_parameter_expanded (g : Generator) (query : Query) :
  let q := buildQuery g query in
  let slices := List.filter isSliceParameter (Query_Params query) in
  let names := List.map (fun param => Param_Name (buildParam g param)) slices in
  expansionNames (CQ_Params q) (CQ_SliceParams q) = names
  /\ (CQ_UsesSQLCSlice q = true <-> slices <> [])
  /\ List.length (CQ_SliceParams q) = List.length slices
  /\ expandSliceParams (CQ_Params q) (CQ_SliceParams q)
     = Join (List.map expansionBlock names) newline
  /\ (engine g = "mysql" \/ engine g = "sqlite" ->
      In query (Request_Queries (req g)) ->
      forall name, In name names ->
        occursIn (expansionBlock name) (File_Contents (generateQueries g))).
Proof.
  cbv zeta. split; [|split; [|split; [|split]]].
  - apply expansionNames_query.
  - simpl CQ_UsesSQLCSlice. apply slice_flag_filter.
  - simpl CQ_SliceParams. apply sliceParams_length.
  - apply expandSliceParams_blocks.
  - intros Hengine Hin name Hname.
    assert (Hslices : List.filter isSliceParameter (Query_Params query) <> []).
    { intros Hnone. rewrite Hnone in Hname. destruct Hname. }
    simpl File_Contents. unfold executeQueries.
    do 22 apply occursIn_append_r. apply occursIn_append_l.
    apply occursIn_concat
      with (part := renderMethod (queriesData g) (buildQuery g query)).
    { apply in_map. simpl. now apply in_map. }
    apply renderMethod_expansion.
    + now apply needsSliceExpansion_slices.
    + rewrite expandSliceParams_blocks. apply occursIn_Join. now apply in_map.
Qed.





(** X12.  A method that expands slices sends a statement for [:one],
    [:many], [:exec] and [:execrows] only.  For [:execresult] and
    [:execlastid] the branch of the template writes no call at all: the
    method builds the statement text and the bind list and returns without
    a statement sent, while the same command on the path without slices
    calls [@db.exec]. *)
Theorem slice_method_without_statement (g : Generator) (query : Query)
    (data : templateData) (args : arguments) :
  needsSliceExpansion (buildQuery g query) (engine g) = true ->
  In (Query_Cmd query) [":execresult"; ":execlastid"] ->
  sliceCall (buildQuery g query) = ""
  /\ (forall sql bound,
        runMethod (engine g) (buildQuery g query) args <> Executed sql bound)
  /\ occursIn "@db.exec(" (plainBody data (buildQuery g query)).
Proof.
  intros Hslice Hcmd. split; [|split].
  - unfold sliceCall. simpl CQ_Cmd.
    destruct Hcmd as [<- | [<- | []]]; reflexivity.
  - intros sql bound. unfold runMethod. rewrite Hslice.
    unfold runSliceBody. simpl CQ_Cmd.
    destruct (runExpansions _ _ _); [discriminate|].
    destruct Hcmd as [<- | [<- | []]]; discriminate.
  - unfold plainBody. simpl CQ_Cmd. cbv zeta.
    destruct Hcmd as [<- | [<- | []]]; simpl String.eqb; cbv iota.
    + exists (newline +:+ "      "), (newline +:+ "        "
                +:+ sqlRef data (buildQuery g query)
                +:+ argsAtEnd (buildQuery g query) +:+ newline +:+ "      )").
      now rewrite !append_assoc.
    + exists (newline +:+ "      result = "), (newline +:+ "        "
                +:+ sqlRef data (buildQuery g query)
                +:+ argsAtEnd (buildQuery g query) +:+ newline +:+ "      )"
                +:+ newline +:+ "      result.last_insert_id").
      now rewrite !append_assoc.
Qed.

End SlicesMore.

(** The block of [ids] in the queries file written for MySQL. *)
Lemma every_slice_parameter_expanded_witness :
  occursIn (newline +:+ "      # Expand array parameter ids for MySQL/SQLite"
            +:+ newline +:+ "      if ids.empty?"
            +:+ newline +:+ "        raise ArgumentError.new(" +:+ dquote
            +:+ "slice parameter 'ids' cannot be empty" +:+ dquote +:+ ")"
            +:+ newline +:+ "      end"
            +:+ newline +:+ "      placeholders_ids = ids.size.times.map { "
            +:+ dquote +:+ "?" +:+ dquote +:+ " }.join(" +:+ dquote +:+ ", "
            +:+ dquote +:+ ")"
            +:+ newline +:+ "      sql = sql.gsub(" +:+ dquote
            +:+ "/*SLICE:ids*/?" +:+ dquote +:+ ", placeholders_ids)")
           (File_Contents (generateQueries (SampleSlice.mysql [SampleSlice.byIds]))).
Proof.
  destruct (every_slice_parameter_expanded (SampleSlice.mysql [SampleSlice.byIds])
              SampleSlice.byIds) as [_ [_ [_ [_ Hfile]]]].
  apply (Hfile (or_introl eq_refl) (or_introl eq_refl) "ids").
  simpl. left. reflexivity.
Defined.



Lemma slice_method_without_statement_witness :
  sliceCall (buildQuery (SampleSlice.mysql []) SampleMore.deleteByIds) = ""
  /\ CQ_ReturnType (buildQuery (SampleSlice.mysql []) SampleMore.deleteByIds)
     = "DB::ExecResult".
Proof.
  split; [|reflexivity].
  destruct (slice_method_without_statement (SampleSlice.mysql [])
              SampleMore.deleteByIds (queriesData (SampleSlice.mysql []))
              SampleSlice.threeIds) as [Hcall _].
  - reflexivity.
  - simpl. left. reflexivity.
  - exact Hcall.
Defined.

(* ===================================================================== *)
(** * Further properties: the models file *)
(* ===================================================================== *)

Section ModelsMore.

Variable orders : nat -> rangeOrder.
Variable g : Generator.

Lemma register_structs_mono (st : modelsState) (signature k : string)
    (cs : crystalStruct) :
  is_Some (structs st !! k) -> is_Some (structs (register st signature cs) !! k).
Proof.
  intros H. unfold register. simpl.
  destruct (decide (Struct_Name cs = k)) as [-> | Hne].
  - rewrite lookup_insert_eq. eauto.
  - now rewrite lookup_insert_ne by exact Hne.
Qed.

Lemma registerTables_structs_mono (ts : list Table) (st : modelsState)
    (k : string) :
  is_Some (structs st !! k) ->
  is_Some (structs (fold_left (registerTable g) ts st) !! k).
Proof.
  revert st. induction ts as [|t ts IH]; intros st H; [exact H|].
  simpl. apply IH. now apply register_structs_mono.
Qed.

Lemma registerTables_named (ts : list Table) (st : modelsState) (t : Table) :
  In t ts ->
  is_Some (structs (fold_left (registerTable g) ts st) !! tableStructName t).
Proof.
  revert st. induction ts as [|t' ts IH]; intros st; [intros []|].
  intros [-> | Hin]; [|now apply IH].
  simpl. apply registerTables_structs_mono.
  unfold registerTable, register. simpl. rewrite lookup_insert_eq. eauto.
Qed.

Lemma queryPass_structs_mono (queries : list Query) (i : nat)
    (st : modelsState) (k : string) :
  is_Some (structs st !! k) ->
  is_Some (structs (queryPass orders g i queries st) !! k).
Proof.
  revert i st. induction queries as [|query queries IH]; intros i st H;
    [exact H|].
  simpl. apply IH.
  destruct (addQuery_cases g (orders i) st query) as [-> | [_ [_ [_ ->]]]];
    [exact H | now apply register_structs_mono].
Qed.

Lemma renderStruct_declares (data : templateData) (cs : crystalStruct) :
  occursIn ("  struct " +:+ Struct_Name cs +:+ newline) (renderStruct data cs).
Proof.
  unfold renderStruct. exists newline.
  eexists. rewrite !append_assoc. reflexivity.
Qed.

(** X13.  Every table of the catalog that is no system table, lies in no
    system schema and has a column has a struct of its name in the models
    file: [struct Name], with [Name] the Pascal-cased singular of the table
    name. *)
Theorem modelled_table_struct_emitted (t : Table) :
  In t (modelledTables g) ->
  (exists cs, In cs (structList (buildModels orders g))
              /\ Struct_Name cs = tableStructName t)
  /\ exists file,
       fst (generateModels orders g) = Some file
       /\ File_Name file = "models.cr"
       /\ occursIn ("  struct " +:+ tableStructName t +:+ newline)
                   (File_Contents file).
Proof.
  intros Hin.
  assert (Hsome : is_Some (structs (buildModels orders g) !! tableStructName t)).
  { unfold buildModels. apply queryPass_structs_mono.
    rewrite tablePass_fold. now apply registerTables_named. }
  destruct Hsome as [cs Hcs].
  pose proof (inv_named _ _ _ (buildModels_inv orders g) _ _ Hcs) as Hname.
  assert (Hlist : In cs (structList (buildModels orders g)))
    by (apply structList_In; eauto).
  split; [now exists cs|].
  unfold generateModels. cbv zeta. simpl fst.
  destruct (Nat.eqb (size (structs (buildModels orders g))) 0) eqn:Hsize.
  - exfalso. apply Nat.eqb_eq in Hsize. apply map_size_empty_iff in Hsize.
    rewrite Hsize in Hcs. now rewrite lookup_empty in Hcs.
  - eexists. split; [reflexivity|]. split; [reflexivity|].
    simpl File_Contents. unfold executeModels. simpl Data_Structs.
    do 2 apply occursIn_append_r. apply occursIn_append_l.
    rewrite <- Hname.
    apply occursIn_concat
      with (part := renderStruct (modelsData g (buildModels orders g)) cs);
      [now apply in_map | apply renderStruct_declares].
Qed.

(** X14.  The tables of PostgreSQL itself are left out: a struct of the
    models file that names a table was built from a table of the catalog
    that is no system table ([pg_], [sql_], the schemas
    [information_schema] and [pg_catalog]), lies in no system schema and
    has a column; and a catalog that holds nothing else, in a request
    without queries, gives no models file. *)
Theorem system_tables_not_modelled :
  (forall cs,
      In cs (structList (buildModels orders g)) ->
      Struct_TableName cs <> "" ->
      exists schema table,
        In schema (catalogSchemas g) /\ isSystemSchema schema = false
        /\ In table (Schema_Tables schema) /\ isSystemTable table = false
        /\ Table_Columns table <> []
        /\ cs = tableStruct g table)
  /\ ((forall schema table,
          In schema (catalogSchemas g) -> In table (Schema_Tables schema) ->
          isSystemSchema schema = true \/ isSystemTable table = true) ->
      Request_Queries (req g) = [] ->
      fst (generateModels orders g) = None).
Proof.
  split.
  - intros cs Hin Htable. apply structList_In in Hin as [name Hcs].
    destruct (inv_origin _ _ _ (buildModels_inv orders g) _ _ Hcs)
      as [[t [Ht ->]] | [i [query [_ [_ ->]]]]]; [|now simpl in Htable].
    pose proof (modelledTables_modelled g t Ht) as Hmodelled.
    unfold modelledTables in Ht. apply in_flat_map in Ht as [schema [Hschema Ht]].
    destruct (isSystemSchema schema) eqn:Hsys; [destruct Ht|].
    apply filter_In in Ht as [Ht _].
    unfold modelled in Hmodelled. apply andb_true_iff in Hmodelled as [Hnot Hlen].
    apply negb_true_iff in Hnot. apply Nat.ltb_lt in Hlen.
    exists schema, t. repeat split; try assumption.
    intros E. simpl in Hlen. rewrite E in Hlen. simpl in Hlen. lia.
  - intros Hall Hnone.
    assert (Hempty : modelledTables g = []).
    { unfold modelledTables.
      induction (catalogSchemas g) as [|schema schemas IH]; [reflexivity|].
      simpl. rewrite IH by (intros s t Hs; apply Hall; now right).
      destruct (isSystemSchema schema) eqn:Hsys; [reflexivity|].
      rewrite app_nil_r.
      assert (Htables : forall table, In table (Schema_Tables schema) ->
                                      isSystemTable table = true).
      { intros table Ht.
        destruct (Hall schema table (or_introl eq_refl) Ht); congruence. }
      induction (Schema_Tables schema) as [|table tables IHt]; [reflexivity|].
      simpl. unfold modelled at 1.
      rewrite (Htables table (or_introl eq_refl)). simpl.
      apply IHt. intros t' Ht'. apply Htables. now right. }
    unfold generateModels, buildModels. cbv zeta. simpl fst.
    rewrite Hnone, tablePass_fold, Hempty. reflexivity.
Qed.

Lemma nameBefore_sorted (l : list crystalStruct) :
  StronglySorted (notAfter byStructName) l ->
  NoDup (List.map Struct_Name l) ->
  StronglySorted nameBefore l.
Proof.
  induction 1 as [|x l Hsorted IH Hx]; [constructor|].
  simpl. intros Hnodup. apply NoDup_cons in Hnodup as [Hfresh Hnodup].
  constructor; [now apply IH|].
  rewrite List.Forall_forall in Hx |- *. intros y Hy.
  unfold nameBefore. destruct (String.ltb (Struct_Name x) (Struct_Name y)) eqn:Hxy;
    [reflexivity|].
  exfalso. apply Hfresh, list_elem_of_In.
  rewrite (byStructName_same x y Hxy (Hx y Hy)). now apply in_map.
Qed.

Lemma structList_names (st : modelsState) :
  registryInv orders g st -> NoDup (List.map Struct_Name (structList st)).
Proof.
  intros [Hnamed _ _ _]. unfold structList.
  rewrite (Permutation_map Struct_Name (SliceStable_perm byStructName _)).
  rewrite List.map_map.
  rewrite (List.map_ext_in _ fst).
  - apply (NoDup_fst_map_to_list (structs st)).
  - intros [name cs] Hin. simpl.
    apply list_elem_of_In, elem_of_map_to_list in Hin. now apply Hnamed.
Qed.

(** X15.  The structs of the models file are written in the strict order
    of their names: no name comes twice, and the order is that of the
    byte-wise comparison, whatever the order of the tables and queries of
    the request. *)
Theorem models_sorted_by_name :
  StronglySorted nameBefore (structList (buildModels orders g))
  /\ NoDup (List.map Struct_Name (structList (buildModels orders g))).
Proof.
  pose proof (structList_names _ (buildModels_inv orders g)) as Hnames.
  split; [|exact Hnames].
  apply nameBefore_sorted; [|exact Hnames].
  unfold structList. apply SliceStable_sorted;
    [apply byStructName_asym | apply byStructName_negtrans].
Qed.

End ModelsMore.

Lemma modelled_table_struct_emitted_witness :
  exists cs,
    In cs (structList (buildModels (fun _ => Sample.inOrder)
                                   SampleMore.mixedGenerator))
    /\ Struct_Name cs = "Author".
Proof.
  destruct (modelled_table_struct_emitted (fun _ => Sample.inOrder)
              SampleMore.mixedGenerator SampleRegistry.authors) as [Hcs _].
  - vm_compute. left. reflexivity.
  - exact Hcs.
Defined.

Lemma system_tables_not_modelled_witness :
  (exists schema table,
      In schema (catalogSchemas SampleMore.mixedGenerator)
      /\ isSystemSchema schema = false
      /\ In table (Schema_Tables schema) /\ isSystemTable table = false
      /\ Table_Columns table <> []
      /\ tableStruct SampleMore.mixedGenerator SampleRegistry.authors
         = tableStruct SampleMore.mixedGenerator table)
  /\ fst (generateModels (fun _ => Sample.inOrder)
            (Sample.postgres
               (Some (Sample.publicSchema [SampleMore.systemTable])) []))
     = None.
Proof.
  split.
  - destruct (system_tables_not_modelled (fun _ => Sample.inOrder)
                SampleMore.mixedGenerator) as [Hfrom _].
    apply Hfrom.
    + vm_compute. left. reflexivity.
    + discriminate.
  - destruct (system_tables_not_modelled (fun _ => Sample.inOrder)
                (Sample.postgres
                   (Some (Sample.publicSchema [SampleMore.systemTable])) []))
      as [_ Hnone].
    apply Hnone.
    + simpl. intros schema table [<- | []] [<- | []]. right. reflexivity.
    + reflexivity.
Defined.

(* ===================================================================== *)
(** * Further properties: the repositories *)
(* ===================================================================== *)

Section RangeMore.

Lemma rangeMap_keys {V : Type} (m : gmap string V) (l : list (string * V)) :
  (forall k v, In (k, v) l -> m !! k = Some v) ->
  omap (fun key => (fun v => (key, v)) <$> m !! key) (List.map fst l) = l.
Proof.
  induction l as [|[k v] l IH]; [reflexivity|].
  intros Hl. simpl List.map.
  rewrite (omap_cons_Some
             (fun key => (fun v => (key, v)) <$> m !! key) k _ (k, v))
    by (rewrite (Hl k v (or_introl eq_refl)); reflexivity).
  rewrite IH; [reflexivity|]. intros k' v' Hin. apply Hl. now right.
Qed.

(** A visit of a map in a valid order meets every entry once. *)
Lemma rangeMap_valid {V : Type} (order : rangeOrder) (m : gmap string V) :
  validOrder order -> Permutation (rangeMap order m) (map_to_list m).
Proof.
  intros Hvalid. unfold rangeMap.
  rewrite (Hvalid (List.map fst (map_to_list m))).
  rewrite rangeMap_keys; [reflexivity|].
  intros k v Hin. now apply list_elem_of_In, elem_of_map_to_list in Hin.
Qed.

End RangeMore.

Section TableNames.

Lemma splitFrom_bytes (p : ascii -> bool) (sep : string) (s : string)
    (skip : nat) (cur : string) :
  allBytes p cur = true -> allBytes p s = true ->
  List.Forall (fun part => allBytes p part = true) (splitFrom sep skip cur s).
Proof.
  revert skip cur. induction s as [|c s IH]; intros skip cur Hcur Hs.
  - simpl. now repeat constructor.
  - simpl in Hs. apply andb_true_iff in Hs as [Hc Hs].
    simpl. destruct skip as [|skip]; [|now apply IH].
    match goal with |- context [if ?b then _ else _] => destruct b end.
    + constructor; [exact Hcur | now apply IH].
    + apply IH; [|exact Hs].
      rewrite allBytes_append, Hcur. simpl. now rewrite Hc.
Qed.

Lemma trimLeftSpace_bytes (p : ascii -> bool) (s : string) :
  allBytes p s = true -> allBytes p (trimLeftSpace s) = true.
Proof.
  induction s as [|c s IH]; [reflexivity|].
  intros H. simpl. destruct (isSpace c); [|exact H].
  simpl in H. apply andb_true_iff in H as [_ H]. now apply IH.
Qed.

Lemma trimRightSpace_bytes (p : ascii -> bool) (s : string) :
  allBytes p s = true -> allBytes p (trimRightSpace s) = true.
Proof.
  induction s as [|c s IH]; [reflexivity|].
  intros H. simpl in H. apply andb_true_iff in H as [Hc H].
  specialize (IH H). simpl.
  destruct (trimRightSpace s) as [|c' r].
  - destruct (isSpace c); [reflexivity|]. simpl. now rewrite Hc.
  - simpl in *. now rewrite Hc.
Qed.

Lemma TrimSpace_bytes (p : ascii -> bool) (s : string) :
  allBytes p s = true -> allBytes p (TrimSpace s) = true.
Proof. intros H. now apply trimRightSpace_bytes, trimLeftSpace_bytes. Qed.

Lemma trimLeftChar_bytes (p : ascii -> bool) (x : ascii) (s : string) :
  allBytes p s = true -> allBytes p (trimLeftChar x s) = true.
Proof.
  induction s as [|c s IH]; [reflexivity|].
  intros H. simpl. destruct (Ascii.eqb c x); [|exact H].
  simpl in H. apply andb_true_iff in H as [_ H]. now apply IH.
Qed.

Lemma trimRightChar_bytes (p : ascii -> bool) (x : ascii) (s : string) :
  allBytes p s = true -> allBytes p (trimRightChar x s) = true.
Proof.
  induction s as [|c s IH]; [reflexivity|].
  intros H. simpl in H. apply andb_true_iff in H as [Hc H].
  specialize (IH H). simpl.
  destruct (trimRightChar x s) as [|c' r].
  - destruct (Ascii.eqb c x); [reflexivity|]. simpl. now rewrite Hc.
  - simpl in *. now rewrite Hc.
Qed.

Lemma TrimChar_bytes (p : ascii -> bool) (s : string) (x : ascii) :
  allBytes p s = true -> allBytes p (TrimChar s x) = true.
Proof. intros H. now apply trimRightChar_bytes, trimLeftChar_bytes. Qed.

(** The field behind a keyword holds no white space, and no upper-case
    letter if the statement holds none. *)
Lemma firstFieldAfter_bytes (sql keyword table : string) :
  noUpper sql = true ->
  firstFieldAfter sql keyword = Some table ->
  allBytes tableNameByte table = true.
Proof.
  intros Hsql. unfold firstFieldAfter, Split.
  pose proof (splitFrom_bytes _ keyword sql 0 "" eq_refl Hsql) as Hparts.
  destruct (splitFrom keyword 0 "" sql) as [|first [|tablePart rest]];
    try discriminate.
  apply List.Forall_inv_tail, List.Forall_inv in Hparts.
  apply TrimSpace_bytes in Hparts.
  assert (Hwords : List.Forall (fun w => w <> "" /\ allBytes tableNameByte w = true)
                               (Fields (TrimSpace tablePart))).
  { apply Fields_words. revert Hparts. apply allBytes_impl.
    intros c Hc. unfold tableNameByte. rewrite Hc. now destruct (isSpace c). }
  destruct (Fields (TrimSpace tablePart)) as [|w ws]; [discriminate|].
  simpl. intros [= <-]. now apply List.Forall_inv in Hwords.
Qed.

(** No field holds [ as ]: a field holds no blank. *)
Lemma field_without_alias (table : string) :
  allBytes tableNameByte table = true -> Contains table " as " = false.
Proof.
  intros H. destruct (Contains table " as ") eqn:Has; [|reflexivity].
  apply Contains_first_byte in Has. rewrite Contains_byte in Has.
  apply negb_true_iff in Has. rewrite <- Has. symmetry.
  revert H. apply allBytes_impl. intros c. unfold tableNameByte.
  destruct (Ascii.eqb c " ") eqn:E; [|reflexivity].
  apply Ascii.eqb_eq in E. now subst c.
Qed.

Lemma extractTableName_tableNameByte (q : Query) :
  allBytes tableNameByte (extractTableName q) = true.
Proof.
  pose proof (ToLower_lower (Query_Text q)) as Hsql.
  assert (Hfield : forall keyword table,
             firstFieldAfter (ToLower (Query_Text q)) keyword = Some table ->
             allBytes tableNameByte table = true).
  { intros keyword table H.
    exact (firstFieldAfter_bytes _ keyword table Hsql H). }
  assert (Hpick : forall a b c d : option string,
             (forall t, a = Some t -> allBytes tableNameByte t = true) ->
             (forall t, b = Some t -> allBytes tableNameByte t = true) ->
             (forall t, c = Some t -> allBytes tableNameByte t = true) ->
             (forall t, d = Some t -> allBytes tableNameByte t = true) ->
             allBytes tableNameByte
               match a, b, c, d with
               | Some table, _, _, _ => table
               | None, Some table, _, _ => table
               | None, None, Some table, _ => table
               | None, None, None, Some table => table
               | None, None, None, None => ""
               end = true).
  { intros [a|] [b|] [c|] [d|] Ha Hb Hc Hd; auto. }
  unfold extractTableName. cbv zeta. apply Hpick; intros t.
  - destruct (Contains _ "insert into"); [|discriminate].
    destruct (firstFieldAfter _ "insert into") as [field|] eqn:Hinsert;
      [|discriminate].
    simpl. intros [= <-]. apply TrimChar_bytes. now apply (Hfield "insert into").
  - destruct (HasPrefix _ "update "); [|discriminate]. apply Hfield.
  - destruct (Contains _ "delete from"); [|discriminate]. apply Hfield.
  - destruct (Contains _ "from"); [|discriminate].
    destruct (firstFieldAfter _ "from") as [table|] eqn:Hfrom; [|discriminate].
    simpl. rewrite (field_without_alias table (Hfield "from" table Hfrom)).
    intros [= <-]. now apply (Hfield "from").
Qed.

Lemma extractTableName_lower (q : Query) : noUpper (extractTableName q) = true.
Proof.
  generalize (extractTableName_tableNameByte q). apply allBytes_impl.
  intros c. unfold tableNameByte. now destruct (isSpace c), (isUpper c).
Qed.

(** X16.  The table name [extractTableName] finds holds no white space
    and no upper-case letter, whatever the statement; and the branch that
    strips an alias from the name behind [from] never runs, since the
    field it is handed holds no blank. *)
Theorem extractTableName_bytes (q : Query) :
  noSpace (extractTableName q) = true
  /\ noUpper (extractTableName q) = true
  /\ forall keyword table,
       firstFieldAfter (ToLower (Query_Text q)) keyword = Some table ->
       Contains table " as " = false.
Proof.
  split; [|split].
  - generalize (extractTableName_tableNameByte q). apply allBytes_impl.
    intros c. unfold tableNameByte. now destruct (isSpace c), (isUpper c).
  - apply extractTableName_lower.
  - intros keyword table H. apply field_without_alias.
    exact (firstFieldAfter_bytes _ keyword table
             (ToLower_lower (Query_Text q)) H).
Qed.

End TableNames.

Section RepositoriesMore.

Variable g : Generator.

Lemma groupStep_fold (queries : list Query)
    (m : gmap string (list crystalQuery)) (t : string) :
  t <> "" ->
  fold_left (groupStep g) queries m !! t
  = match queriesOf t queries with
    | [] => m !! t
    | selected =>
        Some (default [] (m !! t)
              ++ List.map (buildCrystalQuery g) selected)%list
    end.
Proof.
  intros Ht. revert m. induction queries as [|q queries IH]; intros m;
    [reflexivity|].
  simpl fold_left. rewrite IH. unfold queriesOf. simpl List.filter.
  fold (queriesOf t queries). unfold groupStep.
  destruct (String.eqb (extractTableName q) t) eqn:Hq.
  - apply String.eqb_eq in Hq. rewrite Hq.
    replace (String.eqb t "") with false
      by (symmetry; now apply String.eqb_neq).
    simpl negb. cbv iota. rewrite lookup_insert_eq. simpl default.
    destruct (queriesOf t queries) as [|q' selected]; [reflexivity|].
    now rewrite <- app_assoc.
  - apply String.eqb_neq in Hq.
    destruct (negb (String.eqb (extractTableName q) "")); [|reflexivity].
    now rewrite lookup_insert_ne by exact Hq.
Qed.

Lemma groupStep_fold_empty (queries : list Query)
    (m : gmap string (list crystalQuery)) :
  fold_left (groupStep g) queries m !! "" = m !! "".
Proof.
  revert m. induction queries as [|q queries IH]; intros m; [reflexivity|].
  simpl fold_left. rewrite IH. unfold groupStep.
  destruct (String.eqb (extractTableName q) "") eqn:Hq; [reflexivity|].
  apply String.eqb_neq in Hq. simpl negb. cbv iota.
  now rewrite lookup_insert_ne by exact Hq.
Qed.

(** The queries of a table, as [generateRepositories] groups them. *)
Lemma groupByTable_lookup (queries : list Query) (t : string) :
  groupByTable g queries !! t
  = if String.eqb t "" then None
    else match queriesOf t queries with
         | [] => None
         | selected => Some (List.map (buildCrystalQuery g) selected)
         end.
Proof.
  change (groupByTable g queries) with (fold_left (groupStep g) queries ∅).
  destruct (String.eqb t "") eqn:Ht.
  - apply String.eqb_eq in Ht. subst t.
    now rewrite groupStep_fold_empty, lookup_empty.
  - apply String.eqb_neq in Ht. rewrite (groupStep_fold _ _ _ Ht).
    now rewrite lookup_empty.
Qed.

Lemma groupByTable_entry (queries : list Query) (t : string)
    (selected : list crystalQuery) :
  groupByTable g queries !! t = Some selected
  <-> t <> "" /\ queriesOf t queries <> []
      /\ selected = List.map (buildCrystalQuery g) (queriesOf t queries).
Proof.
  rewrite groupByTable_lookup.
  destruct (String.eqb t "") eqn:Ht.
  - apply String.eqb_eq in Ht. split; [discriminate | now intros [? _]].
  - apply String.eqb_neq in Ht.
    destruct (queriesOf t queries) as [|q selected'] eqn:Hsel.
    + split; [discriminate | now intros [_ [? _]]].
    + split.
      * intros [= <-]. now repeat split.
      * intros [_ [_ ->]]. reflexivity.
Qed.

Lemma generateRepositories_In (order : rangeOrder) (file : File) :
  validOrder order ->
  In file (generateRepositories order g)
  <-> exists t, t <> "" /\ queriesOf t (Request_Queries (req g)) <> []
                /\ file = repositoryOf g t.
Proof.
  intros Hvalid. unfold generateRepositories. rewrite in_map_iff. split.
  - intros [[t selected] [<- Hin]].
    apply (Permutation_in _ (rangeMap_valid order _ Hvalid)) in Hin.
    apply list_elem_of_In, elem_of_map_to_list in Hin.
    apply groupByTable_entry in Hin as [Ht [Hsel ->]].
    exists t. now repeat split.
  - intros [t [Ht [Hsel ->]]].
    exists (t, List.map (buildCrystalQuery g)
                        (queriesOf t (Request_Queries (req g)))).
    split; [reflexivity|].
    apply (Permutation_in _ (Permutation_sym (rangeMap_valid order _ Hvalid))).
    apply list_elem_of_In, elem_of_map_to_list.
    now apply groupByTable_entry.
Qed.

(** X17.  The repositories are one file for every table that
    [extractTableName] finds in a query of the request, and no other; the
    repository of a table wraps the queries of that table, in the order
    of the request; a query without a table is wrapped by none. *)
Theorem repository_of_every_table (order : rangeOrder) :
  validOrder order ->
  (forall file,
      In file (generateRepositories order g)
      <-> exists t, t <> "" /\ queriesOf t (Request_Queries (req g)) <> []
                    /\ file = repositoryOf g t)
  /\ (forall q,
        In q (Request_Queries (req g)) -> extractTableName q <> "" ->
        In (repositoryOf g (extractTableName q)) (generateRepositories order g)
        /\ In q (queriesOf (extractTableName q) (Request_Queries (req g))))
  /\ List.length (generateRepositories order g)
     = size (groupByTable g (Request_Queries (req g))).
Proof.
  intros Hvalid. split; [|split].
  - intros file. now apply generateRepositories_In.
  - intros q Hin Hq.
    assert (Hsel : In q (queriesOf (extractTableName q) (Request_Queries (req g)))).
    { unfold queriesOf. apply filter_In. split; [exact Hin|].
      apply String.eqb_refl. }
    split; [|exact Hsel].
    apply generateRepositories_In; [exact Hvalid|].
    exists (extractTableName q). split; [exact Hq|]. split; [|reflexivity].
    intros E. now rewrite E in Hsel.
  - unfold generateRepositories. rewrite List.length_map.
    rewrite (Permutation_length (rangeMap_valid order _ Hvalid)).
    apply length_map_to_list.
Qed.

(** X18.  The order in which the loop of [generateRepositories] visits
    its map shows in the order of the files only: two runs hand out the
    same files, the repositories among them arranged differently at
    most. *)
Theorem repository_order_permutes_files (template : string -> string)
    (orders : nat -> rangeOrder) (repoOrder repoOrder' : rangeOrder) :
  validOrder repoOrder -> validOrder repoOrder' ->
  Permutation (Generate template orders repoOrder g)
              (Generate template orders repoOrder' g).
Proof.
  intros Hvalid Hvalid'. unfold Generate. cbv zeta.
  do 3 apply Permutation_app_head.
  destruct (GenerateRepositories (options g)); [|reflexivity].
  unfold generateRepositories. apply Permutation_map.
  now rewrite !rangeMap_valid.
Qed.

End RepositoriesMore.

Lemma repository_of_every_table_witness :
  In (repositoryOf SampleOrder.twoTables "books")
     (generateRepositories Sample.backwards SampleOrder.twoTables)
  /\ queriesOf "books" (Request_Queries (req SampleOrder.twoTables))
     = [SampleOrder.insertBook].
Proof.
  split; [|reflexivity].
  destruct (repository_of_every_table SampleOrder.twoTables Sample.backwards
              backwards_valid) as [_ [Hquery _]].
  destruct (Hquery SampleOrder.insertBook) as [Hrepo _].
  - simpl. right. left. reflexivity.
  - discriminate.
  - exact Hrepo.
Defined.

Lemma repository_order_permutes_files_witness :
  Permutation
    (Generate (fun _ => "") (fun _ => Sample.inOrder) Sample.inOrder
              SampleOrder.twoTables)
    (Generate (fun _ => "") (fun _ => Sample.inOrder) Sample.backwards
              SampleOrder.twoTables).
Proof.
  apply repository_order_permutes_files;
    [apply inOrder_valid | apply backwards_valid].
Defined.

Section FileNames.

Lemma append_inv_head (p a b : string) : p +:+ a = p +:+ b -> a = b.
Proof.
  induction p as [|x p IH]; [now rewrite !append_nil|].
  rewrite !append_cons. intros [= H]. now apply IH.
Qed.

Lemma append_inv_tail (a b c : string) : a +:+ c = b +:+ c -> a = b.
Proof.
  revert b. induction a as [|x a IH]; intros [|y b] H.
  - reflexivity.
  - apply (f_equal String.length) in H. rewrite !length_append in H.
    simpl in H. lia.
  - apply (f_equal String.length) in H. rewrite !length_append in H.
    simpl in H. lia.
  - rewrite !append_cons in H. injection H as -> H. f_equal. now apply IH.
Qed.

Variable template : string -> string.
Variable orders : nat -> rangeOrder.
Variable g : Generator.

(** The name of the repository file of a table. *)
Lemma repository_name (g' : Generator) (t : string)
    (queries : list crystalQuery) :
  File_Name (generateRepositoryForTable g' t queries)
  = "repositories/" +:+ toSnakeCase t +:+ "_repository.cr".
Proof. reflexivity. Qed.

Lemma groupByTable_key_lower (g' : Generator) (queries : list Query)
    (t : string) (selected : list crystalQuery) :
  groupByTable g' queries !! t = Some selected -> noUpper t = true.
Proof.
  intros H. apply groupByTable_entry in H as [_ [Hsel _]].
  destruct (queriesOf t queries) as [|q sel] eqn:E; [congruence|].
  assert (Hin : In q (queriesOf t queries)) by (rewrite E; now left).
  unfold queriesOf in Hin. apply filter_In in Hin as [_ Hq].
  apply String.eqb_eq in Hq. rewrite <- Hq.
  apply extractTableName_lower.
Qed.

Lemma repository_names_distinct (g' : Generator) (order : rangeOrder) :
  validOrder order ->
  NoDup (List.map File_Name (generateRepositories order g')).
Proof.
  intros Hvalid. unfold generateRepositories. rewrite List.map_map.
  rewrite (Permutation_map _ (rangeMap_valid order _ Hvalid)).
  set (m := groupByTable g' (Request_Queries (req g'))).
  rewrite (List.map_ext _
             (fun entry => "repositories/" +:+ toSnakeCase (fst entry)
                           +:+ "_repository.cr"))
    by reflexivity.
  rewrite <- (List.map_map fst
                (fun t => "repositories/" +:+ toSnakeCase t +:+ "_repository.cr")).
  apply NoDup_fmap_2_strong; [|apply (NoDup_fst_map_to_list m)].
  intros t t' Ht Ht' Hname.
  apply list_elem_of_fmap in Ht as [[k v] [-> Hk]].
  apply list_elem_of_fmap in Ht' as [[k' v'] [-> Hk']].
  apply elem_of_map_to_list in Hk, Hk'. simpl in *.
  apply groupByTable_key_lower in Hk, Hk'.
  rewrite !toSnakeCase_noUpper in Hname by assumption.
  apply append_inv_head in Hname. now apply append_inv_tail in Hname.
Qed.

Lemma modelsFiles_names :
  List.map File_Name (modelsFiles orders g) = []
  \/ List.map File_Name (modelsFiles orders g) = ["models.cr"].
Proof.
  unfold modelsFiles, generateModels.
  destruct (Request_Catalog (req g)); [|now left].
  destruct (Nat.ltb 0 _); [|now left]. cbv zeta. simpl fst.
  destruct (Nat.eqb _ 0); [now left | now right].
Qed.

(** X19.  No two files of a response have one name: the models, the
    queries and the connection manager are written once each, and two
    tables never share a repository file, since the table names
    [extractTableName] finds are lower-case and [toSnakeCase] leaves them
    as they are. *)
Theorem generated_file_names_distinct (repoOrder : rangeOrder) :
  validOrder repoOrder ->
  NoDup (List.map File_Name (Generate template orders repoOrder g)).
Proof.
  intros Hvalid. unfold Generate. cbv zeta.
  rewrite !List.map_app, !app_assoc.
  set (repos := List.map File_Name
                  (if GenerateRepositories (options g)
                   then generateRepositories repoOrder (afterModels orders g)
                   else [])).
  assert (Hrepos : NoDup repos).
  { unfold repos. destruct (GenerateRepositories (options g));
      [now apply repository_names_distinct | constructor]. }
  assert (Hprefix : forall name, In name repos ->
                                 HasPrefix name "repositories/" = true).
  { unfold repos. intros name Hin.
    destruct (GenerateRepositories (options g)); [|destruct Hin].
    unfold generateRepositories in Hin. rewrite List.map_map in Hin.
    apply in_map_iff in Hin as [entry [<- _]].
    rewrite repository_name. apply HasPrefix_append. }
  apply NoDup_app. split; [|split; [|exact Hrepos]].
  - destruct modelsFiles_names as [-> | ->];
      destruct (Nat.ltb 0 (List.length (Request_Queries (req g))));
      destruct (GenerateConnectionManager (options g));
      apply (bool_decide_unpack _); vm_compute; exact I.
  - intros name Hname Hrepo.
    apply list_elem_of_In in Hname, Hrepo. apply Hprefix in Hrepo.
    destruct modelsFiles_names as [Hm | Hm]; rewrite Hm in Hname;
      destruct (Nat.ltb 0 (List.length (Request_Queries (req g))));
      destruct (GenerateConnectionManager (options g));
      simpl in Hname; intuition (subst name; discriminate).
Qed.

End FileNames.

Lemma generated_file_names_distinct_witness :
  NoDup (List.map File_Name
           (Generate (fun _ => "") (fun _ => Sample.inOrder) Sample.backwards
                     SampleOrder.twoTables)).
Proof.
  apply generated_file_names_distinct. apply backwards_valid.
Defined.

Section TableLess.

(** X20.  A statement that holds neither [from] nor [insert into] and
    does not begin with [update ] (letter case aside) has no table:
    [extractTableName] returns the empty string, and the query lands in no
    repository. *)
Theorem query_without_table (g : Generator) (q : Query) :
  Contains (ToLower (Query_Text q)) "from" = false ->
  Contains (ToLower (Query_Text q)) "insert into" = false ->
  HasPrefix (TrimSpace (ToLower (Query_Text q))) "update " = false ->
  extractTableName q = ""
  /\ groupByTable g (Request_Queries (req g)) !! extractTableName q = None.
Proof.
  intros Hfrom Hinsert Hupdate.
  assert (H : extractTableName q = "").
  { assert (Hdelete : Contains (ToLower (Query_Text q)) "delete from" = false)
      by exact (Contains_tail _ "delete " "from" Hfrom).
    unfold extractTableName. cbv zeta.
    now rewrite Hfrom, Hinsert, Hupdate, Hdelete. }
  split; [exact H|]. rewrite H. now rewrite groupByTable_lookup.
Qed.

End TableLess.

Lemma query_without_table_witness :
  extractTableName SampleMore.selectOne = "".
Proof.
  apply (query_without_table (Sample.postgres None [SampleMore.selectOne])
           SampleMore.selectOne); reflexivity.
Defined.

Section MethodNames.

Lemma HasPrefix_longer (a rest : string) (c : ascii) :
  HasPrefix a (a +:+ String c rest) = false.
Proof.
  induction a as [|x a IH]; [reflexivity|].
  rewrite append_cons. simpl. now rewrite IH, andb_false_r.
Qed.

(** Two strings that differ in their first byte. *)
Lemma HasPrefix_mismatch (c d : ascii) (a b x y : string) :
  Ascii.eqb c d = false ->
  HasPrefix (String c a +:+ x) (String d b +:+ y) = false.
Proof. intros H. rewrite !append_cons. simpl. now rewrite H. Qed.

Lemma eqb_mismatch (c d : ascii) (a b x y : string) :
  Ascii.eqb c d = false ->
  String.eqb (String c a +:+ x) (String d b +:+ y) = false.
Proof. intros H. rewrite !append_cons. simpl. now rewrite H. Qed.

Lemma takeBytes_bytes (p : ascii -> bool) (n : nat) (s : string) :
  allBytes p s = true -> allBytes p (takeBytes n s) = true.
Proof.
  revert s. induction n as [|n IH]; intros [|c s]; try reflexivity.
  simpl. intros H. apply andb_true_iff in H as [-> H]. now apply IH.
Qed.

Lemma TrimSuffix_bytes (p : ascii -> bool) (s suffix : string) :
  allBytes p s = true -> allBytes p (TrimSuffix s suffix) = true.
Proof.
  intros H. unfold TrimSuffix. destruct (HasSuffix s suffix); [|exact H].
  now apply takeBytes_bytes.
Qed.

Lemma toSnakeCase_append_lower (a b : string) :
  noUpper a = true -> noUpper b = true -> toSnakeCase (a +:+ b) = a +:+ b.
Proof.
  intros Ha Hb. apply toSnakeCase_noUpper. unfold noUpper in *.
  now rewrite allBytes_append, Ha, Hb.
Qed.

(** X21.  The method names of a repository, for a table name [t] as
    [extractTableName] finds it (lower-case) and its singular [s] ([t]
    without a final s): [get_s...] becomes [find...], [list_t] becomes
    [all], [list_t_by_...] becomes [by_...], and [create_s...],
    [update_s...], [delete_s...] become [create], [update], [delete]
    whatever follows the table name, so that two queries that differ
    behind it are given one method name. *)
Theorem simplifyMethodName_patterns (t rest : string) :
  noUpper t = true -> noUpper rest = true ->
  let s := TrimSuffix t "s" in
  simplifyMethodName ("get_" +:+ s +:+ rest) t = "find" +:+ rest
  /\ simplifyMethodName ("list_" +:+ t) t = "all"
  /\ simplifyMethodName ("list_" +:+ t +:+ "_by_" +:+ rest) t = "by_" +:+ rest
  /\ simplifyMethodName ("create_" +:+ s +:+ rest) t = "create"
  /\ simplifyMethodName ("update_" +:+ s +:+ rest) t = "update"
  /\ simplifyMethodName ("delete_" +:+ s +:+ rest) t = "delete".
Proof.
  intros Ht Hrest. cbv zeta.
  assert (Hs : noUpper (TrimSuffix t "s") = true)
    by now apply TrimSuffix_bytes.
  assert (Hsr : noUpper (TrimSuffix t "s" +:+ rest) = true)
    by (unfold noUpper in *; now rewrite allBytes_append, Hs, Hrest).
  assert (Htr : noUpper (t +:+ "_by_" +:+ rest) = true)
    by (unfold noUpper in *; now rewrite !allBytes_append, Ht, Hrest).
  unfold simplifyMethodName. cbv zeta.
  rewrite (toSnakeCase_noUpper t Ht).
  rewrite !toSnakeCase_append_lower by first [assumption | reflexivity].
  repeat split.
  - rewrite <- (append_assoc "get_"), HasPrefix_append.
    now rewrite dropBytes_append.
  - rewrite (HasPrefix_mismatch "l" "g") by reflexivity.
    rewrite <- (append_assoc "list_" t "_by_").
    rewrite (HasPrefix_longer ("list_" +:+ t) "by_" "_").
    now rewrite String.eqb_refl.
  - rewrite (HasPrefix_mismatch "l" "g") by reflexivity.
    replace ("list_" +:+ t +:+ "_by_" +:+ rest)
      with (("list_" +:+ t +:+ "_by_") +:+ rest)
      by now rewrite !append_assoc.
    now rewrite HasPrefix_append, dropBytes_append.
  - rewrite (HasPrefix_mismatch "c" "g"), (HasPrefix_mismatch "c" "l"),
      (eqb_mismatch "c" "l") by reflexivity.
    now rewrite <- (append_assoc "create_"), HasPrefix_append.
  - rewrite (HasPrefix_mismatch "u" "g"), (HasPrefix_mismatch "u" "l"),
      (eqb_mismatch "u" "l"), (HasPrefix_mismatch "u" "c") by reflexivity.
    now rewrite <- (append_assoc "update_"), HasPrefix_append.
  - rewrite (HasPrefix_mismatch "d" "g"), (HasPrefix_mismatch "d" "l"),
      (eqb_mismatch "d" "l"), (HasPrefix_mismatch "d" "c"),
      (HasPrefix_mismatch "d" "u") by reflexivity.
    now rewrite <- (append_assoc "delete_"), HasPrefix_append.
Qed.

End MethodNames.

Lemma simplifyMethodName_patterns_witness :
  simplifyMethodName "get_author_by_email" "authors" = "find_by_email"
  /\ simplifyMethodName "create_author_with_bio" "authors" = "create".
Proof.
  destruct (simplifyMethodName_patterns "authors" "_by_email")
    as [Hget _]; [reflexivity | reflexivity |].
  destruct (simplifyMethodName_patterns "authors" "_with_bio")
    as [_ [_ [_ [Hcreate _]]]]; [reflexivity | reflexivity |].
  split; [exact Hget | exact Hcreate].
Defined.

(* ===================================================================== *)
(** * Further properties: the queries file and the entry point *)
(* ===================================================================== *)

Section QueriesMore.

Lemma renderMethod_declares (data : templateData) (q : crystalQuery) :
  occursIn (newline +:+ "    def " +:+ CQ_Name q +:+ "(" +:+ paramList (CQ_Params q)
            +:+ ") : " +:+ CQ_ReturnType q)
           (renderMethod data q).
Proof.
  unfold renderMethod. apply occursIn_append_r, occursIn_append_l.
  apply occursIn_refl.
Qed.

Lemma renderConstant_holds (q : crystalQuery) :
  occursIn (CQ_ConstantName q +:+ ": " +:+ Quote (CQ_SQL q) +:+ ",")
           (renderConstant q).
Proof.
  unfold renderConstant. do 2 apply occursIn_append_r. apply occursIn_refl.
Qed.

(** X22.  Every query of the request has its method and its constant in
    the queries file: the method is declared under the snake-cased name of
    the query, with the signature and the return type of the query, and
    the statement text is kept, quoted, under the constant-cased name. *)
Theorem every_query_has_method_and_constant (g : Generator) (query : Query) :
  In query (Request_Queries (req g)) ->
  let file := generateQueries g in
  File_Name file = "queries.cr"
  /\ occursIn ("def " +:+ toSnakeCase (Query_Name query) +:+ "("
               +:+ paramList (CQ_Params (buildQuery g query)) +:+ ") : "
               +:+ returnType g query)
              (File_Contents file)
  /\ occursIn (toConstantCase (Query_Name query) +:+ ": "
               +:+ Quote (Query_Text query) +:+ ",")
              (File_Contents file).
Proof.
  intros Hin. cbv zeta. split; [reflexivity|].
  assert (Hq : In (buildQuery g query) (Data_Queries (queriesData g))).
  { simpl. now apply in_map. }
  simpl File_Contents. unfold executeQueries. split.
  - do 22 apply occursIn_append_r. apply occursIn_append_l.
    apply occursIn_concat with (part := renderMethod (queriesData g) (buildQuery g query));
      [now apply in_map|].
    destruct (renderMethod_declares (queriesData g) (buildQuery g query))
      as [pre [post Hdecl]].
    exists (pre +:+ newline +:+ "    "), post. rewrite Hdecl.
    simpl CQ_Name. simpl CQ_ReturnType.
    now rewrite !append_assoc.
  - do 14 apply occursIn_append_r. apply occursIn_append_l.
    apply occursIn_concat with (part := renderConstant (buildQuery g query));
      [now apply in_map|].
    apply (renderConstant_holds (buildQuery g query)).
Qed.

End QueriesMore.

Lemma every_query_has_method_and_constant_witness :
  occursIn "def get_author(id : Int32) : GetAuthorRow?"
           (File_Contents (generateQueries SampleRegistry.withoutCatalog)).
Proof.
  destruct (every_query_has_method_and_constant SampleRegistry.withoutCatalog
              SampleRegistry.getAuthor) as [_ [Hmethod _]].
  - simpl. left. reflexivity.
  - exact Hmethod.
Defined.

Section EntryPoint.

(** X23.  Without a catalog, or with a catalog without schemas, no models
    file is written and no struct name is shared: every [:one] or [:many]
    query with more than one result column is given the struct name made
    from its own name, [Row] behind it. *)
Theorem without_catalog_query_named_structs (orders : nat -> rangeOrder)
    (request : GenerateRequest) (package : string) (o : GeneratorOptions)
    (query : Query) :
  let g := NewGenerator request package o in
  modelsRun g = false ->
  modelsFiles orders g = []
  /\ (1 < List.length (Query_Columns query) ->
      isRowCmd (Query_Cmd query) = true ->
      resultStruct (afterModels orders g) query
      = toPascalCase (Query_Name query) +:+ "Row").
Proof.
  cbv zeta. intros Hrun.
  assert (Hafter : afterModels orders (NewGenerator request package o)
                   = NewGenerator request package o).
  { unfold modelsRun in Hrun. unfold afterModels.
    destruct (Request_Catalog (req (NewGenerator request package o)));
      [now rewrite Hrun | reflexivity]. }
  split.
  - unfold modelsRun in Hrun. unfold modelsFiles.
    destruct (Request_Catalog (req (NewGenerator request package o)));
      [now rewrite Hrun | reflexivity].
  - intros Hlen Hrow. rewrite Hafter. unfold resultStruct.
    apply Nat.ltb_lt in Hlen. rewrite Hlen, Hrow. simpl andb. cbv iota.
    apply Nat.ltb_lt in Hlen.
    rewrite getStructNameForQuery_lookup by exact Hlen.
    simpl signatureToStruct. rewrite lookup_empty.
    unfold queryStructName. unfold isRowCmd in Hrow. now rewrite Hrow.
Qed.

(** X24.  The struct an embedded table is typed with does not depend on
    the catalog: the search through the schemas returns, when it finds the
    table, the name it would have been given without the search, so that
    the field of an embedded table is the same for every catalog and
    every option. *)
Theorem embedded_field_ignores_catalog (g g' : Generator) (query : Query)
    (tableName : string) :
  embedStructName g tableName = toPascalCase (singularize tableName)
  /\ embedField g query tableName = embedField g' query tableName.
Proof.
  split; [apply embedStructName_name|].
  unfold embedField. now rewrite !embedFieldType_optional.
Qed.

(** X25.  A request without embed markers that does not ask for
    repositories is answered in one way: the response of [generate] does
    not depend on the order in which any map is visited. *)
Theorem response_fixed_without_map_visits (template : string -> string)
    (orders orders' : nat -> rangeOrder) (repoOrder repoOrder' : rangeOrder)
    (raw : PluginOptions) (request : GenerateRequest) :
  (forall query, In query (Request_Queries request) -> noEmbeds query = true) ->
  (forall o, parseOptions raw = Some o -> Opt_GenerateRepositories o = false) ->
  generate template orders repoOrder raw request
  = generate template orders' repoOrder' raw request.
Proof.
  intros Hplain Hrepo. unfold generate.
  destruct (parseOptions raw) as [o|] eqn:Hparse; [|reflexivity].
  f_equal. apply generation_fixed_without_map_visits.
  - exact Hplain.
  - simpl. now apply Hrepo.
Qed.

End EntryPoint.

Lemma without_catalog_query_named_structs_witness :
  resultStruct (afterModels (fun _ => Sample.inOrder) SampleRegistry.withoutCatalog)
               SampleRegistry.listAuthors
  = "ListAuthorsRow".
Proof.
  destruct (without_catalog_query_named_structs (fun _ => Sample.inOrder)
              (Sample.request "postgresql" None
                 [SampleRegistry.getAuthor; SampleRegistry.listAuthors])
              "db" Sample.noOptions SampleRegistry.listAuthors)
    as [_ Hname]; [reflexivity|].
  apply Hname; [simpl; lia | reflexivity].
Defined.

Lemma response_fixed_without_map_visits_witness :
  generate (fun _ => "") (fun _ => Sample.inOrder) Sample.inOrder NoBytes
           (Sample.request "postgresql" (Some SampleRegistry.authorsCatalog)
              [SampleRegistry.getAuthor])
  = generate (fun _ => "") (fun _ => Sample.backwards) Sample.backwards NoBytes
             (Sample.request "postgresql" (Some SampleRegistry.authorsCatalog)
                [SampleRegistry.getAuthor]).
Proof.
  apply response_fixed_without_map_visits.
  - simpl. intros query [<- | []]. reflexivity.
  - simpl. intros o [= <-]. reflexivity.
Defined.

Section RepositoryCalls.

Variable g : Generator.

Lemma repoParams_sorted (params : list QueryParameter) (k : nat) :
  StronglySorted (notAfter byPosition)
                 (imap (fun i => buildRepoParam g (k + i)) params).
Proof.
  revert k. induction params as [|param params IH]; intros k; [constructor|].
  rewrite imap_cons. constructor.
  - rewrite (imap_ext _ (fun i => buildRepoParam g (S k + i))).
    + apply IH.
    + intros i x _. simpl. f_equal. lia.
  - apply List.Forall_forall. intros p Hp.
    apply list_elem_of_In, elem_of_lookup_imap in Hp as [i [x [-> _]]].
    unfold notAfter, byPosition. simpl. apply Z.ltb_ge. lia.
Qed.

Lemma repoParams_positions (params : list QueryParameter) :
  List.map Param_Position (imap (buildRepoParam g) params)
  = List.map (fun i => Z.of_nat (i + 1)) (seq 0 (List.length params)).
Proof.
  change (List.map Param_Position (imap (buildRepoParam g) params))
    with (Param_Position <$> imap (buildRepoParam g) params).
  rewrite fmap_imap.
  rewrite (imap_ext _ (fun i _ => Z.of_nat (i + 1))) by reflexivity.
  apply imap_seq_0.
Qed.

(** X26.  The method of a repository hands its arguments to the method
    of [Queries] in the order of the statement: the call lists the
    parameters by their index, whatever order the signature has put them
    in. *)
Theorem repository_call_in_statement_order (query : Query) (tableName : string) :
  let inOrder := List.map Param_Name (imap (buildRepoParam g) (Query_Params query)) in
  paramNames (CQ_Params (buildCrystalQuery g query)) = Join inOrder ", "
  /\ occursIn ("queries." +:+ toSnakeCase (Query_Name query)
               +:+ "(" +:+ Join inOrder ", " +:+ ")")
              (renderRepoMethod tableName (buildCrystalQuery g query)).
Proof.
  cbv zeta.
  assert (Hsorted : SliceStable byPosition (CQ_Params (buildCrystalQuery g query))
                    = imap (buildRepoParam g) (Query_Params query)).
  { simpl CQ_Params. rewrite byPosition_after_requiredFirst.
    - apply SliceStable_fixed. apply (repoParams_sorted _ 0).
    - rewrite repoParams_positions. apply NoDup_fmap_2; [|apply NoDup_seq].
      intros i j H. lia. }
  assert (Hnames : paramNames (CQ_Params (buildCrystalQuery g query))
                   = Join (List.map Param_Name
                             (imap (buildRepoParam g) (Query_Params query))) ", ").
  { destruct (paramNames_by_position (CQ_Params (buildCrystalQuery g query)))
      as [-> _].
    now rewrite Hsorted. }
  split; [exact Hnames|].
  unfold renderRepoMethod. rewrite Hnames. simpl CQ_Name.
  do 9 apply occursIn_append_r.
  exists "      ", (newline +:+ "    end").
  rewrite !append_assoc. reflexivity.
Qed.

End RepositoryCalls.

(** The repository of a statement whose first parameter is nullable: the
    method declares the required parameter first and calls with the
    nullable one first. *)
Example repository_call_against_signature :
  renderRepoMethod "authors"
    (buildCrystalQuery (Sample.postgres None []) SampleMore.bioThenId)
  = newline +:+ newline
    +:+ "    def update_bio(id : Int64, bio : String? = nil) : Nil" +:+ newline
    +:+ "      queries.update_bio(bio, id)" +:+ newline
    +:+ "    end".
Proof. vm_compute. reflexivity. Qed.

Section LastTable.

Variable orders : nat -> rangeOrder.
Variable g : Generator.

Lemma registerTables_last (name : string) (base : option crystalStruct)
    (ts : list Table) (st : modelsState) (found : option Table) :
  structs st !! name
  = match found with
    | Some t => Some (tableStruct g t)
    | None => base
    end ->
  structs (fold_left (registerTable g) ts st) !! name
  = match fold_left (fun found t =>
                       if String.eqb (tableStructName t) name then Some t
                       else found) ts found with
    | Some t => Some (tableStruct g t)
    | None => base
    end.
Proof.
  revert st found. induction ts as [|t ts IH]; intros st found Hst; [exact Hst|].
  simpl fold_left. apply IH. unfold registerTable, register. simpl structs.
  destruct (String.eqb (tableStructName t) name) eqn:Ht.
  - apply String.eqb_eq in Ht. rewrite <- Ht. apply lookup_insert_eq.
  - apply String.eqb_neq in Ht. now rewrite lookup_insert_ne by exact Ht.
Qed.

Lemma queryPass_passedOver (queries : list Query) (i : nat) (st : modelsState) :
  (forall query, In query queries -> passedOver query = true) ->
  queryPass orders g i queries st = st.
Proof.
  revert i st. induction queries as [|query queries IH]; intros i st Hall;
    [reflexivity|].
  simpl. assert (Hq := Hall query (or_introl eq_refl)).
  unfold passedOver in Hq. unfold addQuery.
  destruct (Nat.eqb (List.length (Query_Columns query)) 0).
  - apply IH. intros q Hin. apply Hall. now right.
  - simpl in Hq. rewrite Hq. apply IH. intros q Hin. apply Hall. now right.
Qed.

(** X27.  When two tables of the catalog are given one struct name, the
    struct of the table that comes later replaces the struct of the
    earlier one: with queries that return no rows, the models file holds,
    under every name, the struct of the last table of that name, and
    nothing else. *)
Theorem table_structs_last_wins (name : string) :
  (forall query, In query (Request_Queries (req g)) -> passedOver query = true) ->
  structs (buildModels orders g) !! name
  = tableStruct g <$> lastNamed name (modelledTables g).
Proof.
  intros Hpassed. unfold buildModels.
  rewrite (queryPass_passedOver _ _ _ Hpassed), tablePass_fold.
  rewrite (registerTables_last name None (modelledTables g) (initialModels g) None)
    by apply lookup_empty.
  unfold lastNamed. now destruct (fold_left _ (modelledTables g) None).
Qed.

End LastTable.

Lemma table_structs_last_wins_witness :
  structs (buildModels (fun _ => Sample.inOrder) SampleMore.twoAuthorTables)
    !! "Author"
  = Some (tableStruct SampleMore.twoAuthorTables SampleRegistry.authors).
Proof.
  rewrite (table_structs_last_wins (fun _ => Sample.inOrder)
             SampleMore.twoAuthorTables "Author").
  - reflexivity.
  - simpl. intros query [<- | []]. reflexivity.
Defined.
